(** * Quota resolution and normalisation (src/api/quota.ts)

    A shallow embedding of the quota subsystem of the batch auth manager:
    the wire-call error helper, credential introspection, the three
    per-provider resolvers (Antigravity, Gemini CLI, Codex) and the
    dispatch facade, followed by the properties the specification states
    about them.

    Conventions of the embedding.
    - A JavaScript number is a binary64 value, held as the rational it
      denotes and extended with NaN and the two infinities.  Arithmetic
      and the reading of a decimal literal round the exact result to the
      nearest binary64 value, ties to even, with overflow to an infinity
      and gradual underflow.  The two zeros are identified (the program
      never distinguishes them).
    - A JavaScript string is a sequence of code units below 256.
    - A value of TypeScript type [any] is a JSON-like [value]; an object
      is the list of its own properties in enumeration order, and none of
      them is callable.
    - A function that can throw returns a [result]; asynchronous
      functions run in the state-passing monad [M], whose state is the
      log of the collaborator calls made so far. *)

From Stdlib Require Import ZArith QArith Qround Bool List String Ascii Lia.
From Stdlib Require Import DecimalString Lqa Qpower.
Import ListNotations.

Open Scope string_scope.

(** ** Numbers *)

Module Num.

Inductive number : Type :=
| NaN
| PInf
| NInf
| Fin (q : Q).

(** An integer literal of the program (each is a binary64 value). *)
Definition of_Z (z : Z) : number := Fin (inject_Z z).

Definition isNaN (n : number) : bool :=
  match n with NaN => true | _ => false end.

(** [Number.isFinite] on a number. *)
Definition isFinite (n : number) : bool :=
  match n with Fin _ => true | _ => false end.

Definition Qltb (a b : Q) : bool :=
  match Qcompare a b with Lt => true | _ => false end.

Definition Qeqb (a b : Q) : bool := Qeq_bool a b.

(** [a < b]; any comparison with NaN is false. *)
Definition lt (a b : number) : bool :=
  match a, b with
  | NaN, _ | _, NaN => false
  | PInf, _ => false
  | _, NInf => false
  | NInf, _ => true
  | _, PInf => true
  | Fin x, Fin y => Qltb x y
  end.

(** [a === b] on numbers. *)
Definition eqb (a b : number) : bool :=
  match a, b with
  | PInf, PInf => true
  | NInf, NInf => true
  | Fin x, Fin y => Qeqb x y
  | _, _ => false
  end.

Definition le (a b : number) : bool := lt a b || eqb a b.
Definition gt (a b : number) : bool := lt b a.
Definition ge (a b : number) : bool := le b a.

(** [Math.max(a, b)] and [Math.min(a, b)]: NaN if either argument is. *)
Definition max (a b : number) : number :=
  match a, b with
  | NaN, _ | _, NaN => NaN
  | _, _ => if lt a b then b else a
  end.

Definition min (a b : number) : number :=
  match a, b with
  | NaN, _ | _, NaN => NaN
  | _, _ => if lt b a then b else a
  end.

(** [Math.min(...l)]: Infinity on the empty list. *)
Definition min_list (l : list number) : number := fold_left min l PInf.

Definition neg (a : number) : number :=
  match a with
  | NaN => NaN
  | PInf => NInf
  | NInf => PInf
  | Fin x => Fin (Qred (- x))
  end.

(** *** Rounding to binary64 *)

Definition pow2 (e : Z) : Q := Qpower 2 e.

(** The integer part of the binary logarithm of a positive rational. *)
Definition ilog2 (q : Q) : Z :=
  let k := (Z.log2 (Qnum q) - Z.log2 (Z.pos (Qden q)))%Z in
  if Qle_bool (pow2 k) q then k else (k - 1)%Z.

(** The nearest integer, a tie going to the even one. *)
Definition nearest_even (q : Q) : Z :=
  let f := Qfloor q in
  match Qcompare (q - inject_Z f) (1 # 2) with
  | Lt => f
  | Gt => (f + 1)%Z
  | Eq => if Z.even f then f else (f + 1)%Z
  end.

(** The exponent of the unit in the last place at a positive rational:
    53 significant bits, and 2^-1074 for the subnormal numbers. *)
Definition binade (q : Q) : Z := Z.max (ilog2 q - 52) (-1074).

Definition nearest_multiple (q : Q) : Q :=
  let e := binade q in inject_Z (nearest_even (q / pow2 e)) * pow2 e.

(** The binary64 value of a positive rational; what rounds to 2^1024 or
    more is Infinity. *)
Definition round_pos (q : Q) : number :=
  let r := nearest_multiple q in
  if Qle_bool (pow2 1024) r then PInf else Fin (Qred r).

Definition round64 (q : Q) : number :=
  match Qcompare q 0 with
  | Eq => Fin 0
  | Gt => round_pos q
  | Lt => neg (round_pos (- q))
  end.

(** *** Arithmetic *)

Definition add (a b : number) : number :=
  match a, b with
  | NaN, _ | _, NaN => NaN
  | PInf, NInf | NInf, PInf => NaN
  | PInf, _ | _, PInf => PInf
  | NInf, _ | _, NInf => NInf
  | Fin x, Fin y => round64 (x + y)
  end.

Definition sub (a b : number) : number := add a (neg b).

Definition sign_of (q : Q) : comparison := Qcompare q 0.

Definition mul (a b : number) : number :=
  match a, b with
  | NaN, _ | _, NaN => NaN
  | Fin x, Fin y => round64 (x * y)
  | Fin x, PInf | PInf, Fin x =>
      match sign_of x with Eq => NaN | Gt => PInf | Lt => NInf end
  | Fin x, NInf | NInf, Fin x =>
      match sign_of x with Eq => NaN | Gt => NInf | Lt => PInf end
  | PInf, PInf | NInf, NInf => PInf
  | PInf, NInf | NInf, PInf => NInf
  end.

(** [a / k] for a strictly positive finite constant [k] (the program only
    divides by the literals 100 and 1000). *)
Definition div_pos (a : number) (k : Q) : number :=
  match a with
  | Fin x => round64 (x / k)
  | other => other
  end.

(** [Math.floor] and [Math.round] (round half up: floor (x + 1/2)); both
    are exact, the integers they answer being binary64 values whenever
    their argument is. *)
Definition floor (a : number) : number :=
  match a with
  | Fin x => of_Z (Qfloor x)
  | other => other
  end.

Definition round (a : number) : number :=
  match a with
  | Fin x => of_Z (Qfloor (x + (1 # 2)))
  | other => other
  end.

(** Truthiness of a number: everything but NaN and zero. *)
Definition truthy (a : number) : bool :=
  match a with
  | NaN => false
  | Fin x => negb (Qeqb x 0)
  | _ => true
  end.

End Num.

Export Num.

(** ** Strings *)

Module Str.

Definition code (c : ascii) : nat := nat_of_ascii c.

(** White space and line terminators among the code units below 256. *)
Definition is_space (c : ascii) : bool :=
  let n := code c in
  ((9 <=? n) && (n <=? 13) || (n =? 32) || (n =? 160))%nat.

Definition is_digit (c : ascii) : bool :=
  let n := code c in ((48 <=? n) && (n <=? 57))%nat.

Definition digit_val (c : ascii) : Z := Z.of_nat (code c) - 48.

Fixpoint trim_start (s : string) : string :=
  match s with
  | String c r => if is_space c then trim_start r else s
  | EmptyString => EmptyString
  end.

Fixpoint rev_acc (s acc : string) : string :=
  match s with
  | EmptyString => acc
  | String c r => rev_acc r (String c acc)
  end.

Definition rev (s : string) : string := rev_acc s EmptyString.

Definition trim_end (s : string) : string := rev (trim_start (rev s)).

(** [s.trim()] *)
Definition trim (s : string) : string := trim_end (trim_start s).

Definition lower_char (c : ascii) : ascii :=
  let n := code c in
  if ((65 <=? n) && (n <=? 90))%nat then ascii_of_nat (n + 32)
  else if ((192 <=? n) && (n <=? 222) && negb (n =? 215))%nat
       then ascii_of_nat (n + 32)
  else c.

(** [s.toLowerCase()] *)
Fixpoint toLowerCase (s : string) : string :=
  match s with
  | EmptyString => EmptyString
  | String c r => String (lower_char c) (toLowerCase r)
  end.

Definition is_empty (s : string) : bool :=
  match s with EmptyString => true | _ => false end.

(** [s.endsWith(suf)] *)
Definition endsWith (s suf : string) : bool := prefix (rev suf) (rev s).

(** [s.slice(0, -n)] *)
Definition drop_end (n : nat) (s : string) : string :=
  substring 0 (length s - n) s.

(** [s.split(sep)] for a one-character separator: never the empty list. *)
Fixpoint split (sep : ascii) (s : string) : list string :=
  match s with
  | EmptyString => [EmptyString]
  | String c r =>
      if Ascii.eqb c sep then EmptyString :: split sep r
      else match split sep r with
           | p :: ps => String c p :: ps
           | [] => [String c EmptyString]
           end
  end.

(** [s.replace(/a/g, b)] for single characters. *)
Fixpoint replace_char (a b : ascii) (s : string) : string :=
  match s with
  | EmptyString => EmptyString
  | String c r =>
      String (if Ascii.eqb c a then b else c) (replace_char a b r)
  end.

Fixpoint repeat_char (c : ascii) (n : nat) : string :=
  match n with
  | O => EmptyString
  | S k => String c (repeat_char c k)
  end.

(** [s.padEnd(n, c)] for a one-character filler. *)
Definition padEnd (s : string) (n : nat) (c : ascii) : string :=
  s ++ repeat_char c (n - length s).

(** Longest run of characters satisfying [p], and the rest. *)
Fixpoint span (p : ascii -> bool) (s : string) : string * string :=
  match s with
  | String c r =>
      if p c then let (a, b) := span p r in (String c a, b)
      else (EmptyString, s)
  | EmptyString => (EmptyString, EmptyString)
  end.

Fixpoint digits_val_acc (s : string) (acc : Z) : Z :=
  match s with
  | EmptyString => acc
  | String c r => digits_val_acc r (10 * acc + digit_val c)
  end.

Definition digits_val (s : string) : Z := digits_val_acc s 0.

End Str.

(** An exponent part [[eE] [+-]? digits] at the head of [s], as its value
    and the rest of the string; without digits there is no exponent part
    and nothing is consumed. *)
Definition read_exponent (s : string) : Z * string :=
  match s with
  | String c r =>
      if (Ascii.eqb c "e" || Ascii.eqb c "E")%bool then
        let '(sg, r') :=
          match r with
          | String "+" t => (1%Z, t)
          | String "-" t => ((-1)%Z, t)
          | _ => (1%Z, r)
          end in
        let (ds, rest) := Str.span Str.is_digit r' in
        if Str.is_empty ds then (0%Z, s) else ((sg * Str.digits_val ds)%Z, rest)
      else (0%Z, s)
  | EmptyString => (0%Z, s)
  end.

(** The number that the decimal literal [mant * 10^exp10] denotes: the
    binary64 value nearest to it. *)
Definition decimal_value (mant : Z) (exp10 : Z) : number :=
  Num.round64 (inject_Z mant * Qpower (10 # 1) exp10).

(** The longest prefix of [s] that is a decimal literal
    ([+-]? (Infinity | digits [. digits*] | . digits) ([eE] [+-]? digits)?),
    as its value and the rest of the string; [None] when no prefix is one. *)
Definition read_decimal (s : string) : option (number * string) :=
  let '(negative, r) :=
    match s with
    | String "+" u => (false, u)
    | String "-" u => (true, u)
    | _ => (false, s)
    end in
  if prefix "Infinity" r
  then Some (if negative then NInf else PInf, substring 8 (length r - 8) r)
  else
    let (ip, r1) := Str.span Str.is_digit r in
    let (fp, r2) :=
      match r1 with
      | String "." u => Str.span Str.is_digit u
      | _ => (EmptyString, r1)
      end in
    if (Str.is_empty ip && Str.is_empty fp)%bool then None
    else
      let m := Str.digits_val (ip ++ fp) in
      let (ex, rest) := read_exponent r2 in
      let e := (ex - Z.of_nat (length fp))%Z in
      Some (decimal_value (if negative then (- m)%Z else m) e, rest).

(** [parseFloat] on a string: leading white space is skipped and whatever
    follows the literal is ignored. *)
Definition parseFloat_string (s : string) : number :=
  match read_decimal (Str.trim_start s) with
  | Some (n, _) => n
  | None => NaN
  end.

Definition is_hex_digit (c : ascii) : bool :=
  let n := Str.code c in
  (Str.is_digit c || ((65 <=? n) && (n <=? 70)) || ((97 <=? n) && (n <=? 102)))%nat.

Definition hex_val (c : ascii) : Z :=
  let n := Str.code c in
  if Str.is_digit c then Z.of_nat n - 48
  else if (n <=? 70)%nat then Z.of_nat n - 55
  else Z.of_nat n - 87.

Fixpoint radix_val_acc (radix : Z) (s : string) (acc : Z) : option Z :=
  match s with
  | EmptyString => Some acc
  | String c r =>
      if (is_hex_digit c && (hex_val c <? radix)%Z)%bool
      then radix_val_acc radix r (radix * acc + hex_val c)
      else None
  end.

(** A non-decimal integer literal after its two-character prefix. *)
Definition radix_literal (radix : Z) (digits : string) : number :=
  if Str.is_empty digits then NaN
  else match radix_val_acc radix digits 0 with
       | Some z => Num.round64 (inject_Z z)
       | None => NaN
       end.

(** The conversion of a string to a number (as in [s <= 0]): surrounding
    white space is ignored, the empty string is 0, and the whole of what
    is left must be one numeric literal. *)
Definition string_to_number (s : string) : number :=
  let t := Str.trim s in
  match t with
  | EmptyString => Fin 0
  | String "0" (String c r) =>
      if (Ascii.eqb c "x" || Ascii.eqb c "X")%bool then radix_literal 16 r
      else if (Ascii.eqb c "o" || Ascii.eqb c "O")%bool then radix_literal 8 r
      else if (Ascii.eqb c "b" || Ascii.eqb c "B")%bool then radix_literal 2 r
      else match read_decimal t with
           | Some (n, EmptyString) => n
           | _ => NaN
           end
  | _ => match read_decimal t with
         | Some (n, EmptyString) => n
         | _ => NaN
         end
  end.

(** ** Values of type [any] *)

#[warnings="-register-all"]
Inductive value : Type :=
| VUndefined
| VNull
| VBool (b : bool)
| VNum (n : number)
| VStr (s : string)
| VArr (items : list value)
| VObj (fields : list (string * value)).

(** Exceptions.  [Err msg status] is an [Error] object with its message
    and the optional [statusCode] property that [createNon2xxError]
    attaches; [TypeErr msg] is a [TypeError] raised by the runtime (it is
    an [Error] too); [Thrown v] is any other thrown value. *)
Inductive exn : Type :=
| Err (message : string) (statusCode : option number)
| TypeErr (message : string)
| Thrown (v : value).

Inductive result (A : Type) : Type :=
| Ok (a : A)
| Throw (e : exn).

Arguments Ok {A} a.
Arguments Throw {A} e.

Definition rbind {A B} (r : result A) (k : A -> result B) : result B :=
  match r with
  | Ok a => k a
  | Throw e => Throw e
  end.

Declare Scope result_scope.
Delimit Scope result_scope with result.
Notation "x <- r ;; k" := (rbind r (fun x => k))
  (at level 61, r at next level, right associativity) : result_scope.

Module JS.

(** [!!v] *)
Definition truthy (v : value) : bool :=
  match v with
  | VUndefined | VNull => false
  | VBool b => b
  | VNum n => Num.truthy n
  | VStr s => negb (Str.is_empty s)
  | VArr _ | VObj _ => true
  end.

Definition nullish (v : value) : bool :=
  match v with VUndefined | VNull => true | _ => false end.

(** [a || b] and [a ?? b] on operands that are already evaluated (the
    operands of this program have no effects). *)
Definition or (a b : value) : value := if truthy a then a else b.
Definition coalesce (a b : value) : value := if nullish a then b else a.

Definition is_string (v : value) : bool :=
  match v with VStr _ => true | _ => false end.

(** [typeof v === 'object'] (true of null, arrays and objects). *)
Definition is_object_type (v : value) : bool :=
  match v with VNull | VArr _ | VObj _ => true | _ => false end.

Definition isArray (v : value) : bool :=
  match v with VArr _ => true | _ => false end.

Fixpoint lookup (k : string) (fields : list (string * value)) : value :=
  match fields with
  | [] => VUndefined
  | (k', v) :: rest => if String.eqb k k' then v else lookup k rest
  end.

(** [v?.k]: the property [k] of [v], undefined on null and undefined.
    None of the property names this program reads is a property of a
    string, number, boolean or array, or of [Object.prototype], so only
    objects answer with something else than undefined. *)
Definition get_opt (v : value) (k : string) : value :=
  match v with
  | VObj fields => lookup k fields
  | _ => VUndefined
  end.

(** [v.k]: a TypeError on null and undefined. *)
Definition get (v : value) (k : string) : result value :=
  if nullish v
  then Throw (TypeErr ("Cannot read properties of null or undefined: " ++ k))
  else Ok (get_opt v k).

(** [Object.entries(v)]; the program calls it on an object that is not
    an array. *)
Definition entries (v : value) : list (string * value) :=
  match v with
  | VObj fields => fields
  | _ => []
  end.

End JS.

(** ** Conversions to a primitive

    [String(v)], [parseFloat(v)], a template literal and a comparison
    with a number all convert an object to a primitive first, through
    its [toString] and [valueOf] methods.  An object without an own
    property [toString] inherits the one that answers
    ["[object Object]"].  An own property [toString] hides it and is not
    callable; [valueOf], own or inherited, does not answer a primitive
    either, and the conversion is a TypeError.  An array converts by
    joining the strings of its elements, so it fails when one of them
    does. *)

Definition has_own (k : string) (fields : list (string * value)) : bool :=
  existsb (fun kv => String.eqb k (fst kv)) fields.

Fixpoint convertible (v : value) : bool :=
  match v with
  | VObj fields => negb (has_own "toString" fields)
  | VArr items =>
      (fix all (l : list value) : bool :=
         match l with
         | [] => true
         | x :: rest => convertible x && all rest
         end) items
  | _ => true
  end.

Definition conversion_error : exn :=
  TypeErr "Cannot convert object to primitive value".

(** What [parseFloat] reads in the string of a value that converts.  For
    a number the conversion and the parse cancel (Number::toString prints
    a literal that reads back as the same number).  An array prints as its
    elements joined by commas, so only its first element can contribute,
    and null and undefined elements print as the empty string. *)
Fixpoint float_of (v : value) : number :=
  match v with
  | VNum n => n
  | VStr s => parseFloat_string s
  | VArr (x :: _) => float_of x
  | _ => NaN
  end.

(** [parseFloat(v)] *)
Definition parseFloat (v : value) : result number :=
  if convertible v then Ok (float_of v) else Throw conversion_error.

(** The number of a value that converts, as the comparison [v <= 0]
    takes it.  An array is converted through its string: no element
    gives 0, one element gives what its own string gives (the empty string
    for null and undefined), more elements give NaN because of the comma. *)
Fixpoint element_to_number (v : value) : number :=
  match v with
  | VUndefined | VNull => Fin 0
  | VNum n => n
  | VStr s => string_to_number s
  | VArr [] => Fin 0
  | VArr [x] => element_to_number x
  | _ => NaN
  end.

Definition number_of (v : value) : number :=
  match v with
  | VUndefined => NaN
  | VNull => Fin 0
  | VBool true => Fin 1
  | VBool false => Fin 0
  | other => element_to_number other
  end.

(** The conversion of the left operand of [v <= 0], [v < 200] and
    [v >= 200]. *)
Definition to_number (v : value) : result number :=
  if convertible v then Ok (number_of v) else Throw conversion_error.

(** ** Regular expression and Base64 helpers *)

Definition is_paren (c : ascii) : bool :=
  (Ascii.eqb c "(" || Ascii.eqb c ")")%bool.

(** [account.match(/\(([^()]+)\)/)]: the capture of the leftmost match,
    [None] where the match is null.  At an opening parenthesis the greedy
    class takes the whole run of non-parenthesis characters, and the match
    succeeds there exactly when the run is non-empty and a closing
    parenthesis follows it. *)
Fixpoint match_paren_group (s : string) : option string :=
  match s with
  | EmptyString => None
  | String c r =>
      if Ascii.eqb c "(" then
        let (g, rest) := Str.span (fun x => negb (is_paren x)) r in
        match rest with
        | String ")" _ =>
            if Str.is_empty g then match_paren_group r else Some g
        | _ => match_paren_group r
        end
      else match_paren_group r
  end.

(** [atob]: forgiving Base64 decoding; [None] where it throws. *)
Module Base64.

Definition is_ascii_space (c : ascii) : bool :=
  let n := Str.code c in
  ((n =? 9) || (n =? 10) || (n =? 12) || (n =? 13) || (n =? 32))%nat.

Fixpoint strip_space (s : string) : string :=
  match s with
  | EmptyString => EmptyString
  | String c r =>
      if is_ascii_space c then strip_space r else String c (strip_space r)
  end.

Definition sextet (c : ascii) : option nat :=
  let n := Str.code c in
  if ((65 <=? n) && (n <=? 90))%nat then Some (n - 65)%nat
  else if ((97 <=? n) && (n <=? 122))%nat then Some (n - 71)%nat
  else if ((48 <=? n) && (n <=? 57))%nat then Some (n + 4)%nat
  else if (n =? 43)%nat then Some 62%nat
  else if (n =? 47)%nat then Some 63%nat
  else None.

Fixpoint sextets (s : string) : option (list nat) :=
  match s with
  | EmptyString => Some []
  | String c r =>
      match sextet c, sextets r with
      | Some v, Some vs => Some (v :: vs)
      | _, _ => None
      end
  end.

Definition byte (n : nat) : ascii := ascii_of_nat (n mod 256).

Fixpoint bytes_of (l : list nat) : string :=
  match l with
  | a :: b :: c :: d :: rest =>
      String (byte (a * 4 + b / 16))
        (String (byte ((b mod 16) * 16 + c / 4))
           (String (byte ((c mod 4) * 64 + d)) (bytes_of rest)))
  | [a; b; c] =>
      String (byte (a * 4 + b / 16))
        (String (byte ((b mod 16) * 16 + c / 4)) EmptyString)
  | [a; b] => String (byte (a * 4 + b / 16)) EmptyString
  | _ => EmptyString
  end.

(** Drop one or two trailing [=] of a string whose length is a multiple
    of four. *)
Definition strip_padding (s : string) : string :=
  if (length s mod 4 =? 0)%nat then
    if Str.endsWith s "==" then Str.drop_end 2 s
    else if Str.endsWith s "=" then Str.drop_end 1 s
    else s
  else s.

Definition atob (data : string) : option string :=
  let s := strip_padding (strip_space data) in
  if (length s mod 4 =? 1)%nat then None
  else match sextets s with
       | Some l => Some (bytes_of l)
       | None => None
       end.

End Base64.

(** The URL-safe alphabet mapped back and the padding restored, as
    decodeJwtPayload does before calling [atob]. *)
Definition base64url_to_base64 (seg : string) : string :=
  let payload := Str.replace_char "_" "/" (Str.replace_char "-" "+" seg) in
  let padding := (length payload mod 4)%nat in
  if (padding =? 0)%nat then payload
  else Str.padEnd payload (length payload + (4 - padding)) "=".

(** ** A JSON reader and printer

    JSON.parse and JSON.stringify are parameters of the model below.  This
    reader and printer of the JSON texts whose strings stay below code
    unit 256 instantiate them in the worked examples. *)

Module Json.

Definition quote : ascii := "034".
Definition backslash : ascii := "092".

Definition is_ws (c : ascii) : bool :=
  let n := Str.code c in
  ((n =? 32) || (n =? 9) || (n =? 10) || (n =? 13))%nat.

Fixpoint skip_ws (s : string) : string :=
  match s with
  | String c r => if is_ws c then skip_ws r else s
  | EmptyString => EmptyString
  end.

Definition hex4 (a b c d : ascii) : option nat :=
  if (is_hex_digit a && is_hex_digit b && is_hex_digit c && is_hex_digit d)%bool
  then Some (Z.to_nat (((hex_val a * 16 + hex_val b) * 16 + hex_val c) * 16
                       + hex_val d))
  else None.

(** The characters of a string literal after its opening quote. *)
Fixpoint read_string (s : string) : option (string * string) :=
  match s with
  | EmptyString => None
  | String c r =>
      if Ascii.eqb c quote then Some (EmptyString, r)
      else if Ascii.eqb c backslash then
        match r with
        | String e r' =>
            let simple (x : ascii) :=
              match read_string r' with
              | Some (t, rest) => Some (String x t, rest)
              | None => None
              end in
            if Ascii.eqb e quote then simple quote
            else if Ascii.eqb e backslash then simple backslash
            else if Ascii.eqb e "/" then simple "/"%char
            else if Ascii.eqb e "b" then simple "008"%char
            else if Ascii.eqb e "f" then simple "012"%char
            else if Ascii.eqb e "n" then simple "010"%char
            else if Ascii.eqb e "r" then simple "013"%char
            else if Ascii.eqb e "t" then simple "009"%char
            else if Ascii.eqb e "u" then
              match r' with
              | String a (String b (String c' (String d r''))) =>
                  match hex4 a b c' d, read_string r'' with
                  | Some n, Some (t, rest) =>
                      if (n <? 256)%nat
                      then Some (String (ascii_of_nat n) t, rest) else None
                  | _, _ => None
                  end
              | _ => None
              end
            else None
        | EmptyString => None
        end
      else if (Str.code c <? 32)%nat then None
      else match read_string r with
           | Some (t, rest) => Some (String c t, rest)
           | None => None
           end
  end.

(** A number literal: no plus sign, no leading zero, and a digit on both
    sides of the point. *)
Definition read_number (s : string) : option (number * string) :=
  let body := match s with String "-" r => r | _ => s end in
  let (ip, r1) := Str.span Str.is_digit body in
  let leading_zero :=
    match ip with
    | String "0" (String _ _) => true
    | _ => false
    end in
  let bare_point :=
    match r1 with
    | String "." (String d _) => negb (Str.is_digit d)
    | String "." EmptyString => true
    | _ => false
    end in
  if (Str.is_empty ip || leading_zero || bare_point)%bool then None
  else read_decimal s.

(** Array-index keys come first in the enumeration of an object, in
    ascending order; the other keys follow in insertion order. *)
Definition index_key (k : string) : option Z :=
  let (ds, rest) := Str.span Str.is_digit k in
  match ds, rest with
  | EmptyString, _ => None
  | String "0" (String _ _), _ => None
  | _, EmptyString =>
      let z := Str.digits_val ds in
      if (z <? 4294967295)%Z then Some z else None
  | _, _ => None
  end.

Fixpoint set_field (k : string) (v : value) (fields : list (string * value))
  : list (string * value) :=
  match fields with
  | [] => [(k, v)]
  | (k', v') :: rest =>
      if String.eqb k k' then (k, v) :: rest
      else
        match index_key k, index_key k' with
        | Some i, Some j =>
            if (i <? j)%Z then (k, v) :: fields
            else (k', v') :: set_field k v rest
        | Some _, None => (k, v) :: fields
        | None, _ => (k', v') :: set_field k v rest
        end
  end.

Fixpoint read_value (fuel : nat) (s : string) : option (value * string) :=
  match fuel with
  | O => None
  | S f =>
      match skip_ws s with
      | String "{" r =>
          match skip_ws r with
          | String "}" rest => Some (VObj [], rest)
          | r' => read_members f r' []
          end
      | String "[" r =>
          match skip_ws r with
          | String "]" rest => Some (VArr [], rest)
          | r' => read_elements f r' []
          end
      | String c r as t =>
          if Ascii.eqb c quote then
            match read_string r with
            | Some (str, rest) => Some (VStr str, rest)
            | None => None
            end
          else if prefix "true" t then Some (VBool true, substring 4 (length t - 4) t)
          else if prefix "false" t then Some (VBool false, substring 5 (length t - 5) t)
          else if prefix "null" t then Some (VNull, substring 4 (length t - 4) t)
          else match read_number t with
               | Some (n, rest) => Some (VNum n, rest)
               | None => None
               end
      | EmptyString => None
      end
  end
with read_elements (fuel : nat) (s : string) (acc : list value)
  : option (value * string) :=
  match fuel with
  | O => None
  | S f =>
      match read_value f s with
      | Some (v, rest) =>
          match skip_ws rest with
          | String "," r => read_elements f r (acc ++ [v])%list
          | String "]" r => Some (VArr (acc ++ [v])%list, r)
          | _ => None
          end
      | None => None
      end
  end
with read_members (fuel : nat) (s : string) (acc : list (string * value))
  : option (value * string) :=
  match fuel with
  | O => None
  | S f =>
      match skip_ws s with
      | String c r =>
          if Ascii.eqb c quote then
            match read_string r with
            | Some (k, rest) =>
                match skip_ws rest with
                | String ":" r' =>
                    match read_value f r' with
                    | Some (v, rest') =>
                        match skip_ws rest' with
                        | String "," r'' => read_members f r'' (set_field k v acc)
                        | String "}" r'' => Some (VObj (set_field k v acc), r'')
                        | _ => None
                        end
                    | None => None
                    end
                | _ => None
                end
            | None => None
            end
          else None
      | EmptyString => None
      end
  end.

(** JSON.parse: [None] on a syntax error. *)
Definition parse (text : string) : option value :=
  match read_value (S (length text)) text with
  | Some (v, rest) => if Str.is_empty (skip_ws rest) then Some v else None
  | None => None
  end.

Definition hex_digit (n : nat) : ascii :=
  if (n <? 10)%nat then ascii_of_nat (48 + n) else ascii_of_nat (87 + n).

Fixpoint escape (s : string) : string :=
  match s with
  | EmptyString => EmptyString
  | String c r =>
      let n := Str.code c in
      (if Ascii.eqb c quote then String backslash (String quote EmptyString)
       else if Ascii.eqb c backslash
       then String backslash (String backslash EmptyString)
       else if (n =? 8)%nat then String backslash "b"
       else if (n =? 12)%nat then String backslash "f"
       else if (n =? 10)%nat then String backslash "n"
       else if (n =? 13)%nat then String backslash "r"
       else if (n =? 9)%nat then String backslash "t"
       else if (n <? 32)%nat
       then String backslash
              (String "u" (String "0" (String "0"
                 (String (hex_digit (n / 16))
                    (String (hex_digit (n mod 16)) EmptyString)))))
       else String c EmptyString) ++ escape r
  end.

Definition quoted (s : string) : string :=
  String quote (escape s ++ String quote EmptyString).

Section Printer.

Variable number_to_string : number -> string.

(** JSON.stringify on a JSON value; a number that is not finite prints
    as null, and so does undefined inside an array. *)
Fixpoint stringify (v : value) : string :=
  match v with
  | VUndefined | VNull => "null"
  | VBool true => "true"
  | VBool false => "false"
  | VNum n => if Num.isFinite n then number_to_string n else "null"
  | VStr s => quoted s
  | VArr items =>
      "[" ++
      (fix elements (l : list value) : string :=
         match l with
         | [] => ""
         | [x] => stringify x
         | x :: rest => stringify x ++ "," ++ elements rest
         end) items ++ "]"
  | VObj fields =>
      "{" ++
      (fix members (l : list (string * value)) (first : bool) : string :=
         match l with
         | [] => ""
         | (k, x) :: rest =>
             match x with
             | VUndefined => members rest first
             | _ =>
                 (if first then "" else ",") ++ quoted k ++ ":" ++ stringify x
                 ++ members rest false
             end
         end) fields true ++ "}"
  end.

End Printer.

End Json.

(** ** The wire-call adapter and its collaborators *)

(** interface ApiCallRequest, which is also what is posted to the
    management API; [data] is absent in a GET. *)
Record ApiCallRequest : Type := {
  req_authIndex : value;
  req_method : string;
  req_url : string;
  req_header : list (string * string);
  req_data : option string
}.

(** interface ApiCallResponse.  The fields are what apiCallApi.request
    copies out of an answer of type [any], so each of them is a value. *)
Record ApiCallResponse : Type := {
  statusCode : value;
  header : value;
  bodyText : value;
  body : value
}.

(** What the subsystem asks of its collaborators, in order: a download
    of a credential file, or a post of a call to the management API. *)
Inductive event : Type :=
| EvDownload (fileName : value)
| EvRequest (req : ApiCallRequest).

(** Asynchronous code: the state is the log of collaborator calls. *)
Definition M (A : Type) : Type := list event -> result A * list event.

Definition ret {A} (a : A) : M A := fun log => (Ok a, log).

Definition throw {A} (e : exn) : M A := fun log => (Throw e, log).

Definition bind {A B} (m : M A) (k : A -> M B) : M B :=
  fun log =>
    match m log with
    | (Ok a, log') => k a log'
    | (Throw e, log') => (Throw e, log')
    end.

Definition lift {A} (r : result A) : M A := fun log => (r, log).

Declare Scope async_scope.
Delimit Scope async_scope with async.
Notation "x <- m ;; k" := (bind m (fun x => k))
  (at level 61, m at next level, right associativity) : async_scope.

(** Run from the empty log. *)
Definition run {A} (m : M A) : result A * list event := m [].

(** ** What the resolvers return *)

(** The common shape of the specification's data model; [None] stands
    for null. *)
Record NormalizedQuotaItem : Type := {
  item_label : string;
  item_percent : option number;
  item_remaining : option number;
  item_used : option number;
  item_total : number;
  item_resetTime : value
}.

Module Antigravity.

Record group : Type := {
  name : string;
  percent : number;
  remaining : number;
  used : number;
  total : number;
  resetTime : value;
  hideInTable : bool
}.

(** [{ groups }] *)
Record data : Type := { groups : list group }.

Definition normalized (g : group) : NormalizedQuotaItem :=
  {| item_label := name g;
     item_percent := Some (percent g);
     item_remaining := Some (remaining g);
     item_used := Some (used g);
     item_total := total g;
     item_resetTime := resetTime g |}.

End Antigravity.

Module GeminiCli.

Record bucket : Type := {
  modelId : string;
  percent : number;
  remaining : number;
  used : number;
  total : number;
  resetTime : value
}.

(** [{ buckets }] *)
Record data : Type := { buckets : list bucket }.

Definition normalized (b : bucket) : NormalizedQuotaItem :=
  {| item_label := modelId b;
     item_percent := Some (percent b);
     item_remaining := Some (remaining b);
     item_used := Some (used b);
     item_total := total b;
     item_resetTime := resetTime b |}.

End GeminiCli.

Module Codex.

Record limit : Type := {
  model : string;
  percent : option number;
  remaining : option number;
  used : option number;
  total : number;
  resetTime : option number
}.

(** [{ planType, limits, campaignId }] *)
Record data : Type := {
  planType : string;
  limits : list limit;
  campaignId : value
}.

Definition normalized (l : limit) : NormalizedQuotaItem :=
  {| item_label := model l;
     item_percent := percent l;
     item_remaining := remaining l;
     item_used := used l;
     item_total := total l;
     item_resetTime :=
       match resetTime l with Some t => VNum t | None => VUndefined end |}.

End Codex.

(** [QuotaResult.data] *)
Inductive QuotaData : Type :=
| AntigravityData (d : Antigravity.data)
| GeminiCliData (d : GeminiCli.data)
| CodexData (d : Codex.data).

Record QuotaResult : Type := {
  type : string;
  data : QuotaData
}.

Section Quota.

(** Platform functions the source calls and the two collaborators.
    [fraction_to_string] is Number::toString on the numbers that are not
    integers of magnitude at most 2^53 (these print as their digits), [JSON_parse] answers [None] where
    JSON.parse throws a SyntaxError, [JSON_stringify] is applied to JSON
    values only, [Date_now k] is the clock as read while the [k]-th limit
    of a Codex answer is built.  [authFilesApi_download] is the text of
    the blob of authFilesApi.download and [request_post] the answer of
    request.post on the api-call endpoint; both answer from the log so
    far and may throw. *)
Variable fraction_to_string : Q -> string.
Variable JSON_parse : string -> option value.
Variable JSON_stringify : value -> string.
Variable Date_now : nat -> number.
Variable authFilesApi_download : list event -> value -> result string.
Variable request_post : list event -> ApiCallRequest -> result value.

(** Number::toString *)
Definition number_to_string (n : number) : string :=
  match n with
  | NaN => "NaN"
  | PInf => "Infinity"
  | NInf => "-Infinity"
  | Fin q =>
      let r := Qred q in
      if (Pos.eqb (Qden r) 1 && (Z.abs (Qnum r) <=? 2 ^ 53)%Z)%bool
      then NilZero.string_of_int (Z.to_int (Qnum r))
      else fraction_to_string q
  end.

(** The string of a value that converts. *)
Fixpoint string_of (v : value) : string :=
  match v with
  | VUndefined => "undefined"
  | VNull => "null"
  | VBool true => "true"
  | VBool false => "false"
  | VNum n => number_to_string n
  | VStr s => s
  | VArr items =>
      (fix join (l : list value) : string :=
         match l with
         | [] => ""
         | [x] => if JS.nullish x then "" else string_of x
         | x :: rest =>
             (if JS.nullish x then "" else string_of x) ++ "," ++ join rest
         end) items
  | VObj _ => "[object Object]"
  end.

(** [String(v)], and [v] in a template literal or as the message of
    [new Error(v)]. *)
Definition to_string (v : value) : result string :=
  if convertible v then Ok (string_of v) else Throw conversion_error.

Definition download (fileName : value) : M string :=
  fun log =>
    (authFilesApi_download log fileName, (log ++ [EvDownload fileName])%list).

Definition post (req : ApiCallRequest) : M value :=
  fun log => (request_post log req, (log ++ [EvRequest req])%list).

Definition parseBody (b : value) : value :=
  match b with
  | VNull | VUndefined => VNull
  | VStr s =>
      let trimmed := Str.trim s in
      if Str.is_empty trimmed then VNull
      else match JSON_parse trimmed with
           | Some v => v
           | None => b
           end
  | other => other
  end.

(** apiCallApi.request *)
Definition apiCallApi_request (req : ApiCallRequest) : M ApiCallResponse :=
  (response <- post req ;;
   status_code <- lift (JS.get response "status_code") ;;
   let response_body := JS.get_opt response "body" in
   ret {| statusCode :=
            JS.or status_code
              (JS.or (JS.get_opt response "statusCode") (VNum (Num.of_Z 0)));
          header :=
            JS.or (JS.get_opt response "header")
              (JS.or (JS.get_opt response "headers") (VObj []));
          bodyText := JS.or response_body (VStr "");
          body := parseBody response_body |})%async.

Definition normalizeText (v : value) : option string :=
  match v with
  | VStr s =>
      let trimmed := Str.trim s in
      if Str.is_empty trimmed then None else Some trimmed
  | _ => None
  end.

Definition stringifyIfNeeded (v : value) : option string :=
  match v with
  | VNull | VUndefined => None
  | VStr _ => normalizeText v
  | VNum _ | VBool _ => Some (string_of v)
  | _ => normalizeText (VStr (JSON_stringify v))
  end.

(** [Number.isFinite(v) && v > 0], answering the number. *)
Definition positive_finite (v : value) : option number :=
  match v with
  | VNum n =>
      if Num.isFinite n && Num.gt n (Num.of_Z 0) then Some n else None
  | _ => None
  end.

(** resolveStatusCode: [None] where it returns null.  The status of
    the body is read only when the status code itself does not serve, and
    [parseFloat] converts it to a string when it is not a number. *)
Definition resolveStatusCode (r : ApiCallResponse)
  : result (option number) :=
  match positive_finite (statusCode r) with
  | Some n => Ok (Some n)
  | None =>
      let bodyStatus := JS.get_opt (body r) "status" in
      (parsedStatus <-
         match bodyStatus with
         | VNum n => Ok n
         | _ => parseFloat bodyStatus
         end ;;
       Ok (positive_finite (VNum parsedStatus)))%result
  end.

Definition getOriginalErrorText (r : ApiCallResponse) : option string :=
  match stringifyIfNeeded (bodyText r) with
  | Some t => Some t
  | None => stringifyIfNeeded (body r)
  end.

(** The [errorObj] of formatNon2xxError: [body.error] when both the body
    and its [error] are truthy and of type object. *)
Definition errorObj_of (b : value) : option value :=
  if JS.truthy b && JS.is_object_type b then
    let e := JS.get_opt b "error" in
    if JS.truthy e && JS.is_object_type e then Some e else None
  else None.

Definition http_prefix (sc : option number) : string :=
  match sc with
  | Some c => "HTTP " ++ number_to_string c
  | None => "HTTP error"
  end.

Definition formatNon2xxError (r : ApiCallResponse) : result string :=
  (sc <- resolveStatusCode r ;;
   let fallback :=
     match getOriginalErrorText r with
     | Some t => t
     | None => http_prefix sc
     end in
   Ok match errorObj_of (body r) with
      | Some errorObj =>
          let errorCode := normalizeText (JS.get_opt errorObj "code") in
          let message := normalizeText (JS.get_opt errorObj "message") in
          let pre := http_prefix sc in
          match errorCode, message with
          | Some c, Some m => pre ++ " " ++ c ++ ": " ++ m
          | Some c, None => pre ++ " " ++ c
          | None, Some m => pre ++ ": " ++ m
          | None, None => fallback
          end
      | None => fallback
      end)%result.

Definition createNon2xxError (r : ApiCallResponse) : result exn :=
  (sc <- resolveStatusCode r ;;
   message <- formatNon2xxError r ;;
   Ok (Err message sc))%result.

(** ** Credential introspection *)

Definition downloadAuthFileJson (fileName : value) : M value :=
  fun log =>
    match download fileName log with
    | (Ok text, log') =>
        let trimmed := Str.trim text in
        if Str.is_empty trimmed then (Ok VNull, log')
        else match JSON_parse trimmed with
             | Some v => (Ok v, log')
             | None => (Ok VNull, log')
             end
    | (Throw _, log') => (Ok VNull, log')
    end.

Definition DEFAULT_ANTIGRAVITY_PROJECT_ID : string := "bamboo-precept-lgxtn".

(** [typeof v === 'string' && v.trim()], answering the trimmed string. *)
Definition trimmed_string (v : value) : option string := normalizeText v.

Definition project_id_of (o : value) : value :=
  JS.coalesce (JS.get_opt o "project_id") (JS.get_opt o "projectId").

Definition resolveAntigravityProjectId (fileName : value) : M string :=
  (parsed <- downloadAuthFileJson fileName ;;
   if negb (JS.truthy parsed) || negb (JS.is_object_type parsed)
   then ret DEFAULT_ANTIGRAVITY_PROJECT_ID
   else
     match trimmed_string (project_id_of parsed) with
     | Some p => ret p
     | None =>
         let installed := JS.get_opt parsed "installed" in
         let from_installed :=
           if JS.truthy installed && JS.is_object_type installed
           then trimmed_string (project_id_of installed) else None in
         match from_installed with
         | Some p => ret p
         | None =>
             let web := JS.get_opt parsed "web" in
             let from_web :=
               if JS.truthy web && JS.is_object_type web
               then trimmed_string (project_id_of web) else None in
             match from_web with
             | Some p => ret p
             | None => ret DEFAULT_ANTIGRAVITY_PROJECT_ID
             end
         end
     end)%async.

Definition resolveGeminiCliProjectId (fileName : value)
  : M (option string) :=
  (parsed <- downloadAuthFileJson fileName ;;
   if negb (JS.truthy parsed) || negb (JS.is_object_type parsed)
   then ret None
   else
     match JS.get_opt parsed "account" with
     | VStr account => ret (match_paren_group account)
     | _ => ret None
     end)%async.

(** The try block of decodeJwtPayload: [atob] throws on what is not
    Base64 and JSON.parse on what is not JSON. *)
Definition decodeJwtPayload_try (token : string) : result value :=
  match Str.split "." token with
  | _ :: seg :: _ =>
      match Base64.atob (base64url_to_base64 seg) with
      | Some decoded =>
          match JSON_parse decoded with
          | Some v => Ok v
          | None => Throw (Err "SyntaxError" None)
          end
      | None => Throw (Err "InvalidCharacterError" None)
      end
  | _ => Ok VNull
  end.

(** decodeJwtPayload: the catch clause answers null. *)
Definition decodeJwtPayload (token : string) : value :=
  match decodeJwtPayload_try token with
  | Ok v => v
  | Throw _ => VNull
  end.

(** [o.chatgpt_account_id ?? o.chatgptAccountId], kept when it is a
    string that is not blank, and trimmed. *)
Definition account_id_of (o : value) : result (option string) :=
  (first <- JS.get o "chatgpt_account_id" ;;
   second <- JS.get o "chatgptAccountId" ;;
   Ok (trimmed_string (JS.coalesce first second)))%result.

Definition extractAccountIdFromIdToken (idToken : value)
  : result (option string) :=
  if negb (JS.truthy idToken) then Ok None
  else if JS.is_object_type idToken then account_id_of idToken
  else
    match idToken with
    | VStr token =>
        let payload := decodeJwtPayload token in
        if negb (JS.truthy payload) then Ok None else account_id_of payload
    | _ => Ok None
    end.

Fixpoint first_account_id (candidates : list value)
  : result (option string) :=
  match candidates with
  | [] => Ok None
  | c :: rest =>
      (id <- extractAccountIdFromIdToken c ;;
       match id with
       | Some x => Ok (Some x)
       | None => first_account_id rest
       end)%result
  end.

Definition id_token_of (o : value) : value :=
  JS.coalesce (JS.get_opt o "id_token") (JS.get_opt o "idToken").

Definition resolveCodexAccountId (file : value) : M (option string) :=
  (top <- lift (JS.get file "id_token") ;;
   let candidates :=
     [ id_token_of file;
       id_token_of (JS.get_opt file "metadata");
       id_token_of (JS.get_opt file "attributes") ] in
   listed <- lift (first_account_id candidates) ;;
   match listed with
   | Some id => ret (Some id)
   | None =>
       parsed <- downloadAuthFileJson (JS.get_opt file "name") ;;
       if JS.truthy parsed && JS.is_object_type parsed
       then lift (extractAccountIdFromIdToken (id_token_of parsed))
       else ret None
   end)%async.

(** [typeof v === 'string' && v.trim()], answering
    [v.trim().toLowerCase()]. *)
Definition plan_string (v : value) : option string :=
  match trimmed_string v with
  | Some s => Some (Str.toLowerCase s)
  | None => None
  end.

Definition plan_type_of (o : value) : value :=
  JS.coalesce (JS.get_opt o "plan_type") (JS.get_opt o "planType").

Definition object_like (v : value) : bool :=
  JS.truthy v && JS.is_object_type v.

Definition first_some {A} (a : option A) (b : option A) : option A :=
  match a with Some _ => a | None => b end.

Definition resolveCodexPlanTypeFromFile (file : value)
  : result (option string) :=
  (top <- JS.get file "plan_type" ;;
   let idToken := id_token_of file in
   let metadata := JS.get_opt file "metadata" in
   let attributes := JS.get_opt file "attributes" in
   let metaIdToken := id_token_of metadata in
   Ok (first_some (plan_string (plan_type_of file))
      (first_some
         (if object_like idToken
          then plan_string (plan_type_of idToken) else None)
      (first_some
         (if object_like metadata
          then first_some (plan_string (plan_type_of metadata))
                 (if object_like metaIdToken
                  then plan_string (plan_type_of metaIdToken) else None)
          else None)
         (if object_like attributes
          then plan_string (plan_type_of attributes) else None)))))%result.

(** ** Antigravity *)

Record modelGroup : Type := {
  mg_id : string;
  mg_label : string;
  mg_identifiers : list string;
  mg_hideInTable : bool
}.

Definition modelGroups : list modelGroup :=
  [ {| mg_id := "claude-gpt"; mg_label := "Claude/GPT";
       mg_identifiers :=
         [ "claude-sonnet-4-5-thinking"; "claude-opus-4-5-thinking";
           "claude-opus-4-6-thinking"; "claude-sonnet-4-5";
           "gpt-oss-120b-medium" ];
       mg_hideInTable := false |};
    {| mg_id := "gemini-3-pro"; mg_label := "Gemini 3 Pro";
       mg_identifiers := [ "gemini-3-pro-high"; "gemini-3-pro-low" ];
       mg_hideInTable := false |};
    {| mg_id := "gemini-2-5-pro"; mg_label := "Gemini 2.5 Pro";
       mg_identifiers := [ "gemini-2.5-pro" ];
       mg_hideInTable := false |};
    {| mg_id := "gemini-2-5-flash"; mg_label := "Gemini 2.5 Flash";
       mg_identifiers := [ "gemini-2.5-flash"; "gemini-2.5-flash-thinking" ];
       mg_hideInTable := false |};
    {| mg_id := "gemini-2-5-cu"; mg_label := "Gemini 2.5 CU";
       mg_identifiers := [ "rev19-uic3-1p" ];
       mg_hideInTable := false |};
    {| mg_id := "gemini-2-5-flash-lite"; mg_label := "Gemini 2.5 Flash Lite";
       mg_identifiers := [ "gemini-2.5-flash-lite" ];
       mg_hideInTable := true |};
    {| mg_id := "gemini-3-flash"; mg_label := "Gemini 3 Flash";
       mg_identifiers := [ "gemini-3-flash" ];
       mg_hideInTable := false |};
    {| mg_id := "gemini-image"; mg_label := "Gemini Image";
       mg_identifiers := [ "gemini-3-pro-image" ];
       mg_hideInTable := false |} ].

(** The inner loop of findModel: the first entry whose display name is
    [id] up to case.  A truthy display name that is not a string has no
    [toLowerCase] method, and calling it is a TypeError. *)
Fixpoint find_by_displayName (id : string) (ents : list (string * value))
  : result (option (string * value)) :=
  match ents with
  | [] => Ok None
  | (key, entry) :: rest =>
      match JS.or (JS.get_opt entry "displayName") (VStr "") with
      | VStr displayName =>
          if String.eqb (Str.toLowerCase displayName) (Str.toLowerCase id)
          then Ok (Some (key, entry))
          else find_by_displayName id rest
      | _ => Throw (TypeErr "displayName.toLowerCase is not a function")
      end
  end.

Fixpoint findModel (models : value) (identifiers : list string)
  : result (option (string * value)) :=
  match identifiers with
  | [] => Ok None
  | id :: rest =>
      let model := JS.get_opt models id in
      if JS.truthy model then Ok (Some (id, model))
      else
        (found <- find_by_displayName id (JS.entries models) ;;
         match found with
         | Some m => Ok (Some m)
         | None => findModel models rest
         end)%result
  end.

(** The matches of one group: one lookup per identifier. *)
Fixpoint group_matches (models : value) (identifiers : list string)
  : result (list (string * value)) :=
  match identifiers with
  | [] => Ok []
  | identifier :: rest =>
      (m <- findModel models [identifier] ;;
       ms <- group_matches models rest ;;
       Ok (match m with Some x => x :: ms | None => ms end))%result
  end.

Record quotaEntry : Type := {
  qe_id : string;
  qe_remainingFraction : number;
  qe_resetTime : value;
  qe_displayName : value
}.

(** A remaining fraction as the upstream writes it: a percentage string
    or anything [parseFloat] reads. *)
Definition parse_fraction (v : value) : result number :=
  match v with
  | VStr s =>
      Ok (if Str.endsWith s "%" then Num.div_pos (parseFloat_string s) 100
          else parseFloat_string s)
  | _ => parseFloat v
  end.

Definition clamp01 (n : number) : number :=
  Num.max (Num.of_Z 0) (Num.min (Num.of_Z 1) n).

(** The callback of [matches.map]: [None] where it returns null. *)
Definition quota_entry_of (m : string * value) : result (option quotaEntry) :=
  let (id, entry) := m in
  let quotaInfo :=
    JS.or (JS.get_opt entry "quotaInfo")
      (JS.or (JS.get_opt entry "quota_info") (VObj [])) in
  let raw :=
    JS.or (JS.get_opt quotaInfo "remainingFraction")
      (JS.or (JS.get_opt quotaInfo "remaining_fraction")
         (JS.get_opt quotaInfo "remaining")) in
  let resetTime :=
    JS.or (JS.get_opt quotaInfo "resetTime")
      (JS.get_opt quotaInfo "reset_time") in
  (parsed <- parse_fraction raw ;;
   let remainingFraction :=
     if Num.isNaN parsed
     then (if JS.truthy resetTime then Some (Num.of_Z 0) else None)
     else Some parsed in
   Ok match remainingFraction with
      | None => None
      | Some f =>
          Some {| qe_id := id;
                  qe_remainingFraction := clamp01 f;
                  qe_resetTime := resetTime;
                  qe_displayName := JS.get_opt entry "displayName" |}
      end)%result.

Fixpoint filter_some {A} (l : list (option A)) : list A :=
  match l with
  | [] => []
  | Some a :: rest => a :: filter_some rest
  | None :: rest => filter_some rest
  end.

(** [matches.map(callback)]: the callback runs on the matches in order,
    and its first exception ends the map. *)
Fixpoint map_entries (matches : list (string * value))
  : result (list (option quotaEntry)) :=
  match matches with
  | [] => Ok []
  | m :: rest =>
      (e <- quota_entry_of m ;;
       es <- map_entries rest ;;
       Ok (e :: es))%result
  end.

(** [matches.map(callback).filter(e => e !== null)] *)
Definition quotaEntries_of (matches : list (string * value))
  : result (list quotaEntry) :=
  (mapped <- map_entries matches ;; Ok (filter_some mapped))%result.

(** [quotaEntries.find(e => e.resetTime)?.resetTime] *)
Fixpoint first_resetTime (l : list quotaEntry) : value :=
  match l with
  | [] => VUndefined
  | e :: rest =>
      if JS.truthy (qe_resetTime e) then qe_resetTime e
      else first_resetTime rest
  end.

Definition percent_of_fraction (f : number) : number :=
  Num.round (Num.mul f (Num.of_Z 100)).

(** One iteration of the loop over the group definitions: the group it
    pushes, if any. *)
Definition group_of (models : value) (groupDef : modelGroup)
  : result (option Antigravity.group) :=
  (matches <- group_matches models (mg_identifiers groupDef) ;;
   match matches with
   | [] => Ok None
   | _ =>
       entries <- quotaEntries_of matches ;;
       match entries with
       | [] => Ok None
       | quotaEntries =>
           let remainingFraction :=
             Num.min_list (map qe_remainingFraction quotaEntries) in
           let percent := percent_of_fraction remainingFraction in
           Ok (Some
                 {| Antigravity.name := mg_label groupDef;
                    Antigravity.percent := percent;
                    Antigravity.remaining := percent;
                    Antigravity.used := Num.sub (Num.of_Z 100) percent;
                    Antigravity.total := Num.of_Z 100;
                    Antigravity.resetTime := first_resetTime quotaEntries;
                    Antigravity.hideInTable := mg_hideInTable groupDef |})
       end
   end)%result.

Fixpoint groups_of (models : value) (defs : list modelGroup)
  : result (list Antigravity.group) :=
  match defs with
  | [] => Ok []
  | groupDef :: rest =>
      (g <- group_of models groupDef ;;
       gs <- groups_of models rest ;;
       Ok (match g with Some x => x :: gs | None => gs end))%result
  end.

Definition antigravityQuota_parse (data : value) : result Antigravity.data :=
  (raw <- JS.get data "models" ;;
   let models := JS.or raw (VObj []) in
   if negb (JS.is_object_type models) || JS.isArray models
   then Ok {| Antigravity.groups := [] |}
   else
     gs <- groups_of models modelGroups ;;
     Ok {| Antigravity.groups := gs |})%result.

(** ** Gemini CLI *)

(** The remaining fraction of a bucket: [None] where the source leaves
    null.  The amount is compared with 0 only when the fraction does not
    read as a number. *)
Definition bucket_fraction (bucket : value) : result (option number) :=
  let raw :=
    JS.or (JS.get_opt bucket "remainingFraction")
      (JS.get_opt bucket "remaining_fraction") in
  (parsed <- parse_fraction raw ;;
   if Num.isNaN parsed then
     let remainingAmount :=
       JS.or (JS.get_opt bucket "remainingAmount")
         (JS.get_opt bucket "remaining_amount") in
     if negb (JS.nullish remainingAmount) then
       amount <- to_number remainingAmount ;;
       Ok (if Num.le amount (Num.of_Z 0) then Some (Num.of_Z 0) else None)
     else
       let resetTime :=
         JS.or (JS.get_opt bucket "resetTime")
           (JS.get_opt bucket "reset_time") in
       Ok (if JS.truthy resetTime then Some (Num.of_Z 0) else None)
   else Ok (Some parsed))%result.

Definition strip_vertex (modelId : string) : string :=
  if Str.endsWith modelId "_vertex" then Str.drop_end 7 modelId else modelId.

(** One iteration of the loop over the raw buckets: the bucket it pushes,
    if any. *)
Definition bucket_of (bucket : value) : result (option GeminiCli.bucket) :=
  (first <- JS.get bucket "modelId" ;;
   let modelId := JS.or first (JS.get_opt bucket "model_id") in
   if negb (JS.truthy modelId) then Ok None
   else
     match modelId with
     | VStr id =>
         fraction <- bucket_fraction bucket ;;
         match fraction with
         | None => Ok None
         | Some remainingFraction =>
             let percent := percent_of_fraction (clamp01 remainingFraction) in
             Ok (Some
                   {| GeminiCli.modelId := strip_vertex id;
                      GeminiCli.percent := percent;
                      GeminiCli.remaining := percent;
                      GeminiCli.used := Num.sub (Num.of_Z 100) percent;
                      GeminiCli.total := Num.of_Z 100;
                      GeminiCli.resetTime :=
                        JS.or (JS.get_opt bucket "resetTime")
                          (JS.get_opt bucket "reset_time") |})
         end
     | _ => Throw (TypeErr "modelId.endsWith is not a function")
     end)%result.

Fixpoint buckets_of (rawBuckets : list value)
  : result (list GeminiCli.bucket) :=
  match rawBuckets with
  | [] => Ok []
  | bucket :: rest =>
      (b <- bucket_of bucket ;;
       bs <- buckets_of rest ;;
       Ok (match b with Some x => x :: bs | None => bs end))%result
  end.

Definition geminiCliQuota_parse (data : value) : result GeminiCli.data :=
  (raw <- JS.get data "buckets" ;;
   match JS.or raw (VArr []) with
   | VArr rawBuckets =>
       bs <- buckets_of rawBuckets ;;
       Ok {| GeminiCli.buckets := bs |}
   | _ => Ok {| GeminiCli.buckets := [] |}
   end)%result.

(** ** Codex *)

Definition FIVE_HOUR_SECONDS : number := Num.of_Z 18000.
Definition WEEK_SECONDS : number := Num.of_Z 604800.

(** getWindowSeconds: [None] where it returns null. *)
Definition getWindowSeconds (window : value) : result (option number) :=
  if negb (JS.truthy window) then Ok None
  else
    let raw :=
      JS.coalesce (JS.get_opt window "limit_window_seconds")
        (JS.get_opt window "limitWindowSeconds") in
    (num <- parseFloat raw ;;
     Ok (if Num.isFinite num then Some num else None))%result.

(** [seconds === c] for a [seconds] that is a number or null. *)
Definition seconds_is (seconds : option number) (c : number) : bool :=
  match seconds with
  | Some n => Num.eqb n c
  | None => false
  end.

Record windows : Type := {
  fiveHour : value;
  weekly : value;
  extra : list value
}.

(** The loop of classifyWindows over the raw windows, threading
    [fiveHour], [weekly] and [unmatched]. *)
Fixpoint classify_loop (rawWindows : list value)
  (fiveHour weekly : value) (unmatched : list value) : result windows :=
  match rawWindows with
  | [] => Ok {| fiveHour := fiveHour; weekly := weekly; extra := unmatched |}
  | window :: rest =>
      if negb (JS.truthy window)
      then classify_loop rest fiveHour weekly unmatched
      else
        (seconds <- getWindowSeconds window ;;
         if seconds_is seconds FIVE_HOUR_SECONDS && negb (JS.truthy fiveHour)
         then classify_loop rest window weekly unmatched
         else if seconds_is seconds WEEK_SECONDS && negb (JS.truthy weekly)
         then classify_loop rest fiveHour window unmatched
         else classify_loop rest fiveHour weekly (unmatched ++ [window])%list)
        %result
  end.

(** The positional fallback that follows the loop. *)
Definition positional_fallback (w : windows) : windows :=
  if negb (JS.truthy (fiveHour w)) && negb (JS.truthy (weekly w)) then
    match extra w with
    | [] => w
    | first :: rest =>
        match rest with
        | [] => {| fiveHour := first; weekly := weekly w; extra := [] |}
        | second :: rest' =>
            {| fiveHour := first; weekly := second; extra := rest' |}
        end
    end
  else w.

Definition window_of (limitInfo : value) (snake camel : string) : value :=
  JS.coalesce (JS.get_opt limitInfo snake)
    (JS.coalesce (JS.get_opt limitInfo camel) VNull).

Definition classifyWindows (limitInfo : value) : result windows :=
  if negb (JS.truthy limitInfo)
  then Ok {| fiveHour := VNull; weekly := VNull; extra := [] |}
  else
    let rawWindows :=
      [ window_of limitInfo "primary_window" "primaryWindow";
        window_of limitInfo "secondary_window" "secondaryWindow" ] in
    (ws <- classify_loop rawWindows VNull VNull [] ;;
     Ok (positional_fallback ws))%result.

Definition clamp100 (n : number) : number :=
  Num.max (Num.of_Z 0) (Num.min (Num.of_Z 100) n).

(** [usedPercent] of addWindow after both of its normalisation steps. *)
Definition usedPercent_of (window limitInfo : value)
  : result (option number) :=
  let rawUsedPercent :=
    JS.coalesce (JS.get_opt window "used_percent")
      (JS.get_opt window "usedPercent") in
  (parsed <-
     (if negb (JS.nullish rawUsedPercent) then parseFloat rawUsedPercent
      else Ok NaN) ;;
   let usedPercent :=
     if Num.isNaN parsed then
       let limitReached :=
         JS.coalesce (JS.get_opt limitInfo "limit_reached")
           (JS.get_opt limitInfo "limitReached") in
       let allowed := JS.get_opt limitInfo "allowed" in
       let not_allowed :=
         match allowed with VBool false => true | _ => false end in
       if JS.truthy limitReached || not_allowed
       then Some (Num.of_Z 100) else None
     else Some parsed in
   Ok match usedPercent with
      | Some u => if Num.isNaN u then None else Some (clamp100 u)
      | None => None
      end)%result.

(** [resetTime] of addWindow before the final test: [None] is null. *)
Definition resetTime_of (window : value) (now : number)
  : result (option number) :=
  let resetAt :=
    JS.coalesce (JS.get_opt window "reset_at") (JS.get_opt window "resetAt") in
  let resetAfterSeconds :=
    JS.coalesce (JS.get_opt window "reset_after_seconds")
      (JS.get_opt window "resetAfterSeconds") in
  if JS.truthy resetAt
  then (resetTime <- parseFloat resetAt ;; Ok (Some resetTime))%result
  else if JS.truthy resetAfterSeconds then
    (resetAfter <- parseFloat resetAfterSeconds ;;
     Ok (if negb (Num.isNaN resetAfter)
         then Some (Num.floor (Num.add (Num.div_pos now 1000) resetAfter))
         else None))%result
  else Ok None.

(** addWindow: the limit it pushes, if any; [now] is the clock it reads.
    The used percentage is read before the reset time. *)
Definition addWindow (window : value) (label : string) (limitInfo : value)
  (now : number) : result (option Codex.limit) :=
  if negb (JS.truthy window) then Ok None
  else
    (usedPercent <- usedPercent_of window limitInfo ;;
     let remaining :=
       match usedPercent with
       | Some u => Some (Num.max (Num.of_Z 0) (Num.sub (Num.of_Z 100) u))
       | None => None
       end in
     resetTime <- resetTime_of window now ;;
     Ok (Some {| Codex.model := label;
                 Codex.percent := remaining;
                 Codex.remaining := remaining;
                 Codex.used := usedPercent;
                 Codex.total := Num.of_Z 100;
                 Codex.resetTime :=
                   match resetTime with
                   | Some t => if Num.truthy t then Some t else None
                   | None => None
                   end |}))%result.

(** [limits.push] after an addWindow. *)
Definition push_window (limits : list Codex.limit)
  (window : value) (label : string) (limitInfo : value)
  : result (list Codex.limit) :=
  (pushed <- addWindow window label limitInfo (Date_now (List.length limits)) ;;
   Ok match pushed with
      | Some l => (limits ++ [l])%list
      | None => limits
      end)%result.

(** [extra.forEach((w, i) => addWindow(w, `${prefix} ${i + 1}`, limitInfo))]
    from index [i] on. *)
Fixpoint push_extra (limits : list Codex.limit) (extra : list value)
  (prefix : string) (i : nat) (limitInfo : value)
  : result (list Codex.limit) :=
  match extra with
  | [] => Ok limits
  | w :: rest =>
      let label :=
        prefix ++ " " ++ number_to_string (Num.of_Z (Z.of_nat i + 1)) in
      (limits' <- push_window limits w label limitInfo ;;
       push_extra limits' rest prefix (S i) limitInfo)%result
  end.

(** The three addWindow statements for one limit object, after its
    classifyWindows. *)
Definition push_limit (limits : list Codex.limit) (limitInfo : value)
  (five week prefix : string) : result (list Codex.limit) :=
  (ws <- classifyWindows limitInfo ;;
   l1 <- push_window limits (fiveHour ws) five limitInfo ;;
   l2 <- push_window l1 (weekly ws) week limitInfo ;;
   push_extra l2 (extra ws) prefix 0 limitInfo)%result.

Definition codexQuota_parse (data : value) (planTypeFromFile : option string)
  : result Codex.data :=
  (first <- JS.get data "plan_type" ;;
   let planTypeFromApi :=
     JS.or first (JS.or (JS.get_opt data "planType") VNull) in
   planType <-
     (if JS.truthy planTypeFromApi
      then text <- to_string planTypeFromApi ;;
           Ok (Str.toLowerCase (Str.trim text))
      else Ok match planTypeFromFile with
              | Some p => p
              | None => "unknown"
              end) ;;
   let rateLimit :=
     JS.or (JS.get_opt data "rate_limit") (JS.get_opt data "rateLimit") in
   let codeReviewLimit :=
     JS.or (JS.get_opt data "code_review_rate_limit")
       (JS.get_opt data "codeReviewRateLimit") in
   l1 <- push_limit [] rateLimit "5h" "Weekly" "Window" ;;
   l2 <- push_limit l1 codeReviewLimit "Review 5h" "Review Weekly" "Review" ;;
   let campaignId :=
     JS.or (JS.get_opt (JS.get_opt data "promo") "campaign_id") VNull in
   Ok {| Codex.planType := planType;
         Codex.limits := l2;
         Codex.campaignId := campaignId |})%result.

(** ** The fetch functions and the dispatch facade *)

(** [sc >= 200 && sc < 300] and [sc < 200 || sc >= 300]; the comparison
    converts its left operand to a number. *)
Definition is_2xx (sc : value) : result bool :=
  (n <- to_number sc ;;
   Ok (Num.ge n (Num.of_Z 200) && Num.lt n (Num.of_Z 300)))%result.

Definition not_2xx (sc : value) : result bool :=
  (n <- to_number sc ;;
   Ok (Num.lt n (Num.of_Z 200) || Num.ge n (Num.of_Z 300)))%result.

(** [file.authIndex || file.auth_index] *)
Definition authIndex_of (file : value) : result value :=
  (first <- JS.get file "authIndex" ;;
   Ok (JS.or first (JS.get_opt file "auth_index")))%result.

Definition antigravity_URLS : list string :=
  [ "https://daily-cloudcode-pa.googleapis.com/v1internal:fetchAvailableModels";
    "https://daily-cloudcode-pa.sandbox.googleapis.com/v1internal:fetchAvailableModels";
    "https://cloudcode-pa.googleapis.com/v1internal:fetchAvailableModels" ].

Definition antigravity_header : list (string * string) :=
  [ ("Authorization", "Bearer $TOKEN$");
    ("Content-Type", "application/json");
    ("User-Agent", "antigravity/1.11.5 windows/amd64") ].

(** [error instanceof Error ? error : new Error(String(error))] *)
Definition as_error (e : exn) : result exn :=
  match e with
  | Thrown v => (text <- to_string v ;; Ok (Err text None))%result
  | other => Ok other
  end.

(** The statements of the try block after the call has answered [r]:
    [inl] is a return out of the function, [inr] the new [lastError]. *)
Definition attempt_body (r : ApiCallResponse)
  : result (Antigravity.data + exn) :=
  (inside <- is_2xx (statusCode r) ;;
   if inside && JS.truthy (body r) then
     d <- antigravityQuota_parse (body r) ;;
     Ok (inl d)
   else
     outside <- not_2xx (statusCode r) ;;
     if outside then
       e <- createNon2xxError r ;;
       Ok (inr e)
     else
       message <-
         (if JS.truthy (bodyText r) then to_string (bodyText r)
          else text <- to_string (statusCode r) ;; Ok ("HTTP " ++ text)) ;;
       Ok (inr (Err message None)))%result.

(** How one iteration of the loop over the URLs ends: with a return out
    of the function, with a new [lastError], or with an exception that
    leaves the catch clause. *)
Inductive outcome : Type :=
| Returned (d : Antigravity.data)
| Failed (lastError : exn)
| Escaped (e : exn).

(** One iteration: the try block and its catch clause.  An exception of
    the request, of a comparison, of the parse or of the construction of
    an error is caught alike. *)
Definition antigravity_attempt (req : ApiCallRequest)
  : list event -> outcome * list event :=
  fun log =>
    let (answer, log') := apiCallApi_request req log in
    (match (r <- answer ;; attempt_body r)%result with
     | Ok (inl d) => Returned d
     | Ok (inr e) => Failed e
     | Throw error =>
         match as_error error with
         | Ok e => Failed e
         | Throw e => Escaped e
         end
     end, log').

Fixpoint antigravity_loop (mk : string -> ApiCallRequest)
  (urls : list string) (lastError : option exn) : M Antigravity.data :=
  match urls with
  | [] =>
      throw (match lastError with
             | Some e => e
             | None => Err "Failed to fetch Antigravity quota" None
             end)
  | url :: rest =>
      fun log =>
        match antigravity_attempt (mk url) log with
        | (Returned d, log') => (Ok d, log')
        | (Failed e, log') => antigravity_loop mk rest (Some e) log'
        | (Escaped e, log') => (Throw e, log')
        end
  end.

Definition antigravity_request (authIndex : value) (requestBody url : string)
  : ApiCallRequest :=
  {| req_authIndex := authIndex;
     req_method := "POST";
     req_url := url;
     req_header := antigravity_header;
     req_data := Some requestBody |}.

Definition antigravityQuota_fetch (file : value) : M Antigravity.data :=
  (authIndex <- lift (authIndex_of file) ;;
   projectId <- resolveAntigravityProjectId (JS.get_opt file "name") ;;
   let requestBody := JSON_stringify (VObj [("project", VStr projectId)]) in
   antigravity_loop (antigravity_request authIndex requestBody)
     antigravity_URLS None)%async.

Definition geminiCli_URL : string :=
  "https://cloudcode-pa.googleapis.com/v1internal:retrieveUserQuota".

(** The object that geminiCliQuota.fetch passes to JSON.stringify:
    [projectId ? { project: projectId } : {}]. *)
Definition geminiCli_body (projectId : option string) : value :=
  match projectId with
  | Some p => if Str.is_empty p then VObj [] else VObj [("project", VStr p)]
  | None => VObj []
  end.

Definition geminiCli_request (authIndex : value) (projectId : option string)
  : ApiCallRequest :=
  {| req_authIndex := authIndex;
     req_method := "POST";
     req_url := geminiCli_URL;
     req_header :=
       [ ("Authorization", "Bearer $TOKEN$");
         ("Content-Type", "application/json") ];
     req_data := Some (JSON_stringify (geminiCli_body projectId)) |}.

Definition geminiCliQuota_fetch (file : value) : M GeminiCli.data :=
  (authIndex <- lift (authIndex_of file) ;;
   projectId <- resolveGeminiCliProjectId (JS.get_opt file "name") ;;
   r <- apiCallApi_request (geminiCli_request authIndex projectId) ;;
   outside <- lift (not_2xx (statusCode r)) ;;
   if outside then e <- lift (createNon2xxError r) ;; throw e
   else lift (geminiCliQuota_parse (body r)))%async.

Definition codex_URL : string := "https://chatgpt.com/backend-api/wham/usage".

Definition codex_request (authIndex : value) (accountId : string)
  : ApiCallRequest :=
  {| req_authIndex := authIndex;
     req_method := "GET";
     req_url := codex_URL;
     req_header :=
       [ ("Authorization", "Bearer $TOKEN$");
         ("User-Agent",
          "codex_cli_rs/0.76.0 (Debian 13.0.0; x86_64) WindowsTerminal");
         ("Chatgpt-Account-Id", accountId) ];
     req_data := None |}.

Definition codexQuota_fetch (file : value) : M Codex.data :=
  (authIndex <- lift (authIndex_of file) ;;
   found <- resolveCodexAccountId file ;;
   match found with
   | None => throw (Err "Missing chatgpt_account_id in id_token" None)
   | Some accountId =>
       planTypeFromFile <- lift (resolveCodexPlanTypeFromFile file) ;;
       r <- apiCallApi_request (codex_request authIndex accountId) ;;
       outside <- lift (not_2xx (statusCode r)) ;;
       if outside then e <- lift (createNon2xxError r) ;; throw e
       else lift (codexQuota_parse (body r) planTypeFromFile)
   end)%async.

(** [(file.type || '').toLowerCase()]; a truthy type that is not a string
    has no such method. *)
Definition type_of_file (file : value) : result string :=
  (raw <- JS.get file "type" ;;
   match JS.or raw (VStr "") with
   | VStr s => Ok (Str.toLowerCase s)
   | _ => Throw (TypeErr "toLowerCase is not a function")
   end)%result.

Definition fetchQuotaByType (file : value) : M QuotaResult :=
  (type <- lift (type_of_file file) ;;
   authIndex <- lift (authIndex_of file) ;;
   if negb (JS.truthy authIndex) then throw (Err "Missing authIndex" None)
   else if String.eqb type "antigravity" then
     d <- antigravityQuota_fetch file ;;
     ret {| type := "antigravity"; data := AntigravityData d |}
   else if String.eqb type "gemini-cli" then
     d <- geminiCliQuota_fetch file ;;
     ret {| type := "gemini-cli"; data := GeminiCliData d |}
   else if String.eqb type "codex" then
     d <- codexQuota_fetch file ;;
     ret {| type := "codex"; data := CodexData d |}
   else throw (Err ("Unsupported type: " ++ type) None))%async.

End Quota.

(** * Vocabulary of the properties *)


(** The same as a statement about the rational. *)
Definition within (lo hi : Z) (n : number) : Prop :=
  exists q, n = Fin q /\ (inject_Z lo <= q)%Q /\ (q <= inject_Z hi)%Q.


Inductive provider : Type := FromAntigravity | FromGeminiCli | FromCodex.




(** ** Codex windows *)

Definition primary_of (limitInfo : value) : value :=
  window_of limitInfo "primary_window" "primaryWindow".

Definition secondary_of (limitInfo : value) : value :=
  window_of limitInfo "secondary_window" "secondaryWindow".

(** A window is present and reports exactly this many seconds. *)
Definition has_seconds (c : number) (window : value) : bool :=
  JS.truthy window &&
  match getWindowSeconds window with
  | Ok seconds => seconds_is seconds c
  | Throw _ => false
  end.

Definition is_five_hour : value -> bool := has_seconds FIVE_HOUR_SECONDS.
Definition is_weekly : value -> bool := has_seconds WEEK_SECONDS.

(** A window is present, its seconds can be read and are neither
    duration (or are not a finite number at all). *)
Definition is_unmatched (window : value) : bool :=
  JS.truthy window &&
  match getWindowSeconds window with
  | Ok seconds =>
      negb (seconds_is seconds FIVE_HOUR_SECONDS) &&
      negb (seconds_is seconds WEEK_SECONDS)
  | Throw _ => false
  end.

(** The two limit objects of a Codex answer. *)
Definition rateLimit_of (data : value) : value :=
  JS.or (JS.get_opt data "rate_limit") (JS.get_opt data "rateLimit").

Definition codeReviewLimit_of (data : value) : value :=
  JS.or (JS.get_opt data "code_review_rate_limit")
    (JS.get_opt data "codeReviewRateLimit").

Definition labels (limits : list Codex.limit) : list string :=
  map Codex.model limits.

(** The label of the [i]-th extra window. *)
Definition positional_label (prefix : string) (i : nat) : string :=
  prefix ++ " " ++ NilZero.string_of_int (Z.to_int (Z.of_nat i + 1)).

(** ** Worked inputs *)

Module Example.

(** Number::toString on a positive binary64 value: the digits [s], their
    number [k] and the exponent [n] are such that [s * 10^(n-k)] reads
    back as the value with [k] as small as possible, and they are laid
    out as a plain decimal when [-6 < n <= 21] and with an exponent
    otherwise. *)
Definition pow10 (k : Z) : Q := Qpower 10 k.

(** The [n] with [10^(n-1) <= q < 10^n], from an estimate. *)
Fixpoint adjust (fuel : nat) (q : Q) (n : Z) : Z :=
  match fuel with
  | O => n
  | S f =>
      if Qle_bool (pow10 n) q then adjust f q (n + 1)
      else if Qle_bool (pow10 (n - 1)) q then n
      else adjust f q (n - 1)
  end.

Definition magnitude (q : Q) : Z :=
  adjust 8 q (Num.ilog2 q * 30103 / 100000 + 1).

Definition reads_back (q : Q) (s e : Z) : bool :=
  Num.eqb (Num.round64 (inject_Z s * pow10 e)) (Fin q).

Definition Qabs_diff (a b : Q) : Q :=
  if Qle_bool a b then b - a else a - b.

(** The shortest digits from [k] digits on: [(s, k, n)]. *)
Fixpoint shortest (fuel : nat) (q : Q) (n k : Z) : Z * Z * Z :=
  match fuel with
  | O => (0, k, n)
  | S f =>
      let e := n - k in
      let lo := Qfloor (q / pow10 e) in
      let hi := lo + 1 in
      let ok_lo := reads_back q lo e in
      let ok_hi := reads_back q hi e in
      let up := if hi =? 10 ^ k then (10 ^ (k - 1), k, n + 1) else (hi, k, n) in
      if ok_lo && ok_hi then
        let dl := Qabs_diff (inject_Z lo * pow10 e) q in
        let dh := Qabs_diff (inject_Z hi * pow10 e) q in
        match Qcompare dl dh with
        | Lt => (lo, k, n)
        | Gt => up
        | Eq => if Z.even lo then (lo, k, n) else up
        end
      else if ok_lo then (lo, k, n)
      else if ok_hi then up
      else shortest f q n (k + 1)
  end%Z.

Definition digits_of (z : Z) : string := NilZero.string_of_int (Z.to_int z).

Definition exponent_part (n : Z) : string :=
  ("e" ++ (if 0 <=? n - 1 then "+" else "-") ++ digits_of (Z.abs (n - 1)))%Z.

Definition layout (s k n : Z) : string :=
  let d := digits_of s in
  if ((k <=? n) && (n <=? 21))%Z
  then d ++ Str.repeat_char "0" (Z.to_nat (n - k))
  else if ((0 <? n) && (n <=? 21))%Z
  then substring 0 (Z.to_nat n) d ++ "." ++
       substring (Z.to_nat n) (Z.to_nat (k - n)) d
  else if ((-6 <? n) && (n <=? 0))%Z
  then "0." ++ Str.repeat_char "0" (Z.to_nat (- n)) ++ d
  else if (k =? 1)%Z then d ++ exponent_part n
  else substring 0 1 d ++ "." ++ substring 1 (Z.to_nat (k - 1)) d ++
       exponent_part n.

Definition fraction_to_string (q : Q) : string :=
  match Qcompare q 0 with
  | Eq => "0"
  | Gt =>
      let '(s, k, n) := shortest 17 q (magnitude q) 1 in layout s k n
  | Lt =>
      let '(s, k, n) := shortest 17 (- q) (magnitude (- q)) 1 in
      "-" ++ layout s k n
  end.

Definition show : number -> string := number_to_string fraction_to_string.

Definition JSON_stringify : value -> string := Json.stringify show.

(** A clock that stands still. *)
Definition Date_now (k : nat) : number := Num.of_Z 1700000000000.

Definition num (z : Z) : value := VNum (Num.of_Z z).

(** The number that a decimal literal denotes. *)
Definition decimal (literal : string) : value :=
  VNum (parseFloat_string literal).

Definition window_with (seconds used : value) : value :=
  VObj [ ("limit_window_seconds", seconds); ("used_percent", used) ].

Definition window (seconds used : Z) : value :=
  window_with (num seconds) (num used).

Definition rate_limit_of (primary secondary : value) : value :=
  VObj [ ("primary_window", primary); ("secondary_window", secondary) ].

Definition usage (primary secondary : value) : value :=
  VObj [ ("rate_limit", rate_limit_of primary secondary) ].

Definition parse_codex (data : value) : result Codex.data :=
  codexQuota_parse fraction_to_string Date_now data None.

(** An object that has an own property [toString], as the JSON text
    [{"toString":1}] gives one. *)
Definition opaque : value := VObj [ ("toString", num 1) ].

End Example.

(** A Codex answer whose five-hour window reports a used percentage of
    0.1, and the limit that the parse makes of it. *)
Module ExampleRounding.

Definition tenth : number := Eval vm_compute in parseFloat_string "0.1".

Definition answer : value :=
  Example.usage (Example.window_with (Example.num 18000) (VNum tenth)) VNull.

Definition limit : Codex.limit :=
  Eval vm_compute in
    match Example.parse_codex answer with
    | Ok d =>
        hd {| Codex.model := ""; Codex.percent := None;
              Codex.remaining := None; Codex.used := None;
              Codex.total := NaN; Codex.resetTime := None |}
           (Codex.limits d)
    | Throw _ =>
        {| Codex.model := ""; Codex.percent := None;
           Codex.remaining := None; Codex.used := None;
           Codex.total := NaN; Codex.resetTime := None |}
    end.

End ExampleRounding.

(** classifyWindows on a limit object that is present, as a function of
    its two raw windows. *)
Definition classify_pair (primary secondary : value) : result windows :=
  (ws <- classify_loop [primary; secondary] VNull VNull [] ;;
   Ok (positional_fallback ws))%result.

(** The labels of the limits of a Codex answer (none when the parse
    throws). *)
Definition labels_of (r : result Codex.data) : list string :=
  match r with
  | Ok d => labels (Codex.limits d)
  | Throw _ => []
  end.

(** ** Antigravity groups *)

(** The remaining fractions that the code keeps of the matched models of
    a group, in the order of the matches. *)
Definition fractions_of (entries : list quotaEntry) : list number :=
  map qe_remainingFraction entries.

(** [m] is the least element of [l]. *)
Definition is_minimum (m : number) (l : list number) : Prop :=
  In m l /\ forall f, In f l -> Num.le m f = true.

(** The [models] that antigravityQuota.parse works on. *)
Definition models_of (data : value) : value :=
  JS.or (JS.get_opt data "models") (VObj []).

(** The remaining fraction that a matched model carries, as the claim
    reads it: the fraction field that is present (remainingFraction,
    remaining_fraction or remaining), a percentage string as its
    hundredth and anything else as its number, clamped to [0,1]; [None]
    when no field is present or it is not a number. *)
Definition fraction_field (entry : value) : value :=
  let quotaInfo :=
    JS.or (JS.get_opt entry "quotaInfo")
      (JS.or (JS.get_opt entry "quota_info") (VObj [])) in
  JS.coalesce (JS.get_opt quotaInfo "remainingFraction")
    (JS.coalesce (JS.get_opt quotaInfo "remaining_fraction")
       (JS.get_opt quotaInfo "remaining")).

Definition carried_fraction (entry : value) : option number :=
  match parse_fraction (fraction_field entry) with
  | Ok f => if Num.isNaN f then None else Some (clamp01 f)
  | Throw _ => None
  end.

(** The percent that the claim gives a group with these matched models:
    the least carried fraction, times 100 and rounded. *)
Definition claimed_percent (entries : list value) : option number :=
  match filter_some (map carried_fraction entries) with
  | [] => None
  | fractions => Some (Num.round (Num.mul (Num.min_list fractions) (Num.of_Z 100)))
  end.

Module ExampleAntigravity.

Definition model_with (field : string) (fraction : value) : value :=
  VObj [ ("quotaInfo", VObj [ (field, fraction) ]) ].

Definition model (fraction : value) : value :=
  model_with "remainingFraction" fraction.

(** Two models of the group "Gemini 3 Pro" at 0.9 and 0.2, and one of the
    group "Gemini 2.5 Flash" at "30%". *)
Definition answer : value :=
  VObj [ ("models",
          VObj [ ("gemini-3-pro-high", model (Example.decimal "0.9"));
                 ("gemini-3-pro-low", model (Example.decimal "0.2"));
                 ("gemini-2.5-flash", model (VStr "30%")) ]) ].

Definition percents (r : result Antigravity.data) : list (string * number) :=
  match r with
  | Ok d =>
      map (fun g => (Antigravity.name g, Antigravity.percent g))
        (Antigravity.groups d)
  | Throw _ => []
  end.

(** The two models of the group "Gemini 3 Pro", the first with this
    fraction under this field name and the second at 0.9. *)
Definition pro_high (field : string) (fraction : value) : value :=
  model_with field fraction.

Definition pro_low : value := model (Example.decimal "0.9").

Definition pro_models (field : string) (fraction : value) : value :=
  VObj [ ("models",
          VObj [ ("gemini-3-pro-high", pro_high field fraction);
                 ("gemini-3-pro-low", pro_low) ]) ].

Definition parsed (field : string) (fraction : value)
  : list (string * number) :=
  percents (antigravityQuota_parse (pro_models field fraction)).

End ExampleAntigravity.

(** ** The Antigravity URL loop *)

Section FetchVocabulary.

Variable fraction_to_string : Q -> string.
Variable JSON_parse : string -> option value.
Variable JSON_stringify : value -> string.
Variable request_post : list event -> ApiCallRequest -> result value.

(** Every attempt on [urls] fails, starting with [lastError] and [log]:
    the [lastError] and the log after the last of them. *)
Fixpoint failed_attempts (mk : string -> ApiCallRequest) (urls : list string)
  (lastError : option exn) (log : list event)
  : option (option exn * list event) :=
  match urls with
  | [] => Some (lastError, log)
  | url :: rest =>
      match antigravity_attempt fraction_to_string JSON_parse JSON_stringify
              request_post (mk url) log with
      | (Failed e, log') => failed_attempts mk rest (Some e) log'
      | (_, _) => None
      end
  end.

End FetchVocabulary.

(** The requests made for [urls], in order. *)
Definition requests_for (mk : string -> ApiCallRequest) (urls : list string)
  : list event :=
  map (fun url => EvRequest (mk url)) urls.

Module ExampleFetch.

Definition url1 : string :=
  "https://daily-cloudcode-pa.googleapis.com/v1internal:fetchAvailableModels".
Definition url2 : string :=
  "https://daily-cloudcode-pa.sandbox.googleapis.com/v1internal:fetchAvailableModels".
Definition url3 : string :=
  "https://cloudcode-pa.googleapis.com/v1internal:fetchAvailableModels".

(** What the management API answers for an upstream answer with this
    status and this JSON body, and what apiCallApi.request makes of it. *)
Definition response (status : Z) (b : value) : value :=
  VObj [ ("status_code", Example.num status);
         ("header", VObj []);
         ("body", VStr (Example.JSON_stringify b)) ].

Definition normalised (status : Z) (b : value) : ApiCallResponse :=
  {| statusCode := Example.num status;
     header := VObj [];
     bodyText := VStr (Example.JSON_stringify b);
     body := b |}.

(** A model entry whose display name is a number. *)
Definition odd_models : value :=
  VObj [ ("models", VObj [ ("m", VObj [ ("displayName", Example.num 7) ]) ]) ].

Definition server_error : value :=
  VObj [ ("error", VObj [ ("message", VStr "backend unavailable") ]) ].

(** The credential file cannot be downloaded: the default project is
    used. *)
Definition no_download (log : list event) (fileName : value) : result string :=
  Throw (Err "not found" None).

(** The first URL answers 200 with [odd_models], the second 200 with the
    worked answer, the third is unreachable. *)
Definition odd_then_good (log : list event) (req : ApiCallRequest)
  : result value :=
  if String.eqb (req_url req) url1 then Ok (response 200 odd_models)
  else if String.eqb (req_url req) url2
  then Ok (response 200 ExampleAntigravity.answer)
  else Throw (Err "Network Error" None).

(** The first URL answers 200 with the body text 0, the second 200 with
    the worked answer. *)
Definition zero_then_good (log : list event) (req : ApiCallRequest)
  : result value :=
  if String.eqb (req_url req) url1 then Ok (response 200 (Example.num 0))
  else Ok (response 200 ExampleAntigravity.answer).

(** The first two URLs answer 500, the third 200 with the worked answer. *)
Definition third_succeeds (log : list event) (req : ApiCallRequest)
  : result value :=
  if String.eqb (req_url req) url3
  then Ok (response 200 ExampleAntigravity.answer)
  else Ok (response 500 server_error).

Definition file : value :=
  VObj [ ("name", VStr "antigravity-user.json");
         ("type", VStr "antigravity");
         ("authIndex", VStr "a1b2") ].

Definition fetch (api : list event -> ApiCallRequest -> result value)
  : result Antigravity.data * list event :=
  run (antigravityQuota_fetch Example.fraction_to_string Json.parse
         Example.JSON_stringify no_download api file).

(** apiCallApi.request on the answers of [api]. *)
Definition call (api : list event -> ApiCallRequest -> result value)
  (req : ApiCallRequest) (log : list event)
  : result ApiCallResponse * list event :=
  apiCallApi_request Json.parse api req log.

(** The request that the fetch of [file] makes to [url]. *)
Definition request_to (url : string) : ApiCallRequest :=
  antigravity_request (VStr "a1b2")
    (Example.JSON_stringify
       (VObj [("project", VStr DEFAULT_ANTIGRAVITY_PROJECT_ID)])) url.

Definition requested_urls (log : list event) : list string :=
  filter_some
    (map (fun e => match e with
                   | EvRequest req => Some (req_url req)
                   | EvDownload _ => None
                   end) log).

End ExampleFetch.

Section AttemptVocabulary.

Variable fraction_to_string : Q -> string.
Variable JSON_parse : string -> option value.
Variable JSON_stringify : value -> string.
Variable request_post : list event -> ApiCallRequest -> result value.

(** What apiCallApi.request returns or throws for [req] after [log]. *)
Definition answer_of (log : list event) (req : ApiCallRequest)
  : result ApiCallResponse :=
  fst (apiCallApi_request JSON_parse request_post req log).

(** An attempt succeeds with [d]: the answer has a status in [200,300)
    and a parsed body that is truthy, and the parse of the body returns
    [d]. *)
Definition attempt_succeeds (log : list event) (req : ApiCallRequest)
  (d : Antigravity.data) : Prop :=
  exists r,
    answer_of log req = Ok r /\
    is_2xx (statusCode r) = Ok true /\
    JS.truthy (body r) = true /\
    antigravityQuota_parse (body r) = Ok d.

(** The text of the error for a status in [200,300) without a truthy
    body. *)
Definition falsy_body_message (r : ApiCallResponse) : result string :=
  if JS.truthy (bodyText r) then to_string fraction_to_string (bodyText r)
  else (text <- to_string fraction_to_string (statusCode r) ;;
        Ok ("HTTP " ++ text))%result.

(** The ways an attempt fails, with the error it leaves in [lastError]:
    a transport error; a status outside [200,300); a status that is
    neither outside nor inside with a truthy body; an exception of the
    parse; and a TypeError of one of the conversions on the way. *)
Inductive attempt_fails (log : list event) (req : ApiCallRequest)
  : exn -> Prop :=
| fails_transport (e e' : exn) :
    answer_of log req = Throw e ->
    as_error fraction_to_string e = Ok e' ->
    attempt_fails log req e'
| fails_non_2xx (r : ApiCallResponse) (e : exn) :
    answer_of log req = Ok r ->
    not_2xx (statusCode r) = Ok true ->
    createNon2xxError fraction_to_string JSON_stringify r = Ok e ->
    attempt_fails log req e
| fails_falsy_body (r : ApiCallResponse) (inside : bool) (message : string) :
    answer_of log req = Ok r ->
    not_2xx (statusCode r) = Ok false ->
    is_2xx (statusCode r) = Ok inside ->
    inside && JS.truthy (body r) = false ->
    falsy_body_message r = Ok message ->
    attempt_fails log req (Err message None)
| fails_parse (r : ApiCallResponse) (e : exn) :
    answer_of log req = Ok r ->
    is_2xx (statusCode r) = Ok true ->
    JS.truthy (body r) = true ->
    antigravityQuota_parse (body r) = Throw e ->
    attempt_fails log req e
| fails_status_conversion (r : ApiCallResponse) (e : exn) :
    answer_of log req = Ok r ->
    to_number (statusCode r) = Throw e ->
    attempt_fails log req e
| fails_error_conversion (r : ApiCallResponse) (e : exn) :
    answer_of log req = Ok r ->
    not_2xx (statusCode r) = Ok true ->
    createNon2xxError fraction_to_string JSON_stringify r = Throw e ->
    attempt_fails log req e
| fails_text_conversion (r : ApiCallResponse) (inside : bool) (e : exn) :
    answer_of log req = Ok r ->
    not_2xx (statusCode r) = Ok false ->
    is_2xx (statusCode r) = Ok inside ->
    inside && JS.truthy (body r) = false ->
    falsy_body_message r = Throw e ->
    attempt_fails log req e.

(** An attempt escapes with [e]: the call throws a value that is not an
    Error and that [String] cannot convert. *)
Definition attempt_escapes (log : list event) (req : ApiCallRequest)
  (e : exn) : Prop :=
  exists v,
    answer_of log req = Throw (Thrown v) /\
    to_string fraction_to_string v = Throw e.

End AttemptVocabulary.

(** The exception is a TypeError. *)
Definition is_TypeError (e : exn) : Prop := exists m, e = TypeErr m.

(** ** The dispatch facade *)

(** How the lower-casing of [file.type || ''] ends: with the type in
    lower case, or with a TypeError when the file is null or undefined
    or its type is truthy and not a string. *)
Definition type_is_text (file : value) : bool :=
  negb (JS.nullish file) &&
  (JS.is_string (JS.get_opt file "type") ||
   negb (JS.truthy (JS.get_opt file "type"))).

(** The provider discriminator in lower case ([""] when absent). *)
Definition descriptor_type (file : value) : string :=
  match JS.get_opt file "type" with
  | VStr s => Str.toLowerCase s
  | _ => ""
  end.

(** The handle is absent: the file has neither property. *)
Definition handle_absent (file : value) : bool :=
  match JS.get_opt file "authIndex", JS.get_opt file "auth_index" with
  | VUndefined, VUndefined => true
  | _, _ => false
  end.

(** The identifier handle of a file. *)
Definition handle_of (file : value) : value :=
  JS.or (JS.get_opt file "authIndex") (JS.get_opt file "auth_index").

(** The [QuotaResult] built around what a resolver returns or throws. *)
Definition wrap {A} (name : string) (inj : A -> QuotaData)
  (r : result A * list event) : result QuotaResult * list event :=
  match r with
  | (Ok d, log) => (Ok {| type := name; data := inj d |}, log)
  | (Throw e, log) => (Throw e, log)
  end.

Definition contains (sub s : string) : Prop :=
  exists before after, s = before ++ sub ++ after.

Module ExampleDispatch.

Definition codex_without_handle : value := VObj [ ("type", VStr "codex") ].

Definition unknown_type : value :=
  VObj [ ("type", VStr "unknown-type"); ("authIndex", VStr "x") ].

(** A file whose type is a number, without a handle and with one. *)
Definition numeric_type : value := VObj [ ("type", Example.num 7) ].

Definition numeric_type_with_handle : value :=
  VObj [ ("type", Example.num 7); ("authIndex", VStr "x") ].

(** A Codex file whose handle is the number 0. *)
Definition zero_handle : value :=
  VObj [ ("type", VStr "codex"); ("auth_index", Example.num 0) ].

Definition no_request (log : list event) (req : ApiCallRequest)
  : result value :=
  Throw (Err "Network Error" None).

Definition dispatch (file : value) : result QuotaResult * list event :=
  run (fetchQuotaByType Example.fraction_to_string Json.parse
         Example.JSON_stringify Example.Date_now ExampleFetch.no_download
         no_request file).

End ExampleDispatch.

(** ** Parenthesised groups of an account string *)

Fixpoint all_chars (p : ascii -> bool) (s : string) : bool :=
  match s with
  | EmptyString => true
  | String c r => p c && all_chars p r
  end.

Definition paren_free (g : string) : bool :=
  all_chars (fun c => negb (is_paren c)) g.

(** [s] starts with a group: an opening parenthesis, the non-empty text
    [g] without parentheses, and a closing parenthesis. *)
Definition group_here (s g : string) : Prop :=
  exists after,
    s = String "(" (g ++ String ")" after) /\ g <> "" /\ paren_free g = true.

(** [g] is the text of the first group of [s]: of the group that starts
    at the leftmost position where one starts. *)
Inductive first_group : string -> string -> Prop :=
| first_group_here (s g : string) :
    group_here s g -> first_group s g
| first_group_later (c : ascii) (r g : string) :
    (forall g', ~ group_here (String c r) g') ->
    first_group r g -> first_group (String c r) g.

(** [s] has a group somewhere. *)
Inductive has_group : string -> Prop :=
| has_group_here (s g : string) : group_here s g -> has_group s
| has_group_later (c : ascii) (r : string) :
    has_group r -> has_group (String c r).

Module ExampleGemini.

(** An account with two groups. *)
Definition account : string := "dev@example.com (first-project) (second-project)".

Definition credential : value := VObj [ ("account", VStr account) ].

Definition stored (log : list event) (fileName : value) : result string :=
  Ok (Example.JSON_stringify credential).

Definition resolve : result (option string) * list event :=
  run (resolveGeminiCliProjectId Json.parse stored (VStr "gemini-dev.json")).

End ExampleGemini.

(** ** JSON Web Tokens *)

Definition no_dot (s : string) : bool :=
  all_chars (fun c => negb (Ascii.eqb c ".")) s.

(** What may follow the payload segment: nothing, or a dot and the rest
    of the token. *)
Definition is_tail (tail : string) : Prop :=
  tail = "" \/ exists signature, tail = String "." signature.

(** The URL-safe Base64 alphabet (RFC 4648, section 5): the letters, the
    digits, the hyphen for 62 and the underscore for 63. *)
Definition base64url_char (v : nat) : ascii :=
  if (v <? 26)%nat then ascii_of_nat (65 + v)
  else if (v <? 52)%nat then ascii_of_nat (71 + v)
  else if (v <? 62)%nat then ascii_of_nat (v - 4)
  else if (v =? 62)%nat then "-"%char
  else "_"%char.

(** The Base64url encoding of a byte string, without padding, as the
    segments of a JSON Web Token are written (RFC 7515, section 2): three
    bytes give four characters, a last group of two bytes gives three and
    a last single byte gives two. *)
Fixpoint base64url_encode (bytes : string) : string :=
  match bytes with
  | String x (String y (String z rest)) =>
      let a := Str.code x in
      let b := Str.code y in
      let c := Str.code z in
      String (base64url_char (a / 4))
        (String (base64url_char ((a mod 4) * 16 + b / 16))
           (String (base64url_char ((b mod 16) * 4 + c / 64))
              (String (base64url_char (c mod 64)) (base64url_encode rest))))
  | String x (String y EmptyString) =>
      let a := Str.code x in
      let b := Str.code y in
      String (base64url_char (a / 4))
        (String (base64url_char ((a mod 4) * 16 + b / 16))
           (String (base64url_char ((b mod 16) * 4)) EmptyString))
  | String x EmptyString =>
      let a := Str.code x in
      String (base64url_char (a / 4))
        (String (base64url_char ((a mod 4) * 16)) EmptyString)
  | EmptyString => EmptyString
  end.

(** A character of the URL-safe alphabet as the standard alphabet has
    it, and a payload with its characters so replaced. *)
Definition standard_char (c : ascii) : ascii :=
  let d := if Ascii.eqb c "-" then "+"%char else c in
  if Ascii.eqb d "_" then "/"%char else d.

Definition standard_alphabet (payload : string) : string :=
  Str.replace_char "_" "/" (Str.replace_char "-" "+" payload).

(** A character of the standard alphabet. *)
Definition alphabet_char (c : ascii) : bool :=
  match Base64.sextet c with Some _ => true | None => false end.

(** A character that no spelling of Base64 uses: it is in neither
    alphabet, is not the padding character and is not ASCII white
    space. *)
Definition foreign_char (c : ascii) : bool :=
  let n := Str.code c in
  negb (((65 <=? n) && (n <=? 90)) || ((97 <=? n) && (n <=? 122))
        || ((48 <=? n) && (n <=? 57))
        || (n =? 43) || (n =? 47) || (n =? 45) || (n =? 95)
        || (n =? 61) || Base64.is_ascii_space c)%nat.

Fixpoint has_char (p : ascii -> bool) (s : string) : bool :=
  match s with
  | EmptyString => false
  | String c r => p c || has_char p r
  end.

(** Every value below 64 has a character, which the standard alphabet
    reads back; the character is neither white space, nor the padding
    character, nor a dot. *)
Definition alphabet_row (v : nat) : bool :=
  let c := base64url_char v in
  match Base64.sextet (standard_char c) with
  | Some w => (w =? v)%nat
  | None => false
  end
  && negb (Base64.is_ascii_space (standard_char c))
  && negb (Ascii.eqb (standard_char c) "=")
  && negb (Ascii.eqb c ".").

(** A character that stays in a Base64 text up to the decoding of the
    sextets: it is neither white space nor the padding character. *)
Definition kept_char (c : ascii) : bool :=
  negb (Base64.is_ascii_space c) && negb (Ascii.eqb c "=").

(** The sextets that the Base64url encoding of a byte string spells. *)
Fixpoint encoded_sextets (bytes : string) : list nat :=
  match bytes with
  | String x (String y (String z rest)) =>
      let a := Str.code x in
      let b := Str.code y in
      let c := Str.code z in
      (a / 4 :: (a mod 4) * 16 + b / 16 :: (b mod 16) * 4 + c / 64
         :: c mod 64 :: encoded_sextets rest)%nat
  | String x (String y EmptyString) =>
      let a := Str.code x in
      let b := Str.code y in
      [a / 4; (a mod 4) * 16 + b / 16; (b mod 16) * 4]%nat
  | String x EmptyString =>
      let a := Str.code x in
      [a / 4; (a mod 4) * 16]%nat
  | EmptyString => []
  end.

Fixpoint spell (l : list nat) : string :=
  match l with
  | [] => EmptyString
  | v :: rest => String (standard_char (base64url_char v)) (spell rest)
  end.

Module ExampleJwt.

(** The JSON text of an object whose only member is
    chatgpt_account_id = acct_123, and its URL-safe Base64. *)
Definition claims : value := VObj [ ("chatgpt_account_id", VStr "acct_123") ].

Definition payload : string := "eyJjaGF0Z3B0X2FjY291bnRfaWQiOiJhY2N0XzEyMyJ9".

Definition token : string := "header." ++ payload ++ ".sig".

(** The JSON text of an object with a second member; its encoding has
    characters of the URL-safe alphabet only and a length that is not a
    multiple of four. *)
Definition wide_text : string :=
  "{" ++ String Json.quote "sub" ++ String Json.quote ":" ++
  String Json.quote ">>??" ++ String Json.quote "," ++
  String Json.quote "chatgpt_account_id" ++ String Json.quote ":" ++
  String Json.quote "acct_123" ++ String Json.quote "}".

Definition wide_payload : string :=
  Eval vm_compute in base64url_encode wide_text.

Definition wide_token : string := "header." ++ wide_payload ++ ".sig".

End ExampleJwt.

(** ** Errors of answers outside [200,300) *)

(** The [statusCode] property and the message of an error object. *)
Definition statusCode_of (e : exn) : option number :=
  match e with
  | Err _ sc => sc
  | _ => None
  end.

Definition message_of (e : exn) : string :=
  match e with
  | Err m _ => m
  | TypeErr m => m
  | Thrown _ => ""
  end.

(** The textual code and message of [body.error]: each is there when it
    is a string that is not blank, and is taken trimmed. *)
Definition error_parts (b : value) : option string * option string :=
  match errorObj_of b with
  | Some e =>
      (normalizeText (JS.get_opt e "code"),
       normalizeText (JS.get_opt e "message"))
  | None => (None, None)
  end.

Module ExampleError.

Definition quota_exceeded : value :=
  VObj [ ("error",
          VObj [ ("code", Example.num 429);
                 ("message", VStr "Quota exceeded");
                 ("status", VStr "RESOURCE_EXHAUSTED") ]) ].

Definition rate_limited : value :=
  VObj [ ("error",
          VObj [ ("code", VStr "rate_limit_exceeded");
                 ("message", VStr " Slow down ") ]) ].

Definition bare_error : value := VObj [ ("error", VObj []) ].

(** A body whose status is an object with an own toString property. *)
Definition opaque_status : value := VObj [ ("status", Example.opaque) ].

Definition error_of (status : Z) (b : value) : result exn :=
  createNon2xxError Example.fraction_to_string Example.JSON_stringify
    (ExampleFetch.normalised status b).

End ExampleError.

(** ** Gemini CLI buckets *)

Module ExampleBuckets.

Definition answer (bucket : value) : value := VObj [ ("buckets", VArr [bucket]) ].

Definition bucket (field : string) (v : value) : value :=
  VObj [ ("modelId", VStr "gemini-pro_vertex"); (field, v) ].

Definition percents (r : result GeminiCli.data) : list (string * number) :=
  match r with
  | Ok d =>
      map (fun b => (GeminiCli.modelId b, GeminiCli.percent b))
        (GeminiCli.buckets d)
  | Throw _ => []
  end.

Definition parsed (field : string) (v : value) : list (string * number) :=
  percents (geminiCliQuota_parse (answer (bucket field v))).

End ExampleBuckets.

(** * Vocabulary of the further properties *)

(** The calls posted to the management API so far, in order. *)
Definition posted (log : list event) : list ApiCallRequest :=
  filter_some
    (map (fun e => match e with
                   | EvRequest req => Some req
                   | EvDownload _ => None
                   end) log).

(** [a] is [b] with some of its elements left out. *)
Fixpoint is_subsequence (a b : list string) : bool :=
  match a, b with
  | [], _ => true
  | _ :: _, [] => false
  | x :: a', y :: b' =>
      if String.eqb x y then is_subsequence a' b' else is_subsequence a b'
  end.

(** The first of the candidates that is a string that is not blank,
    trimmed. *)
Fixpoint first_text (candidates : list value) : option string :=
  match candidates with
  | [] => None
  | v :: rest =>
      match normalizeText v with
      | Some t => Some t
      | None => first_text rest
      end
  end.

(** A string without white space at either end. *)
Definition no_lead (s : string) : Prop :=
  match s with
  | String c _ => Str.is_space c = false
  | EmptyString => True
  end.

(** ** Credential introspection *)

(** Where resolveAntigravityProjectId looks for the project id, in its
    order of preference. *)
Definition project_id_candidates (parsed : value) : list value :=
  [ project_id_of parsed;
    project_id_of (JS.get_opt parsed "installed");
    project_id_of (JS.get_opt parsed "web") ].

(** Where resolveCodexAccountId looks for an id_token in the file
    listing. *)
Definition id_token_candidates (file : value) : list value :=
  [ id_token_of file;
    id_token_of (JS.get_opt file "metadata");
    id_token_of (JS.get_opt file "attributes") ].

(** Where resolveCodexPlanTypeFromFile looks for the plan type, in its
    order of preference. *)
Definition plan_type_candidates (file : value) : list value :=
  let metadata := JS.get_opt file "metadata" in
  [ plan_type_of file;
    plan_type_of (id_token_of file);
    plan_type_of metadata;
    plan_type_of (id_token_of metadata);
    plan_type_of (JS.get_opt file "attributes") ].

Module ExampleProject.

(** A client-secret file as the Google console exports it, with a blank
    top-level project id. *)
Definition client_secret : value :=
  VObj [ ("project_id", VStr "  ");
         ("projectId", VStr "shadowed");
         ("installed", VObj [ ("project_id", VStr " my-project ") ]);
         ("web", VObj [ ("project_id", VStr "web-project") ]) ].

Definition stored_secret (log : list event) (fileName : value)
  : result string :=
  Ok (Example.JSON_stringify client_secret).

Definition resolved : result string * list event :=
  run (resolveAntigravityProjectId Json.parse stored_secret
         (VStr "antigravity.json")).

End ExampleProject.

Module ExampleCodexFile.

(** A listing entry whose metadata carries the decoded id_token. *)
Definition listed : value :=
  VObj [ ("name", VStr "codex-user.json");
         ("type", VStr "codex");
         ("authIndex", VStr "c0de");
         ("metadata",
          VObj [ ("id_token",
                  VObj [ ("chatgpt_account_id", VStr " acct_123 ");
                         ("plan_type", VStr " Plus ") ]) ]) ].

(** A listing entry without any id_token. *)
Definition bare : value :=
  VObj [ ("name", VStr "codex-user.json");
         ("type", VStr "codex");
         ("authIndex", VStr "c0de") ].

End ExampleCodexFile.

(** ** Answers of the management API *)

(** The status that apiCallApi.request reads out of a raw answer. *)
Definition raw_status (response : value) : value :=
  JS.or (JS.get_opt response "status_code")
    (JS.or (JS.get_opt response "statusCode") (VNum (Num.of_Z 0))).

(** A body that is absent or blank. *)
Definition blank_body (b : value) : bool :=
  match b with
  | VNull | VUndefined => true
  | VStr s => Str.is_empty (Str.trim s)
  | _ => false
  end.

Module ExampleAnswers.

(** The management API relays an upstream 204 without a body. *)
Definition no_content (log : list event) (req : ApiCallRequest)
  : result value :=
  Ok (VObj [ ("status_code", Example.num 204); ("body", VStr "") ]).

(** The management API relays an upstream 429 whose error carries a
    numeric code. *)
Definition too_many (log : list event) (req : ApiCallRequest)
  : result value :=
  Ok (ExampleFetch.response 429 ExampleError.quota_exceeded).

Definition gemini_file : value :=
  VObj [ ("name", VStr "gemini-dev.json");
         ("type", VStr "gemini-cli");
         ("auth_index", VStr "9e11") ].

Definition fetch_gemini (api : list event -> ApiCallRequest -> result value)
  : result GeminiCli.data * list event :=
  run (geminiCliQuota_fetch Example.fraction_to_string Json.parse
         Example.JSON_stringify ExampleGemini.stored api gemini_file).

Definition fetch_codex (api : list event -> ApiCallRequest -> result value)
  (file : value) : result Codex.data * list event :=
  run (codexQuota_fetch Example.fraction_to_string Json.parse
         Example.JSON_stringify Example.Date_now ExampleFetch.no_download
         api file).

End ExampleAnswers.

(** ** Antigravity models *)

(** [entry?.quotaInfo || entry?.quota_info || {}] and the reset time that
    the map callback of antigravityQuota.parse reads out of it. *)
Definition quotaInfo_of (entry : value) : value :=
  JS.or (JS.get_opt entry "quotaInfo")
    (JS.or (JS.get_opt entry "quota_info") (VObj [])).

Definition reset_of (entry : value) : value :=
  JS.or (JS.get_opt (quotaInfo_of entry) "resetTime")
    (JS.get_opt (quotaInfo_of entry) "reset_time").

(** The first truthy value of a list, undefined when there is none. *)
Fixpoint first_truthy (l : list value) : value :=
  match l with
  | [] => VUndefined
  | v :: rest => if JS.truthy v then v else first_truthy rest
  end.




Module ExampleReset.

Definition model_with_reset (fraction resetTime : value) : value :=
  VObj [ ("quotaInfo",
          VObj [ ("remainingFraction", fraction);
                 ("resetTime", resetTime) ]) ].

(** Of the two models of the group "Gemini 3 Pro", the second has the
    lower fraction and the first alone has a reset time. *)
Definition reset_answer : value :=
  VObj [ ("models",
          VObj [ ("gemini-3-pro-high",
                  model_with_reset (Example.decimal "0.9")
                    (VStr "2026-01-01T00:00:00Z"));
                 ("gemini-3-pro-low",
                  model_with_reset (Example.decimal "0.2") VUndefined);
                 ("gemini-2.5-flash-lite",
                  model_with_reset (Example.decimal "0.5") VUndefined) ]) ].

Definition summary (r : result Antigravity.data)
  : list (string * number * value * bool) :=
  match r with
  | Ok d =>
      map (fun g => (Antigravity.name g, Antigravity.percent g,
                     Antigravity.resetTime g, Antigravity.hideInTable g))
        (Antigravity.groups d)
  | Throw _ => []
  end.

(** What antigravityQuota.parse returns for [reset_answer]. *)
Definition parsed_answer : Antigravity.data :=
  Eval vm_compute in
    match antigravityQuota_parse reset_answer with
    | Ok d => d
    | Throw _ => {| Antigravity.groups := [] |}
    end.

Definition first_group : Antigravity.group :=
  Eval vm_compute in
    hd {| Antigravity.name := ""; Antigravity.percent := NaN;
          Antigravity.remaining := NaN; Antigravity.used := NaN;
          Antigravity.total := NaN; Antigravity.resetTime := VUndefined;
          Antigravity.hideInTable := false |}
       (Antigravity.groups parsed_answer).

End ExampleReset.

(** ** Gemini CLI buckets *)

(** [bucket.remainingFraction || bucket.remaining_fraction] and
    [bucket.remainingAmount || bucket.remaining_amount] *)
Definition fraction_of_bucket (bucket : value) : value :=
  JS.or (JS.get_opt bucket "remainingFraction")
    (JS.get_opt bucket "remaining_fraction").

Definition amount_of_bucket (bucket : value) : value :=
  JS.or (JS.get_opt bucket "remainingAmount")
    (JS.get_opt bucket "remaining_amount").

(** The fraction of a bucket converts to a string, and when no number
    can be read in it the amount converts to a number. *)
Definition bucket_converts (bucket : value) : bool :=
  convertible (fraction_of_bucket bucket) &&
  (negb (Num.isNaN (float_of (fraction_of_bucket bucket)))
   || convertible (amount_of_bucket bucket)).

(** A bucket that geminiCliQuota.parse can read: it is neither null nor
    undefined, and its [modelId || model_id] is falsy, or is a string
    and the fraction and the amount that the parse consults convert. *)
Definition bucket_ok (bucket : value) : bool :=
  negb (JS.nullish bucket) &&
  match JS.or (JS.get_opt bucket "modelId") (JS.get_opt bucket "model_id") with
  | VStr id => Str.is_empty id || bucket_converts bucket
  | v => negb (JS.truthy v)
  end.

(** The raw buckets that geminiCliQuota.parse goes through. *)
Definition rawBuckets_of (data : value) : list value :=
  match JS.or (JS.get_opt data "buckets") (VArr []) with
  | VArr rawBuckets => rawBuckets
  | _ => []
  end.

(** ** Codex limits *)

Definition b2n (b : bool) : nat := if b then 1%nat else 0%nat.

(** Every label that codexQuota.parse can give a limit, in the order in
    which it pushes them. *)
Definition codex_labels : list string :=
  [ "5h"; "Weekly"; "Window 1"; "Review 5h"; "Review Weekly"; "Review 1" ].

(** [window.used_percent ?? window.usedPercent] *)
Definition used_of (window : value) : value :=
  JS.coalesce (JS.get_opt window "used_percent")
    (JS.get_opt window "usedPercent").

(** The usage that a window reports: what parseFloat reads in
    [used_percent ?? usedPercent], NaN when the field is missing. *)
Definition reported_usage (window : value) : number :=
  if JS.nullish (used_of window) then NaN else float_of (used_of window).

(** The limit object says that the limit is reached:
    [limit_reached ?? limitReached] is truthy, or [allowed] is false. *)
Definition limit_exhausted (limitInfo : value) : bool :=
  JS.truthy (JS.coalesce (JS.get_opt limitInfo "limit_reached")
               (JS.get_opt limitInfo "limitReached"))
  || match JS.get_opt limitInfo "allowed" with
     | VBool false => true
     | _ => false
     end.

Definition reset_at_of (window : value) : value :=
  JS.coalesce (JS.get_opt window "reset_at") (JS.get_opt window "resetAt").

Definition reset_after_of (window : value) : value :=
  JS.coalesce (JS.get_opt window "reset_after_seconds")
    (JS.get_opt window "resetAfterSeconds").

(** [window.limit_window_seconds ?? window.limitWindowSeconds] *)
Definition seconds_of (window : value) : value :=
  JS.coalesce (JS.get_opt window "limit_window_seconds")
    (JS.get_opt window "limitWindowSeconds").

(** What addWindow hands to parseFloat converts to a string: the used
    percentage, the reset_at, and the reset_after_seconds when there is
    no truthy reset_at. *)
Definition window_converts (window : value) : bool :=
  convertible (used_of window) &&
  convertible (reset_at_of window) &&
  (JS.truthy (reset_at_of window) || convertible (reset_after_of window)).

(** Both windows of a limit object convert, with their seconds. *)
Definition limit_converts (limitInfo : value) : bool :=
  forallb (fun w => convertible (seconds_of w) && window_converts w)
    [ primary_of limitInfo; secondary_of limitInfo ].

(** [data.plan_type || data.planType || null] *)
Definition planTypeFromApi_of (data : value) : value :=
  JS.or (JS.get_opt data "plan_type")
    (JS.or (JS.get_opt data "planType") VNull).

(** Everything that codexQuota.parse converts in an answer converts. *)
Definition answer_converts (data : value) : bool :=
  convertible (planTypeFromApi_of data) &&
  limit_converts (rateLimit_of data) &&
  limit_converts (codeReviewLimit_of data).

Module ExampleCodexAnswer.

(** An answer whose plan type needs trimming and lower-casing. *)
Definition usage_answer : value :=
  VObj [ ("plan_type", VStr " Pro ");
         ("rate_limit",
          Example.rate_limit_of (Example.window 18000 75)
            (Example.window 604800 10)) ].

Definition usage_ok (log : list event) (req : ApiCallRequest)
  : result value :=
  Ok (ExampleFetch.response 200 usage_answer).

(** A window without a used percentage, and a limit that is reached. *)
Definition silent_window : value :=
  VObj [ ("limit_window_seconds", Example.num 18000);
         ("reset_at", VStr "soon");
         ("reset_after_seconds", Example.num 60) ].

Definition reached : value :=
  VObj [ ("limit_reached", VBool true); ("primary_window", silent_window) ].

(** A window that resets in ninety seconds. *)
Definition resetting_window : value :=
  VObj [ ("used_percent", Example.num 40);
         ("reset_after_seconds", VStr "90.5") ].

End ExampleCodexAnswer.

(** ** The dispatch facade on any value *)

(** The lower-cased type of a file is one that fetchQuotaByType routes,
    and the file has a handle. *)
Definition supported (file : value) : bool :=
  match JS.get_opt file "type" with
  | VStr s =>
      let t := Str.toLowerCase s in
      String.eqb t "antigravity" || String.eqb t "gemini-cli"
      || String.eqb t "codex"
  | _ => false
  end && JS.truthy (handle_of file).

(** The payload of a result belongs to the resolver that its type
    names. *)
Definition tag_matches (res : QuotaResult) : bool :=
  match data res with
  | AntigravityData _ => String.eqb (type res) "antigravity"
  | GeminiCliData _ => String.eqb (type res) "gemini-cli"
  | CodexData _ => String.eqb (type res) "codex"
  end.

(** ** The provider table (components/providers/AiProvidersTable.vue) *)

(** The calls that handleRefreshQuota makes to the quota store, which is
    a collaborator: they are recorded in order. *)
Inductive store_call : Type :=
| SetLoading (key : value) (loading : bool)
| SetQuota (key : value) (type : string) (data : QuotaData)
| SetQuotaError (key : value) (message : value).

(** [error.message] of what a catch clause caught. *)
Definition caught_message (e : exn) : result value :=
  match e with
  | Err m _ => Ok (VStr m)
  | TypeErr m => Ok (VStr m)
  | Thrown v => JS.get v "message"
  end.

Section ProviderTable.

Variable fraction_to_string : Q -> string.
Variable JSON_parse : string -> option value.
Variable JSON_stringify : value -> string.
Variable Date_now : nat -> number.
Variable authFilesApi_download : list event -> value -> result string.
Variable request_post : list event -> ApiCallRequest -> result value.

(** quotaKey.provider of the quota store. *)
Variable quotaKey_provider : value -> value -> value.

Definition getProviderQuotaKey (provider : value) : value :=
  quotaKey_provider (JS.get_opt provider "type")
    (JS.or (JS.get_opt provider "identifier")
       (JS.or (JS.get_opt provider "name")
          (JS.or (JS.get_opt provider "apiKey") (VStr "")))).

(** The object that handleRefreshQuota passes for a credential file. *)
Definition mockFile (provider : value) : value :=
  VObj [ ("name", JS.get_opt provider "identifier");
         ("type", JS.get_opt provider "type");
         ("apiKey", JS.get_opt provider "apiKey") ].

(** handleRefreshQuota: the calls it makes to the store, in order, with
    the way it ends, and the log of what the fetch asked of its
    collaborators. *)
Definition handleRefreshQuota (provider : value)
  : list event -> (list store_call * result unit) * list event :=
  fun log =>
    match JS.get provider "supportsQuota" with
    | Throw e => (([], Throw e), log)
    | Ok supportsQuota =>
        if negb (JS.truthy supportsQuota) then (([], Ok tt), log)
        else
          let key := getProviderQuotaKey provider in
          match fetchQuotaByType fraction_to_string JSON_parse JSON_stringify
                  Date_now authFilesApi_download request_post
                  (mockFile provider) log with
          | (Ok result, log') =>
              (([SetLoading key true;
                 SetQuota key (type result) (data result)], Ok tt), log')
          | (Throw error, log') =>
              match caught_message error with
              | Ok message =>
                  (([SetLoading key true; SetQuotaError key message], Ok tt),
                   log')
              | Throw e => (([SetLoading key true], Throw e), log')
              end
          end
    end.

End ProviderTable.

Module ExampleProvider.

(** A Codex provider as allProviders builds it. *)
Definition codex_provider : value :=
  VObj [ ("apiKey", VStr "sk-test");
         ("name", VStr "work");
         ("type", VStr "codex");
         ("identifier", VStr "sk-test");
         ("enabled", VBool true);
         ("supportsQuota", VBool true) ].

Definition key_of (type identifier : value) : value :=
  VArr [VStr "provider"; type; identifier].

Definition refresh (provider : value)
  : (list store_call * result unit) * list event :=
  handleRefreshQuota Example.fraction_to_string Json.parse
    Example.JSON_stringify Example.Date_now ExampleFetch.no_download
    ExampleCodexAnswer.usage_ok key_of provider [].

End ExampleProvider.

(** ** The quota cells of the file table
       (components/auth/AuthFileTable.vue)

    The parses build object literals; these are the objects behind the
    records of the model, with their properties in the order of the
    literals. *)

Definition nullable (n : option number) : value :=
  match n with
  | Some x => VNum x
  | None => VNull
  end.

Definition group_value (g : Antigravity.group) : value :=
  VObj [ ("name", VStr (Antigravity.name g));
         ("percent", VNum (Antigravity.percent g));
         ("remaining", VNum (Antigravity.remaining g));
         ("used", VNum (Antigravity.used g));
         ("total", VNum (Antigravity.total g));
         ("resetTime", Antigravity.resetTime g);
         ("hideInTable", VBool (Antigravity.hideInTable g)) ].

Definition bucket_value (b : GeminiCli.bucket) : value :=
  VObj [ ("modelId", VStr (GeminiCli.modelId b));
         ("percent", VNum (GeminiCli.percent b));
         ("remaining", VNum (GeminiCli.remaining b));
         ("used", VNum (GeminiCli.used b));
         ("total", VNum (GeminiCli.total b));
         ("resetTime", GeminiCli.resetTime b) ].

Definition limit_value (l : Codex.limit) : value :=
  VObj [ ("model", VStr (Codex.model l));
         ("percent", nullable (Codex.percent l));
         ("remaining", nullable (Codex.remaining l));
         ("used", nullable (Codex.used l));
         ("total", VNum (Codex.total l));
         ("resetTime",
          match Codex.resetTime l with
          | Some t => VNum t
          | None => VUndefined
          end) ].

Definition data_value (d : QuotaData) : value :=
  match d with
  | AntigravityData a =>
      VObj [ ("groups", VArr (map group_value (Antigravity.groups a))) ]
  | GeminiCliData g =>
      VObj [ ("buckets", VArr (map bucket_value (GeminiCli.buckets g))) ]
  | CodexData c =>
      VObj [ ("planType", VStr (Codex.planType c));
             ("limits", VArr (map limit_value (Codex.limits c)));
             ("campaignId", Codex.campaignId c) ]
  end.

(** [{ name, percent, resetTime }] *)
Definition table_item (name percent resetTime : value) : value :=
  VObj [ ("name", name); ("percent", percent); ("resetTime", resetTime) ].

(** [xs.map(x => ({ name: x[key], percent: x.percent,
    resetTime: x.resetTime }))] *)
Fixpoint map_items (key : string) (xs : list value) : result (list value) :=
  match xs with
  | [] => Ok []
  | x :: rest =>
      (name <- JS.get x key ;;
       items <- map_items key rest ;;
       Ok (table_item name (JS.get_opt x "percent") (JS.get_opt x "resetTime")
           :: items))%result
  end.

(** [xs.filter(g => !g.hideInTable)] *)
Fixpoint filter_shown (xs : list value) : result (list value) :=
  match xs with
  | [] => Ok []
  | g :: rest =>
      (hideInTable <- JS.get g "hideInTable" ;;
       shown <- filter_shown rest ;;
       Ok (if JS.truthy hideInTable then shown else g :: shown))%result
  end.

(** [items || []] as the array on which [filter] or [map] is called; a
    truthy value that is not an array has no such method. *)
Definition as_array (items : value) : result (list value) :=
  match JS.or items (VArr []) with
  | VArr xs => Ok xs
  | _ => Throw (TypeErr "filter or map is not a function")
  end.

(** getQuotaItems, as a function of what the quota store answers for
    the key of the file. *)
Definition getQuotaItems (q : value) : result (list value) :=
  if negb (JS.truthy q) then Ok []
  else
    match JS.get_opt q "status" with
    | VStr status =>
        if negb (String.eqb status "success") then Ok []
        else
          let data := JS.get_opt q "data" in
          match JS.get_opt q "type" with
          | VStr tag =>
              if String.eqb tag "antigravity" then
                (groups <- as_array (JS.get_opt data "groups") ;;
                 shown <- filter_shown groups ;;
                 map_items "name" shown)%result
              else if String.eqb tag "gemini-cli" then
                (buckets <- as_array (JS.get_opt data "buckets") ;;
                 map_items "modelId" buckets)%result
              else if String.eqb tag "codex" then
                (limits <- as_array (JS.get_opt data "limits") ;;
                 map_items "model" limits)%result
              else Ok []
          | _ => Ok []
          end
    | _ => Ok []
    end.

(** A successful entry of the quota store for a result of
    fetchQuotaByType. *)
Definition success_entry (res : QuotaResult) : value :=
  VObj [ ("status", VStr "success");
         ("type", VStr (type res));
         ("data", data_value (data res)) ].

(** The name of a table item. *)
Definition item_name (item : value) : value := JS.get_opt item "name".

(** The items of the table for the data of a result: the groups that are
    not hidden, the buckets, or the limits. *)
Definition shown_items (d : QuotaData) : list value :=
  match d with
  | AntigravityData a =>
      map (fun g => table_item (VStr (Antigravity.name g))
                      (VNum (Antigravity.percent g)) (Antigravity.resetTime g))
        (filter (fun g => negb (Antigravity.hideInTable g))
           (Antigravity.groups a))
  | GeminiCliData g =>
      map (fun b => table_item (VStr (GeminiCli.modelId b))
                      (VNum (GeminiCli.percent b)) (GeminiCli.resetTime b))
        (GeminiCli.buckets g)
  | CodexData c =>
      map (fun l => table_item (VStr (Codex.model l))
                      (nullable (Codex.percent l))
                      (match Codex.resetTime l with
                       | Some t => VNum t
                       | None => VUndefined
                       end))
        (Codex.limits c)
  end.

(** * Properties *)

(** ** Numbers within bounds *)

Section NumberFacts.

Local Open Scope Q_scope.

Lemma Qltb_true (a b : Q) : Num.Qltb a b = true <-> a < b.
Proof.
  unfold Num.Qltb. rewrite Qlt_alt.
  destruct (a ?= b); split; intro H; congruence.
Qed.

Lemma Qltb_false (a b : Q) : Num.Qltb a b = false <-> b <= a.
Proof.
  split; intro H.
  - apply Qnot_lt_le. intro L. apply Qltb_true in L. congruence.
  - destruct (Num.Qltb a b) eqn:E; [|reflexivity].
    apply Qltb_true in E. exfalso. exact (Qle_not_lt _ _ H E).
Qed.

Lemma num_le_fin (a b : Q) : Num.le (Fin a) (Fin b) = true <-> a <= b.
Proof.
  unfold Num.le, Num.lt, Num.eqb, Num.Qeqb.
  rewrite orb_true_iff, Qltb_true, Qeq_bool_iff. split.
  - intros [H | H]; [apply Qlt_le_weak; exact H | rewrite H; apply Qle_refl].
  - intro H. apply Qle_lteq in H. exact H.
Qed.



Lemma within_fin (lo hi : Z) (q : Q) :
  inject_Z lo <= q -> q <= inject_Z hi -> within lo hi (Fin q).
Proof. intros H1 H2. exists q. auto. Qed.

(** [Math.max(0, Math.min(hi, n))] of a number that is not NaN. *)
Lemma clamp_within (hi : Z) (n : number) :
  (0 <= hi)%Z -> Num.isNaN n = false ->
  within 0 hi (Num.max (Num.of_Z 0) (Num.min (Num.of_Z hi) n)).
Proof.
  intros Hhi Hn. unfold Num.of_Z.
  assert (Hq : inject_Z 0 <= inject_Z hi) by (rewrite <- Zle_Qle; exact Hhi).
  destruct n as [| | |x]; try discriminate; simpl;
    repeat match goal with
    | |- context [Num.Qltb ?a ?b] =>
        let E := fresh "E" in destruct (Num.Qltb a b) eqn:E; simpl
    end;
    repeat match goal with
    | E : Num.Qltb _ _ = true |- _ =>
        apply Qltb_true in E; apply Qlt_le_weak in E
    | E : Num.Qltb _ _ = false |- _ => apply Qltb_false in E
    end;
    apply within_fin; auto using Qle_refl.
Qed.

(** The minimum of two numbers is one of them. *)
Lemma min_cases (a b : number) :
  Num.isNaN a = false -> Num.isNaN b = false ->
  Num.min a b = a \/ Num.min a b = b.
Proof.
  intros Ha Hb. unfold Num.min.
  destruct a, b; try discriminate; destruct (Num.lt _ _); auto.
Qed.

Lemma min_within (a b : number) :
  within 0 1 a -> within 0 1 b -> within 0 1 (Num.min a b).
Proof.
  intros (x & -> & Hx) (y & -> & Hy).
  destruct (min_cases (Fin x) (Fin y) eq_refl eq_refl) as [-> | ->];
    [exists x | exists y]; auto.
Qed.

Lemma min_within_inf (b : number) :
  within 0 1 b -> Num.min PInf b = b.
Proof. intros (y & -> & _). reflexivity. Qed.

Lemma fold_min_within (l : list number) (acc : number) :
  within 0 1 acc -> Forall (within 0 1) l ->
  within 0 1 (fold_left Num.min l acc).
Proof.
  revert acc. induction l as [|x l IH]; intros acc Hacc Hl; simpl.
  - exact Hacc.
  - inversion Hl; subst. apply IH; [apply min_within|]; assumption.
Qed.


(** *** Rounding to binary64 is monotone *)























End NumberFacts.

(** ** The invariant of a normalised quota item *)

Section ItemFacts.

Local Open Scope Q_scope.



End ItemFacts.

Lemma quota_entry_within (m : string * value) (e : quotaEntry) :
  quota_entry_of m = Ok (Some e) -> within 0 1 (qe_remainingFraction e).
Proof.
  destruct m as [id entry]. unfold quota_entry_of, rbind.
  set (raw := JS.or _ (JS.or _ (JS.get_opt _ "remaining"))).
  destruct (parse_fraction raw) as [parsed|]; [|discriminate].
  destruct (Num.isNaN parsed) eqn:E.
  - destruct (JS.truthy _); [|discriminate].
    intro H. injection H as <-. simpl.
    apply (clamp_within 1); [lia|reflexivity].
  - intro H. injection H as <-. simpl.
    apply (clamp_within 1); [lia|exact E].
Qed.

Lemma filter_some_In {A} (l : list (option A)) (a : A) :
  In a (filter_some l) <-> In (Some a) l.
Proof.
  induction l as [|[x|] l IH]; simpl.
  - tauto.
  - rewrite IH. split; intros [H|H]; auto; left; congruence.
  - rewrite IH. split; [auto|]. intros [H|H]; [discriminate|exact H].
Qed.

(** What the map over the matches answers, element by element. *)
Lemma map_entries_Forall2 (matches : list (string * value)) :
  forall mapped, map_entries matches = Ok mapped ->
  Forall2 (fun m e => quota_entry_of m = Ok e) matches mapped.
Proof.
  induction matches as [|m ms IH]; cbn [map_entries]; intros mapped H.
  - injection H as <-. constructor.
  - unfold rbind in H.
    destruct (quota_entry_of m) as [e|] eqn:E; [|discriminate].
    destruct (map_entries ms) as [es|]; [|discriminate].
    injection H as <-. constructor; [exact E|apply IH; reflexivity].
Qed.

Lemma quotaEntries_In (matches : list (string * value))
  (entries : list quotaEntry) (e : quotaEntry) :
  quotaEntries_of matches = Ok entries -> In e entries ->
  exists m, In m matches /\ quota_entry_of m = Ok (Some e).
Proof.
  unfold quotaEntries_of, rbind.
  destruct (map_entries matches) as [mapped|] eqn:E; [|discriminate].
  intro H. injection H as <-. intro Hin. apply filter_some_In in Hin.
  apply map_entries_Forall2 in E. clear -E Hin.
  induction E as [|m x ms xs Hm _ IH]; [destruct Hin|].
  destruct Hin as [-> | Hin].
  - exists m. split; [left; reflexivity|exact Hm].
  - destruct (IH Hin) as (m' & H1 & H2). exists m'. split; [right|]; assumption.
Qed.

Lemma quotaEntries_within (matches : list (string * value))
  (entries : list quotaEntry) :
  quotaEntries_of matches = Ok entries ->
  Forall (within 0 1) (fractions_of entries).
Proof.
  intro H. apply Forall_forall. intros f Hf.
  apply in_map_iff in Hf as (e & <- & He).
  destruct (quotaEntries_In _ _ _ H He) as (m & _ & Hm).
  exact (quota_entry_within m e Hm).
Qed.








Section CodexFacts.

Variable fraction_to_string : Q -> string.
Variable Date_now : nat -> number.





(** What codexQuota.parse returns, as the composition of its steps. *)
Lemma codex_parse_limits (data : value) (planTypeFromFile : option string)
  (d : Codex.data) :
  codexQuota_parse fraction_to_string Date_now data planTypeFromFile = Ok d ->
  exists l1,
    push_limit fraction_to_string Date_now [] (rateLimit_of data)
      "5h" "Weekly" "Window" = Ok l1 /\
    push_limit fraction_to_string Date_now l1 (codeReviewLimit_of data)
      "Review 5h" "Review Weekly" "Review" = Ok (Codex.limits d).
Proof.
  unfold codexQuota_parse, rbind.
  destruct (JS.get data "plan_type") as [first|]; [|discriminate].
  match goal with
  | |- match ?x with Ok _ => _ | Throw _ => _ end = _ -> _ =>
      destruct x as [planType|]; [|discriminate]
  end.
  fold (rateLimit_of data). fold (codeReviewLimit_of data).
  destruct (push_limit _ _ [] _ _ _ _) as [l1|] eqn:E1; [|discriminate].
  destruct (push_limit _ _ l1 _ _ _ _) as [l2|] eqn:E2; [|discriminate].
  intro H. injection H as <-. exists l1. split; [reflexivity|exact E2].
Qed.


End CodexFacts.






(** ** Classification of the Codex windows *)

Lemma seconds_exclusive (seconds : option number) :
  seconds_is seconds FIVE_HOUR_SECONDS = true ->
  seconds_is seconds WEEK_SECONDS = false.
Proof.
  destruct seconds as [[| | |q]|]; simpl; try discriminate.
  unfold Num.Qeqb. intro H. apply Qeq_bool_iff in H.
  destruct (Qeq_bool q (inject_Z 604800)) eqn:E; [|reflexivity].
  apply Qeq_bool_iff in E. rewrite H in E. discriminate.
Qed.

Lemma classifyWindows_pair (limitInfo : value) :
  JS.truthy limitInfo = true ->
  classifyWindows limitInfo =
  classify_pair (primary_of limitInfo) (secondary_of limitInfo).
Proof. intro H. unfold classifyWindows. rewrite H. reflexivity. Qed.

(** Case analysis on the presence and the duration of both windows. *)
Ltac classify_cases p s :=
  unfold classify_pair, is_unmatched, is_five_hour, is_weekly, has_seconds in *;
  cbn [classify_loop] in *;
  let Tp := fresh "Tp" in let Ts := fresh "Ts" in
  let Gp := fresh "Gp" in let Gs := fresh "Gs" in
  let Fp := fresh "Fp" in let Fs := fresh "Fs" in
  let Wp := fresh "Wp" in let Ws := fresh "Ws" in
  destruct (JS.truthy p) eqn:Tp;
  destruct (JS.truthy s) eqn:Ts;
  destruct (getWindowSeconds p) as [sp|] eqn:Gp;
  destruct (getWindowSeconds s) as [ss|] eqn:Gs;
  cbn [negb andb orb rbind] in *;
  try discriminate;
  try (destruct (seconds_is sp FIVE_HOUR_SECONDS) eqn:Fp;
       destruct (seconds_is sp WEEK_SECONDS) eqn:Wp;
       try (rewrite (seconds_exclusive _ Fp) in Wp; discriminate));
  try (destruct (seconds_is ss FIVE_HOUR_SECONDS) eqn:Fs;
       destruct (seconds_is ss WEEK_SECONDS) eqn:Ws;
       try (rewrite (seconds_exclusive _ Fs) in Ws; discriminate));
  cbn [negb andb orb rbind] in *;
  try discriminate;
  unfold positional_fallback in *;
  repeat (cbn [negb andb orb rbind JS.truthy app fiveHour weekly extra
               classify_loop] in *;
          rewrite ?Tp, ?Ts in *);
  cbn [negb andb orb rbind JS.truthy app fiveHour weekly extra] in *.















Section LabelFacts.

Variable fraction_to_string : Q -> string.
Variable Date_now : nat -> number.

Lemma labels_push_window (limits : list Codex.limit) (w : value)
  (label : string) (limitInfo : value) (out : list Codex.limit) :
  push_window Date_now limits w label limitInfo = Ok out ->
  labels out = (labels limits ++ (if JS.truthy w then [label] else []))%list.
Proof.
  unfold push_window, addWindow, labels, rbind.
  destruct (JS.truthy w); cbn [negb].
  - destruct (usedPercent_of w limitInfo); [|discriminate].
    destruct (resetTime_of w _); [|discriminate].
    intro H. injection H as <-. rewrite map_app. reflexivity.
  - intro H. injection H as <-. rewrite app_nil_r. reflexivity.
Qed.

(** The labels that one limit object adds when it has at most one extra
    window, which is all classifyWindows can leave of two raw windows. *)
Lemma labels_push_limit (limits : list Codex.limit) (limitInfo : value)
  (five week prefix : string) (f k : value) (ex : list value)
  (out : list Codex.limit) :
  classifyWindows limitInfo =
    Ok {| fiveHour := f; weekly := k; extra := ex |} ->
  (List.length ex <= 1)%nat -> Forall (fun w => JS.truthy w = true) ex ->
  push_limit fraction_to_string Date_now limits limitInfo five week prefix
    = Ok out ->
  labels out =
  (labels limits ++ (if JS.truthy f then [five] else [])
     ++ (if JS.truthy k then [week] else [])
     ++ map (fun _ => (prefix ++ " 1")%string) ex)%list.
Proof.
  intros E Hlen Hex. unfold push_limit, rbind. rewrite E.
  cbn [fiveHour weekly extra].
  destruct (push_window _ limits f five limitInfo) as [l1|] eqn:E1;
    [|discriminate].
  destruct (push_window _ l1 k week limitInfo) as [l2|] eqn:E2;
    [|discriminate].
  apply labels_push_window in E1, E2.
  destruct ex as [|w [|w' ex]]; cbn [push_extra map].
  - intro H. injection H as <-.
    rewrite E2, E1, <- app_assoc, app_nil_r. reflexivity.
  - inversion Hex as [|? ? Hw _]; subst. unfold rbind.
    destruct (push_window _ l2 w _ limitInfo) as [l3|] eqn:E3;
      [|discriminate].
    apply labels_push_window in E3. intro H. injection H as <-.
    rewrite E3, E2, E1, Hw, <- !app_assoc. reflexivity.
  - simpl in Hlen. lia.
Qed.

End LabelFacts.




(** The seconds of a window are read as parseFloat reads them: a decimal
    text that rounds to 604800 is a weekly window. *)
Example codex_rounded_duration :
  let primary :=
    Example.window_with (VStr "604800.00000000001") (Example.num 75) in
  let secondary := Example.window 18000 10 in
  is_weekly primary = true /\
  labels_of (Example.parse_codex (Example.usage primary secondary)) =
    ["5h"; "Weekly"].
Proof. split; vm_compute; reflexivity. Qed.

(** ** The minimum rule of the Antigravity groups *)

Section MinimumFacts.

Local Open Scope Q_scope.

Lemma min_le_both (a b : number) :
  within 0 1 a -> within 0 1 b ->
  Num.le (Num.min a b) a = true /\ Num.le (Num.min a b) b = true.
Proof.
  intros (x & -> & _) (y & -> & _). unfold Num.min, Num.lt.
  destruct (Num.Qltb y x) eqn:E.
  - apply Qltb_true in E. split; apply num_le_fin;
      [apply Qlt_le_weak; exact E | apply Qle_refl].
  - apply Qltb_false in E. split; apply num_le_fin;
      [apply Qle_refl | exact E].
Qed.

Lemma le_trans_within (a b c : number) :
  within 0 1 a -> within 0 1 b -> within 0 1 c ->
  Num.le a b = true -> Num.le b c = true -> Num.le a c = true.
Proof.
  intros (x & -> & _) (y & -> & _) (z & -> & _) H1 H2.
  apply num_le_fin in H1, H2. apply num_le_fin.
  exact (Qle_trans _ _ _ H1 H2).
Qed.

Lemma fold_min_spec (l : list number) :
  forall acc, within 0 1 acc -> Forall (within 0 1) l ->
  let r := fold_left Num.min l acc in
  (r = acc \/ In r l) /\ Num.le r acc = true /\
  (forall f, In f l -> Num.le r f = true).
Proof.
  induction l as [|x l IH]; intros acc Hacc Hl; cbn [fold_left].
  - split; [left; reflexivity|]. split; [|intros f []].
    destruct Hacc as (q & -> & _). apply num_le_fin. apply Qle_refl.
  - inversion Hl as [|? ? Hx Hl']; subst.
    assert (Hm : within 0 1 (Num.min acc x)) by (apply min_within; assumption).
    destruct (IH (Num.min acc x) Hm Hl') as (Hin & Hle & Hall).
    destruct (min_le_both acc x Hacc Hx) as [Ha Hb].
    assert (Hr : within 0 1 (fold_left Num.min l (Num.min acc x)))
      by (apply fold_min_within; assumption).
    split; [|split].
    + destruct Hin as [Hin | Hin]; [|right; right; exact Hin].
      destruct (min_cases acc x) as [E | E].
      * destruct Hacc as (q & -> & _). reflexivity.
      * destruct Hx as (q & -> & _). reflexivity.
      * left. congruence.
      * right. left. congruence.
    + eapply le_trans_within; [exact Hr|exact Hm|exact Hacc|exact Hle|exact Ha].
    + intros f [<- | Hf]; [|apply Hall; exact Hf].
      eapply le_trans_within; [exact Hr|exact Hm|exact Hx|exact Hle|exact Hb].
Qed.

(** [Math.min(...l)] is the least element of a non-empty list of
    fractions. *)
Lemma min_list_is_minimum (l : list number) :
  l <> [] -> Forall (within 0 1) l -> is_minimum (Num.min_list l) l.
Proof.
  intros Hne Hl. destruct l as [|x l]; [congruence|].
  inversion Hl as [|? ? Hx Hl']; subst.
  unfold Num.min_list. cbn [fold_left]. rewrite (min_within_inf x Hx).
  destruct (fold_min_spec l x Hx Hl') as (Hin & Hle & Hall).
  split.
  - destruct Hin as [-> | Hin]; [left; reflexivity | right; exact Hin].
  - intros f [<- | Hf]; [exact Hle | apply Hall; exact Hf].
Qed.

End MinimumFacts.

Lemma group_of_minimum (models : value) (groupDef : modelGroup)
  (matches : list (string * value)) (entries : list quotaEntry) :
  group_matches models (mg_identifiers groupDef) = Ok matches ->
  quotaEntries_of matches = Ok entries ->
  entries <> [] ->
  exists g,
    group_of models groupDef = Ok (Some g) /\
    Antigravity.name g = mg_label groupDef /\
    Antigravity.percent g =
      percent_of_fraction (Num.min_list (fractions_of entries)).
Proof.
  intros Hm He Hne. unfold group_of. rewrite Hm. unfold rbind.
  destruct matches as [|m ms].
  - exfalso. apply Hne. cbn in He. injection He as <-. reflexivity.
  - rewrite He. destruct entries as [|e es]; [exfalso; apply Hne; reflexivity|].
    eexists. split; [reflexivity|]. split; reflexivity.
Qed.

Lemma groups_of_In (models : value) (defs : list modelGroup) :
  forall gs groupDef g,
  groups_of models defs = Ok gs -> In groupDef defs ->
  group_of models groupDef = Ok (Some g) -> In g gs.
Proof.
  induction defs as [|d defs IH]; intros gs groupDef g H Hin Hg;
    [destruct Hin|].
  cbn [groups_of] in H. unfold rbind in H.
  destruct (group_of models d) as [og|] eqn:Eg; [|discriminate].
  destruct (groups_of models defs) as [gs'|] eqn:Egs; [|discriminate].
  injection H as <-. destruct Hin as [-> | Hin].
  - rewrite Hg in Eg. injection Eg as <-. left. reflexivity.
  - specialize (IH gs' groupDef g eq_refl Hin Hg).
    destruct og; [right|]; exact IH.
Qed.

(** Nothing matches in a [models] that is not an object. *)
Lemma group_matches_not_object (models : value) (identifiers : list string) :
  (forall fields, models <> VObj fields) ->
  group_matches models identifiers = Ok [].
Proof.
  intro H. induction identifiers as [|id ids IH]; [reflexivity|].
  cbn [group_matches findModel]. unfold rbind.
  assert (E1 : JS.get_opt models id = VUndefined)
    by (destruct models; try reflexivity; exfalso; eapply H; reflexivity).
  assert (E2 : JS.entries models = [])
    by (destruct models; try reflexivity; exfalso; eapply H; reflexivity).
  rewrite E1, E2. cbn. rewrite IH. reflexivity.
Qed.

Lemma get_ok (v : value) (k : string) (x : value) :
  JS.get v k = Ok x -> JS.nullish v = false /\ x = JS.get_opt v k.
Proof.
  unfold JS.get. destruct (JS.nullish v); [discriminate|].
  intro H. injection H as <-. auto.
Qed.

Lemma get_not_nullish (v : value) (k : string) :
  JS.nullish v = false -> JS.get v k = Ok (JS.get_opt v k).
Proof. intro H. unfold JS.get. rewrite H. reflexivity. Qed.

(** The part of C3 that the code follows: a group with at least one
    matched model of which the code keeps a fraction (its fraction field,
    read through [remainingFraction || remaining_fraction || remaining],
    is a number, or a reset time stands in for 0) has as percent the
    least of the kept fractions, each clamped to [0,1], times 100 and
    rounded. *)
Lemma group_percent_is_minimum
  (data : value) (d : Antigravity.data) (groupDef : modelGroup)
  (matches : list (string * value)) (entries : list quotaEntry) :
  antigravityQuota_parse data = Ok d ->
  In groupDef modelGroups ->
  group_matches (models_of data) (mg_identifiers groupDef) = Ok matches ->
  quotaEntries_of matches = Ok entries ->
  entries <> [] ->
  Forall (within 0 1) (fractions_of entries) /\
  exists g m,
    In g (Antigravity.groups d) /\
    Antigravity.name g = mg_label groupDef /\
    is_minimum m (fractions_of entries) /\
    Antigravity.percent g = Num.round (Num.mul m (Num.of_Z 100)).
Proof.
  intros Hp Hdef Hm He Hne.
  assert (W : Forall (within 0 1) (fractions_of entries))
    by (eapply quotaEntries_within; exact He).
  split; [exact W|].
  unfold antigravityQuota_parse, rbind in Hp.
  destruct (JS.get data "models") as [raw|] eqn:Eraw; [|discriminate].
  apply get_ok in Eraw as [_ ->]. fold (models_of data) in Hp.
  destruct (negb (JS.is_object_type (models_of data))
            || JS.isArray (models_of data)) eqn:Eshape.
  - exfalso. apply Hne.
    rewrite group_matches_not_object in Hm.
    + injection Hm as <-. cbn in He. injection He as <-. reflexivity.
    + intros fields E. rewrite E in Eshape. discriminate.
  - destruct (groups_of (models_of data) modelGroups) as [gs|] eqn:Egs;
      [|discriminate].
    injection Hp as <-.
    destruct (group_of_minimum _ _ _ _ Hm He Hne) as (g & Hg & Hname & Hpc).
    exists g, (Num.min_list (fractions_of entries)).
    split; [exact (groups_of_In _ _ _ _ _ Egs Hdef Hg)|].
    split; [exact Hname|]. split; [|exact Hpc].
    apply min_list_is_minimum; [|exact W].
    destruct entries; [congruence|discriminate].
Qed.

(** The code keeps the fraction that a model carries whenever the
    fraction field is truthy: only a field that is 0 or the empty string
    is read differently. *)
Lemma carried_fraction_kept (id : string) (entry : value) (f : number) :
  carried_fraction entry = Some f ->
  JS.truthy (fraction_field entry) = true ->
  exists e,
    quota_entry_of (id, entry) = Ok (Some e) /\ qe_remainingFraction e = f.
Proof.
  unfold carried_fraction, fraction_field, quota_entry_of.
  set (quotaInfo := JS.or _ (JS.or _ (VObj []))).
  set (a := JS.get_opt quotaInfo "remainingFraction").
  set (b := JS.get_opt quotaInfo "remaining_fraction").
  set (c := JS.get_opt quotaInfo "remaining").
  intros Hc Ht.
  assert (E : JS.or a (JS.or b c) = JS.coalesce a (JS.coalesce b c)).
  { clearbody a b c. clear -Ht. unfold JS.or, JS.coalesce in *.
    destruct a; cbn [JS.nullish JS.truthy] in *;
      try (rewrite Ht; reflexivity); try reflexivity;
      destruct b; cbn [JS.nullish JS.truthy] in *;
      try (rewrite Ht; reflexivity); reflexivity. }
  rewrite E. unfold rbind.
  destruct (parse_fraction _) as [parsed|]; [|discriminate].
  destruct (Num.isNaN parsed); [discriminate|].
  injection Hc as <-. eexists. split; reflexivity.
Qed.

(** ** Antigravity models with a zero *)

(** C3 (the code departs from it).  Of the two models of the group
    "Gemini 3 Pro", one carries the fraction 0 and the other 0.9, so the
    minimum is 0 and the claimed percent is 0.  With the zero under
    [remainingFraction] or [remaining_fraction] the group comes out at 90
    percent, because [a || b || c] passes over a zero and the model is
    dropped.  With the same zero under [remaining], the last name of the
    chain, or written as the string "0" or "0%", the group comes out at 0
    percent.  Away from such a zero the minimum rule holds: the fractions
    0.9 and 0.2 give 20 and "30%" gives 30. *)
Theorem antigravity_zero_is_dropped :
  let zero := Example.num 0 in
  claimed_percent
    [ ExampleAntigravity.pro_high "remainingFraction" zero;
      ExampleAntigravity.pro_low ] = Some (Num.of_Z 0) /\
  ExampleAntigravity.parsed "remainingFraction" zero =
    [("Gemini 3 Pro", Num.of_Z 90)] /\
  ExampleAntigravity.parsed "remaining_fraction" zero =
    [("Gemini 3 Pro", Num.of_Z 90)] /\
  ExampleAntigravity.parsed "remaining" zero =
    [("Gemini 3 Pro", Num.of_Z 0)] /\
  ExampleAntigravity.parsed "remainingFraction" (VStr "0") =
    [("Gemini 3 Pro", Num.of_Z 0)] /\
  ExampleAntigravity.parsed "remainingFraction" (VStr "0%") =
    [("Gemini 3 Pro", Num.of_Z 0)] /\
  ExampleAntigravity.percents
    (antigravityQuota_parse ExampleAntigravity.answer) =
  [ ("Gemini 3 Pro", Num.of_Z 20); ("Gemini 2.5 Flash", Num.of_Z 30) ].
Proof. repeat split; vm_compute; reflexivity. Qed.

(** The product with 100 is rounded before Math.round sees it: 14.5%
    reads as 0.145, whose product with 100 is just below 14.5, and the
    group comes out at 14 percent. *)
Example antigravity_percent_rounding :
  ExampleAntigravity.parsed "remainingFraction" (VStr "14.5%") =
    [("Gemini 3 Pro", Num.of_Z 14)] /\
  percent_of_fraction (parseFloat_string "0.285") = Num.of_Z 28.
Proof. split; vm_compute; reflexivity. Qed.

(** ** The Antigravity URL loop *)

Section NumberOrder.

Local Open Scope Q_scope.

Lemma outside_excludes_inside (n : number) :
  Num.lt n (Num.of_Z 200) || Num.ge n (Num.of_Z 300) = true ->
  Num.ge n (Num.of_Z 200) && Num.lt n (Num.of_Z 300) = false.
Proof.
  unfold Num.ge, Num.le, Num.of_Z.
  destruct n as [| | |q]; try reflexivity; try discriminate.
  unfold Num.lt, Num.eqb, Num.Qeqb. intro H.
  apply orb_true_iff in H as [H | H].
  - apply Qltb_true in H.
    assert (E1 : Num.Qltb (inject_Z 200) q = false)
      by (apply Qltb_false, Qlt_le_weak, H).
    assert (E2 : Qeq_bool (inject_Z 200) q = false).
    { destruct (Qeq_bool (inject_Z 200) q) eqn:E; [|reflexivity].
      apply Qeq_bool_iff in E. rewrite <- E in H.
      exfalso. exact (Qlt_irrefl _ H). }
    rewrite E1, E2. reflexivity.
  - assert (E : Num.Qltb q (inject_Z 300) = false).
    { apply Qltb_false. apply orb_true_iff in H as [H | H].
      - apply Qltb_true in H. apply Qlt_le_weak, H.
      - apply Qeq_bool_iff in H. rewrite H. apply Qle_refl. }
    rewrite E. apply andb_false_r.
Qed.

Lemma not_2xx_excludes (sc : value) :
  not_2xx sc = Ok true -> is_2xx sc = Ok false.
Proof.
  unfold not_2xx, is_2xx, rbind. destruct (to_number sc); [|discriminate].
  intro H. injection H as H. rewrite (outside_excludes_inside _ H).
  reflexivity.
Qed.

End NumberOrder.

(** ** The exceptions of the parses are TypeErrors *)

Lemma get_throws (v : value) (k : string) (e : exn) :
  JS.get v k = Throw e -> is_TypeError e.
Proof.
  unfold JS.get. destruct (JS.nullish v); [|discriminate].
  intro H. injection H as <-. eexists. reflexivity.
Qed.

Lemma parseFloat_throws (v : value) (e : exn) :
  parseFloat v = Throw e -> e = conversion_error.
Proof.
  unfold parseFloat. destruct (convertible v); [discriminate|].
  intro H. injection H as <-. reflexivity.
Qed.

Lemma to_number_throws (v : value) (e : exn) :
  to_number v = Throw e -> e = conversion_error.
Proof.
  unfold to_number. destruct (convertible v); [discriminate|].
  intro H. injection H as <-. reflexivity.
Qed.

Lemma to_string_throws (fraction_to_string : Q -> string) (v : value)
  (e : exn) :
  to_string fraction_to_string v = Throw e -> e = conversion_error.
Proof.
  unfold to_string. destruct (convertible v); [discriminate|].
  intro H. injection H as <-. reflexivity.
Qed.

Lemma conversion_is_TypeError : is_TypeError conversion_error.
Proof. eexists. reflexivity. Qed.

Lemma parse_fraction_throws (v : value) (e : exn) :
  parse_fraction v = Throw e -> e = conversion_error.
Proof.
  unfold parse_fraction. destruct v; try discriminate;
    apply parseFloat_throws.
Qed.

Lemma find_by_displayName_throws (id : string) (ents : list (string * value))
  (e : exn) :
  find_by_displayName id ents = Throw e -> is_TypeError e.
Proof.
  induction ents as [|[key entry] rest IH]; cbn [find_by_displayName];
    [discriminate|].
  destruct (JS.or _ _); try (intro H; injection H as <-; eexists; reflexivity).
  destruct (String.eqb _ _); [discriminate|exact IH].
Qed.

Lemma findModel_throws (models : value) (identifiers : list string) (e : exn) :
  findModel models identifiers = Throw e -> is_TypeError e.
Proof.
  induction identifiers as [|id rest IH]; cbn [findModel]; [discriminate|].
  destruct (JS.truthy _); [discriminate|]. unfold rbind.
  destruct (find_by_displayName id _) as [[m|]|e'] eqn:F; try discriminate.
  - exact IH.
  - intro H. injection H as <-. eapply find_by_displayName_throws. exact F.
Qed.

Lemma group_matches_throws (models : value) (identifiers : list string)
  (e : exn) :
  group_matches models identifiers = Throw e -> is_TypeError e.
Proof.
  induction identifiers as [|id rest IH]; cbn [group_matches]; [discriminate|].
  unfold rbind.
  destruct (findModel models [id]) as [m|e'] eqn:F.
  - destruct (group_matches models rest); [discriminate|].
    intro H. injection H as <-. apply IH. reflexivity.
  - intro H. injection H as <-. eapply findModel_throws. exact F.
Qed.

Lemma quotaEntries_throws (matches : list (string * value)) (e : exn) :
  quotaEntries_of matches = Throw e -> e = conversion_error.
Proof.
  unfold quotaEntries_of, rbind.
  destruct (map_entries matches) as [mapped|e'] eqn:E; [discriminate|].
  intro H. injection H as <-. revert E.
  induction matches as [|[id entry] rest IH]; cbn [map_entries];
    [discriminate|].
  unfold rbind.
  destruct (quota_entry_of (id, entry)) as [x|e''] eqn:Q.
  - destruct (map_entries rest); [discriminate|].
    intro H. injection H as <-. apply IH. reflexivity.
  - intro H. injection H as <-. unfold quota_entry_of, rbind in Q.
    destruct (parse_fraction _) as [parsed|e3] eqn:P; [discriminate|].
    injection Q as <-. eapply parse_fraction_throws. exact P.
Qed.

Lemma group_of_throws (models : value) (groupDef : modelGroup) (e : exn) :
  group_of models groupDef = Throw e -> is_TypeError e.
Proof.
  unfold group_of, rbind.
  destruct (group_matches models _) as [matches|e'] eqn:G.
  - destruct matches as [|m ms]; [discriminate|].
    destruct (quotaEntries_of (m :: ms)) as [[|x xs]|e'] eqn:Q;
      try discriminate.
    intro H. injection H as <-.
    rewrite (quotaEntries_throws _ _ Q). apply conversion_is_TypeError.
  - intro H. injection H as <-. eapply group_matches_throws. exact G.
Qed.

Lemma groups_of_throws (models : value) (defs : list modelGroup) (e : exn) :
  groups_of models defs = Throw e -> is_TypeError e.
Proof.
  induction defs as [|d defs IH]; cbn [groups_of]; [discriminate|].
  unfold rbind. destruct (group_of models d) as [g|e'] eqn:G.
  - destruct (groups_of models defs); [discriminate|].
    intro H. injection H as <-. apply IH. reflexivity.
  - intro H. injection H as <-. eapply group_of_throws. exact G.
Qed.

(** antigravityQuota.parse throws nothing but TypeErrors. *)
Lemma antigravity_parse_throws (data : value) (e : exn) :
  antigravityQuota_parse data = Throw e -> is_TypeError e.
Proof.
  unfold antigravityQuota_parse, rbind.
  destruct (JS.get data "models") as [raw|e'] eqn:G.
  - destruct (_ || _); [discriminate|].
    destruct (groups_of _ modelGroups) as [gs|e'] eqn:Gs; [discriminate|].
    intro H. injection H as <-. eapply groups_of_throws. exact Gs.
  - intro H. injection H as <-. eapply get_throws. exact G.
Qed.

Section ErrorThrows.

Variable fraction_to_string : Q -> string.
Variable JSON_stringify : value -> string.

Lemma resolveStatusCode_throws (r : ApiCallResponse) (e : exn) :
  resolveStatusCode r = Throw e -> e = conversion_error.
Proof.
  unfold resolveStatusCode, rbind.
  destruct (positive_finite (statusCode r)); [discriminate|].
  destruct (JS.get_opt (body r) "status") eqn:S; try discriminate;
    match goal with
    | |- match ?x with Ok _ => _ | Throw _ => _ end = _ -> _ =>
        destruct x eqn:P; [discriminate|]
    end;
    intro H; injection H as <-; eapply parseFloat_throws; exact P.
Qed.

Lemma createNon2xxError_throws (r : ApiCallResponse) (e : exn) :
  createNon2xxError fraction_to_string JSON_stringify r = Throw e ->
  e = conversion_error.
Proof.
  unfold createNon2xxError, formatNon2xxError, rbind.
  destruct (resolveStatusCode r) as [sc|e'] eqn:S; [discriminate|].
  intro H. injection H as <-. eapply resolveStatusCode_throws. exact S.
Qed.

End ErrorThrows.

Section LoopFacts.

Variable fraction_to_string : Q -> string.
Variable JSON_parse : string -> option value.
Variable JSON_stringify : value -> string.
Variable authFilesApi_download : list event -> value -> result string.
Variable request_post : list event -> ApiCallRequest -> result value.

Local Abbreviation call := (apiCallApi_request JSON_parse request_post).
Local Abbreviation attempt :=
  (antigravity_attempt fraction_to_string JSON_parse JSON_stringify
     request_post).
Local Abbreviation loop :=
  (antigravity_loop fraction_to_string JSON_parse JSON_stringify
     request_post).
Local Abbreviation succeeds := (attempt_succeeds JSON_parse request_post).
Local Abbreviation fails :=
  (attempt_fails fraction_to_string JSON_parse JSON_stringify request_post).
Local Abbreviation escapes :=
  (attempt_escapes fraction_to_string JSON_parse request_post).
Local Abbreviation statements :=
  (attempt_body fraction_to_string JSON_stringify).

(** apiCallApi.request posts exactly once, whatever it returns. *)
Lemma call_log (req : ApiCallRequest) (log : list event) :
  snd (call req log) = (log ++ [EvRequest req])%list.
Proof.
  unfold apiCallApi_request, bind, post, lift, ret.
  destruct (request_post log req) as [response|e]; [|reflexivity].
  destruct (JS.get response "status_code"); reflexivity.
Qed.

Lemma call_answer (req : ApiCallRequest) (log : list event) :
  call req log =
  (answer_of JSON_parse request_post log req, (log ++ [EvRequest req])%list).
Proof.
  unfold answer_of. rewrite <- call_log.
  destruct (call req log); reflexivity.
Qed.

Lemma attempt_log (req : ApiCallRequest) (log log' : list event)
  (x : outcome) :
  attempt req log = (x, log') -> log' = (log ++ [EvRequest req])%list.
Proof.
  unfold antigravity_attempt. rewrite call_answer.
  intro H. injection H as _ <-. reflexivity.
Qed.

(** The statements after the call, by cases. *)
Lemma statements_cases (r : ApiCallResponse) :
  (exists e, to_number (statusCode r) = Throw e /\ statements r = Throw e) \/
  (exists inside outside,
     is_2xx (statusCode r) = Ok inside /\
     not_2xx (statusCode r) = Ok outside /\
     statements r =
     if inside && JS.truthy (body r)
     then (d <- antigravityQuota_parse (body r) ;; Ok (inl d))%result
     else if outside
     then (e <- createNon2xxError fraction_to_string JSON_stringify r ;;
           Ok (inr e))%result
     else (message <- falsy_body_message fraction_to_string r ;;
           Ok (inr (Err message None)))%result).
Proof.
  unfold attempt_body, is_2xx, not_2xx, falsy_body_message, rbind.
  destruct (to_number (statusCode r)) as [n|e].
  - right. eexists _, _. repeat split.
  - left. exists e. split; reflexivity.
Qed.

Lemma statements_throw (r : ApiCallResponse) (e : exn) :
  statements r = Throw e -> is_TypeError e.
Proof.
  destruct (statements_cases r) as [(e' & T & ->) | (i & o & _ & _ & ->)].
  - intro H. injection H as <-. rewrite (to_number_throws _ _ T).
    apply conversion_is_TypeError.
  - unfold rbind, falsy_body_message.
    destruct (i && JS.truthy (body r)).
    + destruct (antigravityQuota_parse (body r)) as [d|e'] eqn:P;
        [discriminate|].
      intro H. injection H as <-. eapply antigravity_parse_throws. exact P.
    + destruct o.
      * destruct (createNon2xxError _ _ r) as [x|e'] eqn:C; [discriminate|].
        intro H. injection H as <-.
        rewrite (createNon2xxError_throws _ _ _ _ C).
        apply conversion_is_TypeError.
      * destruct (JS.truthy (bodyText r)).
        -- destruct (to_string _ (bodyText r)) as [x|e'] eqn:T;
             [discriminate|].
           intro H. injection H as <-. rewrite (to_string_throws _ _ _ T).
           apply conversion_is_TypeError.
        -- unfold rbind.
           destruct (to_string _ (statusCode r)) as [x|e'] eqn:T;
             [discriminate|].
           intro H. injection H as <-. rewrite (to_string_throws _ _ _ T).
           apply conversion_is_TypeError.
Qed.

(** One iteration, by cases on what the call answers. *)
Lemma attempt_unfold (req : ApiCallRequest) (log : list event) :
  attempt req log =
  (match answer_of JSON_parse request_post log req with
   | Ok r =>
       match statements r with
       | Ok (inl d) => Returned d
       | Ok (inr e) => Failed e
       | Throw e => Failed e
       end
   | Throw error =>
       match as_error fraction_to_string error with
       | Ok e => Failed e
       | Throw e => Escaped e
       end
   end, (log ++ [EvRequest req])%list).
Proof.
  unfold antigravity_attempt. rewrite call_answer. f_equal.
  destruct (answer_of _ _ log req) as [r|error]; [|reflexivity].
  cbn [rbind]. destruct (statements r) as [[d|e]|e] eqn:S; try reflexivity.
  destruct (statements_throw r e S) as (m & ->). reflexivity.
Qed.

Lemma attempt_success (req : ApiCallRequest) (log log' : list event)
  (d : Antigravity.data) :
  attempt req log = (Returned d, log') <->
  succeeds log req d /\ log' = (log ++ [EvRequest req])%list.
Proof.
  rewrite attempt_unfold. unfold attempt_succeeds. split.
  - intro H. injection H as H <-. split; [|reflexivity].
    destruct (answer_of _ _ log req) as [r|error] eqn:E.
    + exists r. split; [reflexivity|].
      destruct (statements_cases r) as [(e & _ & S) | (i & o & I & O & S)];
        rewrite S in H; [discriminate|].
      destruct i; cbn [andb] in H.
      * destruct (JS.truthy (body r)) eqn:T.
        -- unfold rbind in H.
           destruct (antigravityQuota_parse (body r)) as [d'|];
             [|discriminate].
           injection H as <-. auto.
        -- exfalso. destruct o; unfold rbind in H.
           ++ destruct (createNon2xxError _ _ r); discriminate.
           ++ destruct (falsy_body_message _ r); discriminate.
      * exfalso. destruct o; unfold rbind in H.
        -- destruct (createNon2xxError _ _ r); discriminate.
        -- destruct (falsy_body_message _ r); discriminate.
    + destruct (as_error _ error); discriminate.
  - intros [(r & E & I & T & P) ->]. rewrite E. f_equal.
    destruct (statements_cases r) as [(e & Hn & _) | (i & o & I' & _ & S)].
    + unfold is_2xx, rbind in I. rewrite Hn in I. discriminate.
    + rewrite S. rewrite I in I'. injection I' as <-.
      rewrite T, P. reflexivity.
Qed.

Lemma attempt_failure (req : ApiCallRequest) (log log' : list event)
  (e : exn) :
  attempt req log = (Failed e, log') ->
  fails log req e /\ log' = (log ++ [EvRequest req])%list.
Proof.
  rewrite attempt_unfold. intro H. injection H as H <-. split; [|reflexivity].
  destruct (answer_of _ _ log req) as [r|error] eqn:E.
  - destruct (statements_cases r) as [(e' & Hn & S) | (i & o & I & O & S)];
      rewrite S in H.
    + injection H as <-. eapply fails_status_conversion; eassumption.
    + destruct (i && JS.truthy (body r)) eqn:C.
      * apply andb_true_iff in C as [-> T]. unfold rbind in H.
        destruct (antigravityQuota_parse (body r)) as [d|e'] eqn:P;
          [discriminate|].
        injection H as <-. eapply fails_parse; eassumption.
      * destruct o; unfold rbind in H.
        -- destruct (createNon2xxError _ _ r) as [x|e'] eqn:N;
             injection H as <-.
           ++ eapply fails_non_2xx; eassumption.
           ++ eapply fails_error_conversion; eassumption.
        -- destruct (falsy_body_message _ r) as [message|e'] eqn:M;
             injection H as <-.
           ++ eapply fails_falsy_body; eassumption.
           ++ eapply fails_text_conversion; eassumption.
  - destruct (as_error _ error) as [e'|] eqn:A; [|discriminate].
    injection H as <-. eapply fails_transport; eassumption.
Qed.

Lemma attempt_escape (req : ApiCallRequest) (log log' : list event)
  (e : exn) :
  attempt req log = (Escaped e, log') <->
  escapes log req e /\ log' = (log ++ [EvRequest req])%list.
Proof.
  rewrite attempt_unfold. unfold attempt_escapes. split.
  - intro H. injection H as H <-. split; [|reflexivity].
    destruct (answer_of _ _ log req) as [r|error] eqn:E.
    + destruct (statements r) as [[d|x]|x]; discriminate.
    + destruct error as [m sc|m|v]; try discriminate.
      exists v. split; [reflexivity|].
      cbn [as_error rbind] in H.
      destruct (to_string _ v) as [text|e']; [discriminate|].
      injection H as <-. reflexivity.
  - intros [(v & E & T) ->]. rewrite E. cbn [as_error rbind]. rewrite T.
    reflexivity.
Qed.

(** The loop after attempts that all fail. *)
Lemma loop_after_failures (mk : string -> ApiCallRequest)
  (pre : list string) :
  forall rest lastError log last' log',
  failed_attempts fraction_to_string JSON_parse JSON_stringify request_post
    mk pre lastError log = Some (last', log') ->
  loop mk (pre ++ rest)%list lastError log = loop mk rest last' log' /\
  log' = (log ++ requests_for mk pre)%list.
Proof.
  induction pre as [|url pre IH]; intros rest lastError log last' log' H.
  - injection H as <- <-. split; [reflexivity|].
    unfold requests_for. cbn. rewrite app_nil_r. reflexivity.
  - cbn [failed_attempts] in H. cbn [app antigravity_loop].
    destruct (attempt (mk url) log) as [[d|e|e] log1] eqn:A;
      try discriminate.
    destruct (IH rest (Some e) log1 last' log' H) as [IH1 IH2].
    split; [exact IH1|].
    rewrite IH2, (attempt_log _ _ _ _ A). unfold requests_for. cbn [map].
    rewrite <- app_assoc. reflexivity.
Qed.

Lemma downloadAuthFileJson_total (fileName : value) (log : list event) :
  exists v,
    downloadAuthFileJson JSON_parse authFilesApi_download fileName log =
    (Ok v, (log ++ [EvDownload fileName])%list).
Proof.
  unfold downloadAuthFileJson, download.
  destruct (authFilesApi_download log fileName) as [text|e].
  - destruct (Str.is_empty (Str.trim text)); [eexists; reflexivity|].
    destruct (JSON_parse (Str.trim text)); eexists; reflexivity.
  - eexists; reflexivity.
Qed.

(** The project id is always resolved, after exactly one download. *)
Lemma resolveAntigravityProjectId_total (fileName : value)
  (log : list event) :
  exists projectId,
    resolveAntigravityProjectId JSON_parse authFilesApi_download fileName log
    = (Ok projectId, (log ++ [EvDownload fileName])%list).
Proof.
  unfold resolveAntigravityProjectId, bind.
  destruct (downloadAuthFileJson_total fileName log) as (v & ->).
  destruct (_ || _); [eexists; reflexivity|].
  destruct (trimmed_string (project_id_of v)); [eexists; reflexivity|].
  match goal with
  | |- context [match ?x with Some _ => _ | None => _ end] => destruct x
  end; [eexists; reflexivity|].
  match goal with
  | |- context [match ?x with Some _ => _ | None => _ end] => destruct x
  end; eexists; reflexivity.
Qed.

Lemma antigravity_fetch_unfold (file authIndex : value) (projectId : string)
  (log log0 : list event) :
  authIndex_of file = Ok authIndex ->
  resolveAntigravityProjectId JSON_parse authFilesApi_download
    (JS.get_opt file "name") log = (Ok projectId, log0) ->
  antigravityQuota_fetch fraction_to_string JSON_parse JSON_stringify
    authFilesApi_download request_post file log =
  loop
    (antigravity_request authIndex
       (JSON_stringify (VObj [("project", VStr projectId)])))
    antigravity_URLS None log0.
Proof.
  intros Ha Hr. unfold antigravityQuota_fetch, bind, lift.
  rewrite Ha, Hr. reflexivity.
Qed.

(** C4 (amended).  antigravityQuota.fetch tries its three URLs in list
    order.  An attempt succeeds when the answer has a status in [200,300)
    and a parsed body that is truthy and whose parse does not throw; the
    first attempt that succeeds is returned at once, with no request for
    a later URL.  An attempt fails on a transport error, on a status
    outside [200,300), on a body that is not truthy, on an exception of
    the parse and on a TypeError of a conversion (of the status, of the
    status of the body or of the body text), each of which is caught and
    leaves its error in lastError.  When all three attempts fail, the
    error of the last one is thrown.  One thing ends the fetch at once:
    a call that throws a value that is not an Error and that String
    cannot convert. *)
Theorem antigravity_fetch_in_order (file authIndex : value)
  (projectId : string) (log log0 : list event) :
  authIndex_of file = Ok authIndex ->
  resolveAntigravityProjectId JSON_parse authFilesApi_download
    (JS.get_opt file "name") log = (Ok projectId, log0) ->
  let mk :=
    antigravity_request authIndex
      (JSON_stringify (VObj [("project", VStr projectId)])) in
  let fetch :=
    antigravityQuota_fetch fraction_to_string JSON_parse JSON_stringify
      authFilesApi_download request_post file log in
  let failed :=
    failed_attempts fraction_to_string JSON_parse JSON_stringify
      request_post mk in
  List.length antigravity_URLS = 3%nat /\
  (forall pre url post last log1 d log2,
     antigravity_URLS = (pre ++ url :: post)%list ->
     failed pre None log0 = Some (last, log1) ->
     attempt (mk url) log1 = (Returned d, log2) ->
     fetch = (Ok d, log2) /\
     log2 = (log0 ++ requests_for mk (pre ++ [url]))%list) /\
  (forall pre url last log1 e log2,
     antigravity_URLS = (pre ++ [url])%list ->
     failed pre None log0 = Some (last, log1) ->
     attempt (mk url) log1 = (Failed e, log2) ->
     fetch = (Throw e, log2) /\
     log2 = (log0 ++ requests_for mk antigravity_URLS)%list) /\
  (forall pre url post last log1 e log2,
     antigravity_URLS = (pre ++ url :: post)%list ->
     failed pre None log0 = Some (last, log1) ->
     attempt (mk url) log1 = (Escaped e, log2) ->
     fetch = (Throw e, log2) /\
     log2 = (log0 ++ requests_for mk (pre ++ [url]))%list) /\
  (forall req log1 d log2,
     attempt req log1 = (Returned d, log2) <->
     succeeds log1 req d /\ log2 = (log1 ++ [EvRequest req])%list) /\
  (forall req log1 e log2,
     attempt req log1 = (Failed e, log2) ->
     fails log1 req e /\ log2 = (log1 ++ [EvRequest req])%list) /\
  (forall req log1 e log2,
     attempt req log1 = (Escaped e, log2) <->
     escapes log1 req e /\ log2 = (log1 ++ [EvRequest req])%list).
Proof.
  intros Ha Hr mk fetch failed.
  assert (Hf : fetch = loop mk antigravity_URLS None log0)
    by (apply antigravity_fetch_unfold; assumption).
  split; [reflexivity|]. split; [|split; [|split; [|split; [|split]]]].
  - intros pre url post last log1 d log2 Hu Hp Hs.
    rewrite Hf, Hu.
    destruct (loop_after_failures mk pre (url :: post) None log0 last log1 Hp)
      as [-> ->].
    cbn [antigravity_loop]. rewrite Hs. split; [reflexivity|].
    rewrite (attempt_log _ _ _ _ Hs). unfold requests_for.
    rewrite map_app, app_assoc. reflexivity.
  - intros pre url last log1 e log2 Hu Hp He.
    rewrite Hf, Hu.
    destruct (loop_after_failures mk pre [url] None log0 last log1 Hp)
      as [-> ->].
    cbn [antigravity_loop]. rewrite He. split; [reflexivity|].
    rewrite (attempt_log _ _ _ _ He). unfold requests_for.
    rewrite map_app, app_assoc. reflexivity.
  - intros pre url post last log1 e log2 Hu Hp He.
    rewrite Hf, Hu.
    destruct (loop_after_failures mk pre (url :: post) None log0 last log1 Hp)
      as [-> ->].
    cbn [antigravity_loop]. rewrite He. split; [reflexivity|].
    rewrite (attempt_log _ _ _ _ He). unfold requests_for.
    rewrite map_app, app_assoc. reflexivity.
  - intros. apply attempt_success.
  - intros. apply attempt_failure. assumption.
  - intros. apply attempt_escape.
Qed.

End LoopFacts.

(** Two answers 500 and then a 200 with a valid body: the result is the
    parse of the third answer, after three requests. *)
Lemma antigravity_fetch_in_order_witness :
  fst (ExampleFetch.fetch ExampleFetch.third_succeeds) =
    antigravityQuota_parse ExampleAntigravity.answer /\
  ExampleFetch.requested_urls
    (snd (ExampleFetch.fetch ExampleFetch.third_succeeds)) =
    [ExampleFetch.url1; ExampleFetch.url2; ExampleFetch.url3].
Proof.
  destruct (antigravity_fetch_in_order Example.fraction_to_string Json.parse
              Example.JSON_stringify ExampleFetch.no_download
              ExampleFetch.third_succeeds ExampleFetch.file (VStr "a1b2")
              DEFAULT_ANTIGRAVITY_PROJECT_ID []
              [EvDownload (VStr "antigravity-user.json")] eq_refl eq_refl)
    as (_ & A & _).
  edestruct (A [ExampleFetch.url1; ExampleFetch.url2] ExampleFetch.url3 [])
    as [E1 E2]; [reflexivity | vm_compute; reflexivity
                | vm_compute; reflexivity |].
  unfold ExampleFetch.fetch, run. rewrite E1. split; reflexivity.
Defined.

(** C4 as stated fails when the parse throws: the first URL answers 200
    with a non-empty body, yet a second URL is requested and it is the
    second answer that is returned. *)
Lemma parse_exception_counterexample :
  let first := ExampleFetch.normalised 200 ExampleFetch.odd_models in
  fst (ExampleFetch.call ExampleFetch.odd_then_good
         (ExampleFetch.request_to ExampleFetch.url1)
         [EvDownload (VStr "antigravity-user.json")]) = Ok first /\
  is_2xx (statusCode first) = Ok true /\
  JS.truthy (body first) = true /\
  antigravityQuota_parse (body first) =
    Throw (TypeErr "displayName.toLowerCase is not a function") /\
  ExampleFetch.requested_urls
    (snd (ExampleFetch.fetch ExampleFetch.odd_then_good)) =
    [ExampleFetch.url1; ExampleFetch.url2] /\
  fst (ExampleFetch.fetch ExampleFetch.odd_then_good) =
    antigravityQuota_parse ExampleAntigravity.answer.
Proof. repeat split; vm_compute; reflexivity. Qed.

(** A body is empty for the loop when what it parses to is falsy: the
    first URL answers 200 with the body text 0, which is not empty, and a
    second URL is requested. *)
Example falsy_body_is_retried :
  let first := ExampleFetch.normalised 200 (Example.num 0) in
  fst (ExampleFetch.call ExampleFetch.zero_then_good
         (ExampleFetch.request_to ExampleFetch.url1)
         [EvDownload (VStr "antigravity-user.json")]) = Ok first /\
  bodyText first = VStr "0" /\
  is_2xx (statusCode first) = Ok true /\
  JS.truthy (body first) = false /\
  ExampleFetch.requested_urls
    (snd (ExampleFetch.fetch ExampleFetch.zero_then_good)) =
    [ExampleFetch.url1; ExampleFetch.url2] /\
  fst (ExampleFetch.fetch ExampleFetch.zero_then_good) =
    antigravityQuota_parse ExampleAntigravity.answer.
Proof. repeat split; vm_compute; reflexivity. Qed.

(** ** The dispatch facade *)

Section DispatchFacts.

Variable fraction_to_string : Q -> string.
Variable JSON_parse : string -> option value.
Variable JSON_stringify : value -> string.
Variable Date_now : nat -> number.
Variable authFilesApi_download : list event -> value -> result string.
Variable request_post : list event -> ApiCallRequest -> result value.

Local Abbreviation dispatch :=
  (fetchQuotaByType fraction_to_string JSON_parse JSON_stringify Date_now
     authFilesApi_download request_post).

Lemma type_of_text_file (file : value) :
  type_is_text file = true -> type_of_file file = Ok (descriptor_type file).
Proof.
  unfold type_is_text, type_of_file, descriptor_type. intro H.
  apply andb_true_iff in H as [Hn Ht]. apply negb_true_iff in Hn.
  rewrite (get_not_nullish _ _ Hn). cbn [rbind]. unfold JS.or.
  destruct (JS.get_opt file "type") as [| |b|n|s| |]; try discriminate Ht;
    cbn [JS.is_string orb] in Ht; try reflexivity.
  - apply negb_true_iff in Ht. rewrite Ht. reflexivity.
  - apply negb_true_iff in Ht. rewrite Ht. reflexivity.
  - destruct (JS.truthy (VStr s)) eqn:T; [reflexivity|].
    destruct s; [reflexivity|discriminate].
Qed.

Lemma type_of_other_file (file : value) :
  type_is_text file = false -> exists m, type_of_file file = Throw (TypeErr m).
Proof.
  unfold type_is_text, type_of_file, JS.get. intro H.
  destruct (JS.nullish file) eqn:Hn; [eexists; reflexivity|].
  cbn [negb andb rbind] in *. unfold JS.or.
  destruct (JS.get_opt file "type") as [| |b|n|s| |]; try discriminate H;
    cbn [JS.is_string orb] in H; apply negb_false_iff in H;
    rewrite ?H; try (eexists; reflexivity).
Qed.

Lemma handle_of_file (file : value) :
  JS.nullish file = false -> authIndex_of file = Ok (handle_of file).
Proof.
  intro H. unfold authIndex_of, handle_of.
  rewrite (get_not_nullish _ _ H). reflexivity.
Qed.

(** C5 (amended).  fetchQuotaByType lower-cases [file.type || ''] first:
    a file that is null or undefined, and a type that is truthy and not a
    string, reject with a TypeError and without any collaborator call.
    Otherwise it rejects with "Missing authIndex", again without any
    call, when [authIndex || auth_index] is falsy.  Otherwise it routes
    on the lower-cased type by exact match: "antigravity", "gemini-cli"
    and "codex" give the result of the resolver of that name, wrapped
    with the type, and every other type is rejected with
    "Unsupported type: <type>". *)
Theorem fetchQuotaByType_dispatch (file : value) (log : list event) :
  let t := descriptor_type file in
  let fetched := dispatch file log in
  (type_is_text file = false ->
   exists m, fetched = (Throw (TypeErr m), log)) /\
  (type_is_text file = true ->
   (JS.truthy (handle_of file) = false ->
    fetched = (Throw (Err "Missing authIndex" None), log)) /\
   (JS.truthy (handle_of file) = true ->
    (t = "antigravity" ->
     fetched =
     wrap "antigravity" AntigravityData
       (antigravityQuota_fetch fraction_to_string JSON_parse JSON_stringify
          authFilesApi_download request_post file log)) /\
    (t = "gemini-cli" ->
     fetched =
     wrap "gemini-cli" GeminiCliData
       (geminiCliQuota_fetch fraction_to_string JSON_parse JSON_stringify
          authFilesApi_download request_post file log)) /\
    (t = "codex" ->
     fetched =
     wrap "codex" CodexData
       (codexQuota_fetch fraction_to_string JSON_parse JSON_stringify Date_now
          authFilesApi_download request_post file log)) /\
    (t <> "antigravity" -> t <> "gemini-cli" -> t <> "codex" ->
     fetched = (Throw (Err ("Unsupported type: " ++ t) None), log) /\
     contains "Unsupported type" ("Unsupported type: " ++ t)))).
Proof.
  cbv zeta. unfold fetchQuotaByType, bind, lift. split.
  - intro H. destruct (type_of_other_file file H) as (m & ->).
    exists m. reflexivity.
  - intro Hd. rewrite (type_of_text_file file Hd).
    assert (Hn : JS.nullish file = false).
    { unfold type_is_text in Hd. apply andb_true_iff in Hd as [Hn _].
      apply negb_true_iff in Hn. exact Hn. }
    rewrite (handle_of_file file Hn).
    generalize (descriptor_type file). intro t. split.
    + intros ->. reflexivity.
    + intros ->. cbn [negb]. repeat split.
      * intros ->. cbn [String.eqb Ascii.eqb Bool.eqb]. unfold wrap, ret.
        match goal with
        | |- context [antigravityQuota_fetch ?a ?b ?c ?d ?e ?f ?g] =>
            destruct (antigravityQuota_fetch a b c d e f g) as [[x|x] l]
        end; reflexivity.
      * intros ->. cbn [String.eqb Ascii.eqb Bool.eqb]. unfold wrap, ret.
        match goal with
        | |- context [geminiCliQuota_fetch ?a ?b ?c ?d ?e ?f ?g] =>
            destruct (geminiCliQuota_fetch a b c d e f g) as [[x|x] l]
        end; reflexivity.
      * intros ->. cbn [String.eqb Ascii.eqb Bool.eqb]. unfold wrap, ret.
        match goal with
        | |- context [codexQuota_fetch ?a ?b ?c ?d ?e ?f ?g ?h] =>
            destruct (codexQuota_fetch a b c d e f g h) as [[x|x] l]
        end; reflexivity.
      * apply String.eqb_neq in H, H0, H1. rewrite H, H0, H1. reflexivity.
      * exists "", (": " ++ t). reflexivity.
Qed.

End DispatchFacts.

(** A Codex file without a handle is rejected before any call, and a file
    of an unknown type with a handle is rejected as unsupported. *)
Lemma fetchQuotaByType_dispatch_witness :
  ExampleDispatch.dispatch ExampleDispatch.codex_without_handle =
    (Throw (Err "Missing authIndex" None), []) /\
  ExampleDispatch.dispatch ExampleDispatch.unknown_type =
    (Throw (Err "Unsupported type: unknown-type" None), []).
Proof.
  split.
  - destruct (fetchQuotaByType_dispatch Example.fraction_to_string Json.parse
                Example.JSON_stringify Example.Date_now
                ExampleFetch.no_download ExampleDispatch.no_request
                ExampleDispatch.codex_without_handle []) as (_ & H).
    destruct (H eq_refl) as (H' & _). exact (H' eq_refl).
  - destruct (fetchQuotaByType_dispatch Example.fraction_to_string Json.parse
                Example.JSON_stringify Example.Date_now
                ExampleFetch.no_download ExampleDispatch.no_request
                ExampleDispatch.unknown_type []) as (_ & H).
    destruct (H eq_refl) as (_ & H').
    destruct (H' eq_refl) as (_ & _ & _ & U).
    destruct U as (U & _); [discriminate ..|]. exact U.
Defined.

(** No part of a string of this length or less is the string
    "Unsupported type". *)
Ltac no_occurrence E :=
  repeat match type of E with
         | _ = (?b ++ _)%string =>
             destruct b; cbn [append] in E;
             [discriminate E | first [discriminate E | injection E as _ E]]
         end.

(** C5 as stated fails on a file whose type is a number.  Without a
    handle it is rejected with a TypeError and not with
    "Missing authIndex"; with a handle it is rejected with the same
    TypeError, whose message has no "Unsupported type".  It fails too on
    a handle that is the number 0, which is there and is not empty: the
    Codex file is rejected with "Missing authIndex". *)
Lemma non_string_type_counterexample :
  handle_absent ExampleDispatch.numeric_type = true /\
  ExampleDispatch.dispatch ExampleDispatch.numeric_type =
    (Throw (TypeErr "toLowerCase is not a function"), []) /\
  handle_of ExampleDispatch.numeric_type_with_handle = VStr "x" /\
  ExampleDispatch.dispatch ExampleDispatch.numeric_type_with_handle =
    (Throw (TypeErr "toLowerCase is not a function"), []) /\
  (contains "Unsupported type" "toLowerCase is not a function" -> False) /\
  handle_absent ExampleDispatch.zero_handle = false /\
  handle_of ExampleDispatch.zero_handle = Example.num 0 /\
  ExampleDispatch.dispatch ExampleDispatch.zero_handle =
    (Throw (Err "Missing authIndex" None), []).
Proof.
  repeat split; try (vm_compute; reflexivity).
  intros (before & after & E). no_occurrence E.
Qed.

(** ** The project id of a Gemini CLI account *)

Lemma span_sound (p : ascii -> bool) (s : string) :
  forall g rest, Str.span p s = (g, rest) ->
  s = g ++ rest /\ all_chars p g = true /\
  match rest with
  | String c _ => p c = false
  | EmptyString => True
  end.
Proof.
  induction s as [|c r IH]; intros g rest H; cbn [Str.span] in H.
  - injection H as <- <-. auto.
  - destruct (p c) eqn:E.
    + destruct (Str.span p r) as [a b]. injection H as <- <-.
      destruct (IH a b eq_refl) as (-> & Ha & Hb).
      cbn. rewrite E, Ha. auto.
    + injection H as <- <-. cbn. auto.
Qed.

Lemma span_app (p : ascii -> bool) (g : string) (c : ascii) (after : string) :
  all_chars p g = true -> p c = false ->
  Str.span p (g ++ String c after) = (g, String c after).
Proof.
  intros Hg Hc. induction g as [|x g IH]; cbn.
  - rewrite Hc. reflexivity.
  - cbn in Hg. apply andb_true_iff in Hg as [Hx Hg].
    rewrite Hx, (IH Hg). reflexivity.
Qed.

(** The test that match_paren_group makes after an opening
    parenthesis. *)
Lemma group_here_test (r g : string) :
  (let (g', rest) := Str.span (fun x => negb (is_paren x)) r in
   match rest with
   | String ")" _ => if Str.is_empty g' then None else Some g'
   | _ => None
   end) = Some g <-> group_here (String "(" r) g.
Proof.
  split.
  - destruct (Str.span _ r) as [g' rest] eqn:E.
    destruct (span_sound _ _ _ _ E) as (-> & Hg & _).
    destruct rest as [|c rest]; [discriminate|].
    destruct (Ascii.eqb_spec c ")") as [-> | Hc].
    + destruct g' as [|x g']; cbn; [discriminate|].
      intro H. injection H as <-.
      exists rest. repeat split; [discriminate|exact Hg].
    + intro H. exfalso.
      destruct c as [[] [] [] [] [] [] [] []]; try discriminate H.
      apply Hc. reflexivity.
  - intros (after & E & Hne & Hg). injection E as ->.
    unfold paren_free in Hg. rewrite (span_app _ g ")" after Hg eq_refl).
    destruct g; [congruence|reflexivity].
Qed.

Lemma group_here_open (c : ascii) (r g : string) :
  group_here (String c r) g -> c = "("%char.
Proof. intros (after & E & _). injection E as -> _. reflexivity. Qed.

Lemma group_here_unique (s g g' : string) :
  group_here s g -> group_here s g' -> g = g'.
Proof.
  intros H H'. destruct s as [|c r]; [destruct H as (? & E & _); discriminate|].
  pose proof (group_here_open _ _ _ H) as ->.
  apply group_here_test in H, H'. congruence.
Qed.

Lemma match_paren_group_step (c : ascii) (r : string) :
  match_paren_group (String c r) =
  if Ascii.eqb c "(" then
    match (let (g, rest) := Str.span (fun x => negb (is_paren x)) r in
           match rest with
           | String ")" _ => if Str.is_empty g then None else Some g
           | _ => None
           end) with
    | Some g => Some g
    | None => match_paren_group r
    end
  else match_paren_group r.
Proof.
  cbn [match_paren_group]. destruct (Ascii.eqb c "("); [|reflexivity].
  destruct (Str.span _ r) as [g rest].
  destruct rest as [|x rest]; [reflexivity|].
  destruct x as [[] [] [] [] [] [] [] []]; try reflexivity.
  destruct (Str.is_empty g); reflexivity.
Qed.

(** The capture of the regular expression is the first group. *)
Lemma match_paren_group_first (s g : string) :
  match_paren_group s = Some g <-> first_group s g.
Proof.
  split.
  - revert g. induction s as [|c r IH]; intros g H; [discriminate|].
    rewrite match_paren_group_step in H.
    destruct (Ascii.eqb_spec c "(") as [-> | Hc].
    + match type of H with
      | match ?t with Some _ => _ | None => _ end = _ =>
          destruct t as [g0|] eqn:T
      end.
      * injection H as <-. apply first_group_here.
        apply group_here_test. exact T.
      * apply first_group_later; [|apply IH; exact H].
        intros g' Hg'. apply group_here_test in Hg'. congruence.
    + apply first_group_later; [|apply IH; exact H].
      intros g' Hg'. apply Hc. eapply group_here_open. exact Hg'.
  - induction 1 as [s g Hg | c r g Hno Hf IH].
    + destruct s as [|c r]; [destruct Hg as (? & E & _); discriminate|].
      pose proof (group_here_open _ _ _ Hg) as ->.
      rewrite match_paren_group_step. cbn [Ascii.eqb Bool.eqb].
      apply group_here_test in Hg. rewrite Hg. reflexivity.
    + rewrite match_paren_group_step.
      destruct (Ascii.eqb_spec c "(") as [-> | Hc]; [|exact IH].
      match goal with
      | |- match ?t with Some _ => _ | None => _ end = _ =>
          destruct t as [g0|] eqn:T
      end; [|exact IH].
      exfalso. apply (Hno g0). apply group_here_test. exact T.
Qed.

(** The match is null exactly when the string has no group. *)
Lemma match_paren_group_none (s : string) :
  match_paren_group s = None <-> ~ has_group s.
Proof.
  split.
  - intros H Hg. induction Hg as [s g Hg | c r Hg IH].
    + assert (F : first_group s g) by (apply first_group_here; exact Hg).
      apply match_paren_group_first in F. congruence.
    + apply IH. rewrite match_paren_group_step in H.
      destruct (Ascii.eqb c "("); [|exact H].
      match type of H with
      | match ?t with Some _ => _ | None => _ end = _ => destruct t
      end; [discriminate|exact H].
  - intro H. induction s as [|c r IH]; [reflexivity|].
    rewrite match_paren_group_step.
    assert (Hr : match_paren_group r = None)
      by (apply IH; intro G; apply H; apply has_group_later; exact G).
    destruct (Ascii.eqb_spec c "(") as [-> | Hc]; [|exact Hr].
    match goal with
    | |- match ?t with Some _ => _ | None => _ end = _ =>
        destruct t as [g0|] eqn:T
    end; [|exact Hr].
    exfalso. apply H. apply (has_group_here _ g0).
    apply group_here_test. exact T.
Qed.

Section GeminiProjectFacts.

Variable fraction_to_string : Q -> string.
Variable JSON_parse : string -> option value.
Variable JSON_stringify : value -> string.
Variable authFilesApi_download : list event -> value -> result string.
Variable request_post : list event -> ApiCallRequest -> result value.

Local Abbreviation downloaded :=
  (downloadAuthFileJson JSON_parse authFilesApi_download).
Local Abbreviation resolve :=
  (resolveGeminiCliProjectId JSON_parse authFilesApi_download).

Lemma downloaded_null (fileName : value) (log log' : list event)
  (parsed : value) :
  downloaded fileName log = (Ok parsed, log') ->
  (forall e, authFilesApi_download log fileName = Throw e -> parsed = VNull) /\
  (forall text, authFilesApi_download log fileName = Ok text ->
     JSON_parse (Str.trim text) = None -> parsed = VNull).
Proof.
  unfold downloadAuthFileJson, download. intro H. split.
  - intros e E. rewrite E in H. injection H as <- _. reflexivity.
  - intros text E P. rewrite E in H.
    destruct (Str.is_empty (Str.trim text)).
    + injection H as <- _. reflexivity.
    + rewrite P in H. injection H as <- _. reflexivity.
Qed.

Lemma geminiCli_fetch_log (file authIndex : value) (r : option string)
  (log log' : list event) :
  authIndex_of file = Ok authIndex ->
  resolve (JS.get_opt file "name") log = (Ok r, log') ->
  snd (geminiCliQuota_fetch fraction_to_string JSON_parse JSON_stringify
         authFilesApi_download request_post file log) =
  (log' ++ [EvRequest (geminiCli_request JSON_stringify authIndex r)])%list.
Proof.
  intros Ha Hr. unfold geminiCliQuota_fetch, bind, lift.
  rewrite Ha, Hr.
  match goal with
  | |- context [apiCallApi_request ?p ?o ?q ?l] =>
      pose proof (call_log p o q l) as L;
      destruct (apiCallApi_request p o q l) as [[resp|e] l']
  end; cbn [snd] in L; subst; [|reflexivity].
  destruct (not_2xx (statusCode resp)) as [[|]|]; try reflexivity.
  cbn [fst snd]. destruct (createNon2xxError _ _ resp); reflexivity.
Qed.

(** C6 (amended).  resolveGeminiCliProjectId reads the [account] string
    of the credential file and, when the string has parenthesised groups,
    returns the text of the first one (the leftmost non-empty group
    without nested parentheses).  It returns null when the file is not an
    object, when [account] is not a string, when the string has no group,
    and when the download or the parse fails.  geminiCliQuota.fetch then
    sends a body that is the empty object, without a [project] field. *)
Theorem geminiCli_project_id_first_group (fileName : value)
  (log log' : list event) (parsed : value) :
  downloaded fileName log = (Ok parsed, log') ->
  let resolved := resolve fileName log in
  (forall account,
     object_like parsed = true ->
     JS.get_opt parsed "account" = VStr account ->
     exists r,
       resolved = (Ok r, log') /\
       (forall g, r = Some g <-> first_group account g) /\
       (r = None <-> ~ has_group account)) /\
  (object_like parsed = false \/
   JS.is_string (JS.get_opt parsed "account") = false ->
   resolved = (Ok None, log')) /\
  (forall e, authFilesApi_download log fileName = Throw e -> parsed = VNull) /\
  (forall text, authFilesApi_download log fileName = Ok text ->
     JSON_parse (Str.trim text) = None -> parsed = VNull) /\
  (forall file authIndex r,
     fileName = JS.get_opt file "name" ->
     authIndex_of file = Ok authIndex ->
     resolved = (Ok r, log') ->
     snd (geminiCliQuota_fetch fraction_to_string JSON_parse JSON_stringify
            authFilesApi_download request_post file log) =
     (log' ++ [EvRequest (geminiCli_request JSON_stringify authIndex r)])%list
     /\
     req_data (geminiCli_request JSON_stringify authIndex r) =
     Some (JSON_stringify (geminiCli_body r)) /\
     (r = None -> geminiCli_body r = VObj [])).
Proof.
  intros Hd resolved.
  assert (Hres : resolved =
            (if negb (JS.truthy parsed) || negb (JS.is_object_type parsed)
             then (Ok None, log')
             else match JS.get_opt parsed "account" with
                  | VStr account => (Ok (match_paren_group account), log')
                  | _ => (Ok None, log')
                  end)).
  { subst resolved. unfold resolveGeminiCliProjectId, bind. rewrite Hd.
    destruct (_ || _); [reflexivity|].
    destruct (JS.get_opt parsed "account"); reflexivity. }
  split; [|split; [|split; [|split]]].
  - intros account Ho Ha. exists (match_paren_group account).
    rewrite Hres, Ha. unfold object_like in Ho.
    apply andb_true_iff in Ho as [-> ->]. split; [reflexivity|]. split.
    + intro g. apply match_paren_group_first.
    + apply match_paren_group_none.
  - intros [Ho | Hs]; rewrite Hres.
    + unfold object_like in Ho.
      destruct (JS.truthy parsed), (JS.is_object_type parsed);
        try discriminate; reflexivity.
    + destruct (_ || _); [reflexivity|].
      destruct (JS.get_opt parsed "account"); try reflexivity; discriminate.
  - apply (downloaded_null _ _ _ _ Hd).
  - apply (downloaded_null _ _ _ _ Hd).
  - intros file authIndex r -> Ha Hr. split; [|split].
    + apply geminiCli_fetch_log; assumption.
    + reflexivity.
    + intros ->. reflexivity.
Qed.

End GeminiProjectFacts.

(** An account with two groups resolves to its first group. *)
Lemma geminiCli_project_id_first_group_witness :
  exists r,
    ExampleGemini.resolve = (Ok r, [EvDownload (VStr "gemini-dev.json")]) /\
    (forall g, r = Some g <-> first_group ExampleGemini.account g) /\
    (r = None <-> ~ has_group ExampleGemini.account).
Proof.
  refine (proj1 (geminiCli_project_id_first_group Example.fraction_to_string
            Json.parse Example.JSON_stringify ExampleGemini.stored
            ExampleDispatch.no_request (VStr "gemini-dev.json") []
            [EvDownload (VStr "gemini-dev.json")] ExampleGemini.credential _)
          ExampleGemini.account _ _); vm_compute; reflexivity.
Defined.

(** C6 as stated fails on an account with two groups: the last group is
    "second-project" and the resolver returns "first-project". *)
Lemma last_group_counterexample :
  ExampleGemini.account =
    "dev@example.com (first-project) " ++ "(second-project)" /\
  group_here "(second-project)" "second-project" /\
  ~ has_group "second-project)" /\
  ExampleGemini.resolve =
    (Ok (Some "first-project"), [EvDownload (VStr "gemini-dev.json")]) /\
  fst ExampleGemini.resolve <> Ok (Some "second-project").
Proof.
  split; [reflexivity|]. split; [|split; [|split]].
  - exists "". repeat split. discriminate.
  - apply match_paren_group_none. reflexivity.
  - vm_compute. reflexivity.
  - vm_compute. discriminate.
Qed.

(** ** Strings *)

Lemma append_empty_r (s : string) : s ++ "" = s.
Proof. induction s as [|c s IH]; cbn; congruence. Qed.

Lemma append_assoc (a b c : string) : (a ++ b) ++ c = a ++ (b ++ c).
Proof. induction a as [|x a IH]; cbn; congruence. Qed.

Lemma rev_acc_append (s acc : string) :
  Str.rev_acc s acc = Str.rev s ++ acc.
Proof.
  unfold Str.rev. revert acc.
  induction s as [|c s IH]; intro acc; cbn [Str.rev_acc]; [reflexivity|].
  rewrite (IH (String c acc)), (IH (String c "")), append_assoc. reflexivity.
Qed.

Lemma rev_append (a b : string) : Str.rev (a ++ b) = Str.rev b ++ Str.rev a.
Proof.
  induction a as [|c a IH]; cbn [append].
  - cbn. rewrite append_empty_r. reflexivity.
  - unfold Str.rev at 1 3. cbn [Str.rev_acc].
    rewrite !rev_acc_append, IH, append_assoc. reflexivity.
Qed.

Lemma prefix_append (a b : string) : prefix a (a ++ b) = true.
Proof.
  induction a as [|c a IH]; cbn; [destruct b; reflexivity|].
  destruct (ascii_dec c c); [exact IH|congruence].
Qed.

Lemma endsWith_append (s suffix : string) :
  Str.endsWith (s ++ suffix) suffix = true.
Proof. unfold Str.endsWith. rewrite rev_append. apply prefix_append. Qed.

Lemma length_append (a b : string) :
  String.length (a ++ b) = (String.length a + String.length b)%nat.
Proof. induction a as [|c a IH]; cbn; congruence. Qed.

Lemma substring_append (a b : string) :
  substring 0 (String.length a) (a ++ b) = a.
Proof.
  induction a as [|c a IH]; cbn; [destruct b; reflexivity|congruence].
Qed.

Lemma drop_end_append (s suffix : string) :
  Str.drop_end (String.length suffix) (s ++ suffix) = s.
Proof.
  unfold Str.drop_end. rewrite length_append.
  replace (String.length s + String.length suffix - String.length suffix)%nat
    with (String.length s) by lia.
  apply substring_append.
Qed.

Lemma rev_cons (c : ascii) (s : string) :
  Str.rev (String c s) = Str.rev s ++ String c "".
Proof. unfold Str.rev. cbn [Str.rev_acc]. apply rev_acc_append. Qed.

Lemma rev_involutive (s : string) : Str.rev (Str.rev s) = s.
Proof.
  induction s as [|c s IH]; [reflexivity|].
  rewrite rev_cons, rev_append, IH. reflexivity.
Qed.

(** ** Decoding the payload of a token *)

Lemma split_cons (sep : ascii) (s : string) :
  exists p ps, Str.split sep s = p :: ps.
Proof.
  induction s as [|c r (p & ps & IH)]; cbn [Str.split].
  - eexists _, _. reflexivity.
  - destruct (Ascii.eqb c sep); [eexists _, _; reflexivity|].
    rewrite IH. eexists _, _. reflexivity.
Qed.

Lemma split_no_dot (s : string) :
  no_dot s = true -> Str.split "." s = [s].
Proof.
  induction s as [|c r IH]; [reflexivity|].
  unfold no_dot. cbn [all_chars Str.split]. intro H.
  apply andb_true_iff in H as [Hc Hr].
  destruct (Ascii.eqb c "."); [discriminate|].
  rewrite (IH Hr). reflexivity.
Qed.

Lemma split_segment (h r : string) :
  no_dot h = true -> Str.split "." (h ++ String "." r) = h :: Str.split "." r.
Proof.
  induction h as [|c h IH]; [reflexivity|].
  unfold no_dot. cbn [all_chars append Str.split]. intro H.
  apply andb_true_iff in H as [Hc Hr].
  destruct (Ascii.eqb c "."); [discriminate|].
  rewrite (IH Hr). reflexivity.
Qed.

(** The second segment of [header.payload] and of [header.payload.rest]. *)
Lemma split_token (header payload tail : string) :
  no_dot header = true -> no_dot payload = true -> is_tail tail ->
  exists rest,
    Str.split "." (header ++ String "." (payload ++ tail)) =
    header :: payload :: rest.
Proof.
  intros Hh Hp [-> | (sg & ->)]; rewrite (split_segment _ _ Hh).
  - replace (payload ++ "") with payload
      by (clear; induction payload; cbn; congruence).
    rewrite (split_no_dot _ Hp). eexists. reflexivity.
  - rewrite (split_segment _ _ Hp). eexists. reflexivity.
Qed.

Lemma truthy_not_nullish (v : value) :
  JS.truthy v = true -> JS.nullish v = false.
Proof. destruct v; try reflexivity; discriminate. Qed.

(** ** Base64 *)

Section Base64Facts.

Lemma triple_ind (P : string -> Prop) :
  P "" -> (forall x, P (String x "")) ->
  (forall x y, P (String x (String y ""))) ->
  (forall x y z r, P r -> P (String x (String y (String z r)))) ->
  forall s, P s.
Proof.
  intros H0 H1 H2 H3 s.
  assert (Q : P s /\ (forall a, P (String a s)) /\
              (forall a b, P (String a (String b s)))).
  { induction s as [|c s (IH0 & IH1 & IH2)].
    - auto.
    - split; [apply IH1|]. split; [intro a; apply IH2|].
      intros a b. apply H3. exact IH0. }
  apply Q.
Qed.

Lemma alphabet_rows (v : nat) : (v < 64)%nat -> alphabet_row v = true.
Proof.
  intro H.
  assert (T : forallb alphabet_row (seq 0 64) = true) by (vm_compute; reflexivity).
  rewrite forallb_forall in T. apply T. apply in_seq. lia.
Qed.

Lemma alphabet_sextet (v : nat) :
  (v < 64)%nat -> Base64.sextet (standard_char (base64url_char v)) = Some v.
Proof.
  intro H. pose proof (alphabet_rows v H) as R. unfold alphabet_row in R.
  repeat (apply andb_true_iff in R as [R _]).
  destruct (Base64.sextet _) as [w|]; [|discriminate].
  apply Nat.eqb_eq in R. congruence.
Qed.

Lemma alphabet_kept (v : nat) :
  (v < 64)%nat -> kept_char (standard_char (base64url_char v)) = true.
Proof.
  intro H. pose proof (alphabet_rows v H) as R. unfold alphabet_row in R.
  apply andb_true_iff in R as [R _]. apply andb_true_iff in R as [R E].
  apply andb_true_iff in R as [_ S]. unfold kept_char. rewrite S, E.
  reflexivity.
Qed.

Lemma alphabet_no_dot (v : nat) :
  (v < 64)%nat -> Ascii.eqb (base64url_char v) "." = false.
Proof.
  intro H. pose proof (alphabet_rows v H) as R. unfold alphabet_row in R.
  apply andb_true_iff in R as [_ R]. apply negb_true_iff in R. exact R.
Qed.

Lemma code_bound (c : ascii) : (Str.code c < 256)%nat.
Proof. apply nat_ascii_bounded. Qed.

Lemma byte_code (c : ascii) (n : nat) : n = Str.code c -> Base64.byte n = c.
Proof.
  intros ->. unfold Base64.byte, Str.code.
  rewrite Nat.mod_small by apply nat_ascii_bounded.
  apply ascii_nat_embedding.
Qed.

Ltac euclid :=
  zify;
  repeat rewrite ?Nat2Z.inj_add, ?Nat2Z.inj_mul, ?Nat2Z.inj_div,
    ?Nat2Z.inj_mod in *;
  Z.to_euclidean_division_equations; lia.

(** The sextets of an encoding are below 64. *)
Lemma encoded_sextets_bound (bytes : string) :
  Forall (fun v => (v < 64)%nat) (encoded_sextets bytes).
Proof.
  induction bytes as [| x | x y | x y z r IH] using triple_ind;
    cbn [encoded_sextets].
  - constructor.
  - pose proof (code_bound x). repeat (constructor; [euclid|]). constructor.
  - pose proof (code_bound x). pose proof (code_bound y).
    repeat (constructor; [euclid|]). constructor.
  - pose proof (code_bound x). pose proof (code_bound y).
    pose proof (code_bound z).
    repeat (constructor; [euclid|]). exact IH.
Qed.

(** The bytes of the sextets of an encoding are the bytes encoded. *)
Lemma bytes_of_encoded (bytes : string) :
  Base64.bytes_of (encoded_sextets bytes) = bytes.
Proof.
  induction bytes as [| x | x y | x y z r IH] using triple_ind;
    cbn [encoded_sextets Base64.bytes_of]; [reflexivity| | |].
  - f_equal. apply byte_code. pose proof (code_bound x). euclid.
  - pose proof (code_bound x). pose proof (code_bound y).
    f_equal; [apply byte_code; euclid|].
    f_equal. apply byte_code. euclid.
  - pose proof (code_bound x). pose proof (code_bound y).
    pose proof (code_bound z).
    destruct (encoded_sextets r) eqn:E; rewrite ?E in *;
    (f_equal; [apply byte_code; euclid|];
     f_equal; [apply byte_code; euclid|];
     f_equal; [apply byte_code; euclid|]); exact IH.
Qed.

Lemma standard_alphabet_cons (c : ascii) (s : string) :
  standard_alphabet (String c s) =
  String (standard_char c) (standard_alphabet s).
Proof. reflexivity. Qed.

(** The encoding spells its sextets. *)
Lemma encode_spells (bytes : string) :
  standard_alphabet (base64url_encode bytes) = spell (encoded_sextets bytes).
Proof.
  induction bytes as [| x | x y | x y z r IH] using triple_ind;
    cbn [base64url_encode encoded_sextets spell];
    rewrite ?standard_alphabet_cons, ?IH; reflexivity.
Qed.

Lemma encode_no_dot (bytes : string) : no_dot (base64url_encode bytes) = true.
Proof.
  unfold no_dot.
  induction bytes as [| x | x y | x y z r IH] using triple_ind;
    cbn [base64url_encode all_chars]; [reflexivity| | |];
    pose proof (code_bound x); try pose proof (code_bound y);
    try pose proof (code_bound z);
    rewrite ?alphabet_no_dot by euclid; rewrite ?IH; reflexivity.
Qed.

Lemma sextets_spell (l : list nat) :
  Forall (fun v => (v < 64)%nat) l -> Base64.sextets (spell l) = Some l.
Proof.
  induction 1 as [|v l Hv _ IH]; cbn [spell Base64.sextets]; [reflexivity|].
  rewrite (alphabet_sextet v Hv), IH. reflexivity.
Qed.

Lemma spell_kept (l : list nat) :
  Forall (fun v => (v < 64)%nat) l -> all_chars kept_char (spell l) = true.
Proof.
  induction 1 as [|v l Hv _ IH]; cbn [spell all_chars]; [reflexivity|].
  rewrite (alphabet_kept v Hv), IH. reflexivity.
Qed.

Lemma spell_length (l : list nat) : String.length (spell l) = List.length l.
Proof. induction l as [|v l IH]; cbn; congruence. Qed.

(** An encoding has a length that is a multiple of four, or two or three
    more. *)
Lemma encoded_length (bytes : string) :
  (List.length (encoded_sextets bytes) mod 4 <> 1)%nat.
Proof.
  induction bytes as [| x | x y | x y z r IH] using triple_ind;
    cbn [encoded_sextets List.length]; try (cbn; lia).
  replace (S (S (S (S (List.length (encoded_sextets r))))))
    with (List.length (encoded_sextets r) + 1 * 4)%nat by lia.
  rewrite Nat.Div0.mod_add. exact IH.
Qed.

Lemma strip_space_kept (s : string) :
  all_chars kept_char s = true -> Base64.strip_space s = s.
Proof.
  induction s as [|c s IH]; cbn [all_chars Base64.strip_space];
    [reflexivity|].
  intro H. apply andb_true_iff in H as [Hc Hs].
  unfold kept_char in Hc. apply andb_true_iff in Hc as [Hc _].
  apply negb_true_iff in Hc. rewrite Hc, (IH Hs). reflexivity.
Qed.

Lemma strip_space_append (a b : string) :
  Base64.strip_space (a ++ b) = Base64.strip_space a ++ Base64.strip_space b.
Proof.
  induction a as [|c a IH]; cbn [append Base64.strip_space]; [reflexivity|].
  destruct (Base64.is_ascii_space c); rewrite IH; reflexivity.
Qed.

Lemma all_chars_append (p : ascii -> bool) (a b : string) :
  all_chars p (a ++ b) = all_chars p a && all_chars p b.
Proof.
  induction a as [|c a IH]; cbn [append all_chars]; [reflexivity|].
  rewrite IH, andb_assoc. reflexivity.
Qed.

Lemma all_chars_rev (p : ascii -> bool) (s : string) :
  all_chars p (Str.rev s) = all_chars p s.
Proof.
  induction s as [|c s IH]; [reflexivity|].
  rewrite rev_cons, all_chars_append, IH. cbn [all_chars].
  rewrite andb_true_r, andb_comm. reflexivity.
Qed.

Lemma kept_not_padding (c : ascii) (r : string) :
  all_chars kept_char (String c r) = true ->
  (if ascii_dec "=" c then true else false) = false.
Proof.
  cbn [all_chars]. intro H. apply andb_true_iff in H as [H _].
  unfold kept_char in H. apply andb_true_iff in H as [_ H].
  apply negb_true_iff in H. destruct (ascii_dec "=" c) as [<-|]; [|reflexivity].
  discriminate H.
Qed.

(** A text without padding characters does not end with one. *)
Lemma endsWith_kept (s : string) :
  all_chars kept_char s = true ->
  Str.endsWith s "=" = false /\ Str.endsWith s "==" = false /\
  Str.endsWith (s ++ "=") "==" = false.
Proof.
  intro H. unfold Str.endsWith. rewrite rev_append.
  rewrite <- all_chars_rev in H.
  change (Str.rev "==") with "==". change (Str.rev "=") with "=".
  destruct (Str.rev s) as [|c r]; [repeat split|].
  pose proof (kept_not_padding c r H) as N.
  cbn [append prefix]. destruct (ascii_dec "=" c); [discriminate N|].
  repeat split.
Qed.

Lemma length_mod4 (s pad : string) (k : nat) :
  (String.length s mod 4 = k)%nat -> (k + String.length pad = 4)%nat ->
  (String.length (s ++ pad) mod 4 = 0)%nat.
Proof.
  intros H1 H2. rewrite length_append.
  pose proof (Nat.div_mod_eq (String.length s) 4).
  replace (String.length s + String.length pad)%nat
    with (0 + (String.length s / 4 + 1) * 4)%nat by lia.
  apply Nat.Div0.mod_add.
Qed.

(** atob on a text of the standard alphabet with the padding that its
    length calls for. *)
Lemma atob_padded (s pad : string) (l : list nat) :
  all_chars kept_char s = true ->
  Base64.sextets s = Some l ->
  (String.length s mod 4 = 0 /\ pad = "" \/
   String.length s mod 4 = 2 /\ pad = "==" \/
   String.length s mod 4 = 3 /\ pad = "=")%nat ->
  Base64.atob (s ++ pad) = Some (Base64.bytes_of l).
Proof.
  intros K Hl Hpad.
  destruct (endsWith_kept s K) as (E1 & E2 & E3).
  assert (P : Base64.strip_padding (Base64.strip_space (s ++ pad)) = s /\
              (String.length s mod 4 <> 1)%nat).
  { destruct Hpad as [[Hm ->] | [[Hm ->] | [Hm ->]]].
    - rewrite append_empty_r, (strip_space_kept s K).
      unfold Base64.strip_padding. rewrite Hm, E1, E2. split; [reflexivity|lia].
    - rewrite strip_space_append, (strip_space_kept s K).
      change (Base64.strip_space "==") with "==".
      unfold Base64.strip_padding.
      rewrite (length_mod4 s "==" 2 Hm eq_refl), endsWith_append.
      cbn [Nat.eqb]. split; [exact (drop_end_append s "==")|lia].
    - rewrite strip_space_append, (strip_space_kept s K).
      change (Base64.strip_space "=") with "=".
      unfold Base64.strip_padding.
      rewrite (length_mod4 s "=" 3 Hm eq_refl), E3, endsWith_append.
      cbn [Nat.eqb]. split; [exact (drop_end_append s "=")|lia]. }
  destruct P as [P N]. unfold Base64.atob. rewrite P, Hl.
  apply Nat.eqb_neq in N. rewrite N. reflexivity.
Qed.

Lemma standard_alphabet_length (s : string) :
  String.length (standard_alphabet s) = String.length s.
Proof.
  unfold standard_alphabet.
  induction s as [|c s IH]; cbn [Str.replace_char String.length]; congruence.
Qed.

(** What decodeJwtPayload passes to atob: the payload in the standard
    alphabet, padded to a multiple of four characters. *)
Lemma base64url_standard (payload : string) :
  base64url_to_base64 payload =
  let s := standard_alphabet payload in
  if (String.length s mod 4 =? 0)%nat then s
  else s ++ Str.repeat_char "=" (4 - String.length s mod 4).
Proof.
  unfold base64url_to_base64. fold (standard_alphabet payload).
  cbv zeta. destruct (_ =? 0)%nat; [reflexivity|].
  unfold Str.padEnd. f_equal. f_equal. lia.
Qed.

(** atob reads back what the Base64url encoding has written. *)
Lemma atob_encoded (bytes : string) :
  Base64.atob (base64url_to_base64 (base64url_encode bytes)) = Some bytes.
Proof.
  rewrite base64url_standard. cbv zeta. rewrite encode_spells.
  pose proof (encoded_sextets_bound bytes) as B.
  pose proof (encoded_length bytes) as L.
  rewrite <- spell_length in L.
  set (s := spell (encoded_sextets bytes)) in *.
  replace (Some bytes)
    with (Some (Base64.bytes_of (encoded_sextets bytes)))
    by (rewrite bytes_of_encoded; reflexivity).
  assert (M : (String.length s mod 4 < 4)%nat)
    by (apply Nat.mod_upper_bound; lia).
  destruct (String.length s mod 4)%nat as [|[|[|[|k]]]] eqn:E;
    cbn [Nat.eqb Nat.sub Str.repeat_char]; try lia.
  - rewrite <- (append_empty_r s) at 1.
    apply atob_padded; [apply spell_kept, B|apply sextets_spell, B|].
    left. split; [exact E|reflexivity].
  - apply atob_padded; [apply spell_kept, B|apply sextets_spell, B|].
    right. left. split; [exact E|reflexivity].
  - apply atob_padded; [apply spell_kept, B|apply sextets_spell, B|].
    right. right. split; [exact E|reflexivity].
Qed.

Lemma prefix_split (a b : string) :
  prefix a b = true -> exists t, b = a ++ t.
Proof.
  revert b. induction a as [|c a IH]; intros b H.
  - exists b. reflexivity.
  - destruct b as [|d b]; [discriminate|]. cbn [prefix] in H.
    destruct (ascii_dec c d) as [<-|]; [|discriminate].
    destruct (IH b H) as (t & ->). exists t. reflexivity.
Qed.

(** A string that ends with a suffix is what comes before, and the
    suffix. *)
Lemma endsWith_split (s suffix : string) :
  Str.endsWith s suffix = true ->
  s = Str.drop_end (String.length suffix) s ++ suffix.
Proof.
  unfold Str.endsWith. intro H.
  destruct (prefix_split _ _ H) as (t & E).
  assert (Es : s = Str.rev t ++ suffix).
  { rewrite <- (rev_involutive s), E, rev_append, rev_involutive.
    reflexivity. }
  rewrite Es at 2. rewrite drop_end_append. exact Es.
Qed.

Lemma has_char_append (p : ascii -> bool) (a b : string) :
  has_char p (a ++ b) = has_char p a || has_char p b.
Proof.
  induction a as [|c a IH]; cbn [append has_char]; [reflexivity|].
  rewrite IH, orb_assoc. reflexivity.
Qed.

Lemma foreign_standard (c : ascii) :
  foreign_char (standard_char c) = foreign_char c.
Proof. destruct c as [[] [] [] [] [] [] [] []]; reflexivity. Qed.

Lemma foreign_not_space (c : ascii) :
  foreign_char c = true -> Base64.is_ascii_space c = false.
Proof. destruct c as [[] [] [] [] [] [] [] []]; intro H; try reflexivity; discriminate H. Qed.

Lemma foreign_no_sextet (c : ascii) :
  foreign_char c = true -> Base64.sextet c = None.
Proof. destruct c as [[] [] [] [] [] [] [] []]; intro H; try reflexivity; discriminate H. Qed.

Lemma has_foreign_standard (s : string) :
  has_char foreign_char (standard_alphabet s) = has_char foreign_char s.
Proof.
  induction s as [|c s IH]; [reflexivity|].
  rewrite standard_alphabet_cons. cbn [has_char].
  rewrite foreign_standard, IH. reflexivity.
Qed.

Lemma has_foreign_strip_space (s : string) :
  has_char foreign_char (Base64.strip_space s) = has_char foreign_char s.
Proof.
  induction s as [|c s IH]; [reflexivity|]. cbn [Base64.strip_space has_char].
  destruct (foreign_char c) eqn:F.
  - rewrite (foreign_not_space c F). cbn [has_char]. rewrite F. reflexivity.
  - destruct (Base64.is_ascii_space c); cbn [has_char]; rewrite ?F; exact IH.
Qed.

Lemma has_foreign_drop_end (s suffix : string) :
  Str.endsWith s suffix = true -> has_char foreign_char suffix = false ->
  has_char foreign_char (Str.drop_end (String.length suffix) s) =
  has_char foreign_char s.
Proof.
  intros E F. rewrite (endsWith_split s suffix E) at 2.
  rewrite has_char_append, F, orb_false_r. reflexivity.
Qed.

Lemma has_foreign_strip_padding (s : string) :
  has_char foreign_char (Base64.strip_padding s) = has_char foreign_char s.
Proof.
  unfold Base64.strip_padding. destruct (_ =? 0)%nat; [|reflexivity].
  destruct (Str.endsWith s "==") eqn:E2.
  - exact (has_foreign_drop_end s "==" E2 eq_refl).
  - destruct (Str.endsWith s "=") eqn:E1; [|reflexivity].
    exact (has_foreign_drop_end s "=" E1 eq_refl).
Qed.

Lemma sextets_foreign (s : string) :
  has_char foreign_char s = true -> Base64.sextets s = None.
Proof.
  induction s as [|c s IH]; cbn [has_char Base64.sextets]; [discriminate|].
  intro H. destruct (foreign_char c) eqn:F.
  - rewrite (foreign_no_sextet c F). reflexivity.
  - rewrite (IH H). destruct (Base64.sextet c); reflexivity.
Qed.

(** atob throws on a payload with a character that no spelling of
    Base64 uses. *)
Lemma atob_foreign (payload : string) :
  has_char foreign_char payload = true ->
  Base64.atob (base64url_to_base64 payload) = None.
Proof.
  intro H.
  assert (F : has_char foreign_char (base64url_to_base64 payload) = true).
  { rewrite base64url_standard. cbv zeta.
    destruct (_ =? 0)%nat; rewrite ?has_char_append, has_foreign_standard, H;
      reflexivity. }
  unfold Base64.atob.
  rewrite <- has_foreign_strip_space, <- has_foreign_strip_padding in F.
  rewrite (sextets_foreign _ F). destruct (_ =? 1)%nat; reflexivity.
Qed.

End Base64Facts.

Section JwtFacts.

Variable JSON_parse : string -> option value.

Local Abbreviation decode := (decodeJwtPayload JSON_parse).
Local Abbreviation extract := (extractAccountIdFromIdToken JSON_parse).

Lemma account_id_of_truthy (o : value) :
  JS.truthy o = true ->
  account_id_of o =
  Ok (trimmed_string
        (JS.coalesce (JS.get_opt o "chatgpt_account_id")
           (JS.get_opt o "chatgptAccountId"))).
Proof.
  intro H. unfold account_id_of, rbind.
  rewrite !(get_not_nullish _ _ (truthy_not_nullish _ H)). reflexivity.
Qed.

Lemma extract_string (token : string) :
  extract (VStr token) =
  Ok (if JS.truthy (VStr token) && JS.truthy (decode token)
      then trimmed_string
             (JS.coalesce (JS.get_opt (decode token) "chatgpt_account_id")
                (JS.get_opt (decode token) "chatgptAccountId"))
      else None).
Proof.
  unfold extractAccountIdFromIdToken.
  destruct (JS.truthy (VStr token)); [|reflexivity].
  cbn [negb JS.is_object_type andb].
  destruct (JS.truthy (decode token)) eqn:T; [|reflexivity].
  cbn [negb]. apply account_id_of_truthy. exact T.
Qed.

(** What decodeJwtPayload makes of a token with a payload segment. *)
Lemma decode_segment (header payload tail : string) :
  no_dot header = true -> no_dot payload = true -> is_tail tail ->
  decode (header ++ String "." (payload ++ tail)) =
  match Base64.atob (base64url_to_base64 payload) with
  | Some decoded =>
      match JSON_parse decoded with
      | Some v => v
      | None => VNull
      end
  | None => VNull
  end.
Proof.
  intros Hh Hp Ht.
  destruct (split_token header payload tail Hh Hp Ht) as (rest & Hs).
  unfold decodeJwtPayload, decodeJwtPayload_try. rewrite Hs.
  destruct (Base64.atob _); [|reflexivity].
  destruct (JSON_parse _); reflexivity.
Qed.

(** C7.  Extracting the account id from an id_token string never throws.
    A token [header.payload] or [header.payload.signature] whose payload
    is the Base64url encoding (URL-safe alphabet, no padding) of the JSON
    text of an object with chatgpt_account_id "acct_123" yields
    "acct_123" (in general the trimmed id, when it is not blank).  A
    token without a dot, a payload that is not Base64 (one with a
    character that no spelling of Base64 uses, and any other on which
    atob throws) and a payload that encodes a text that is not JSON yield
    null. *)
Theorem jwt_account_id_extraction :
  (forall token, exists r, extract (VStr token) = Ok r) /\
  (forall header text tail fields id,
     no_dot header = true -> is_tail tail ->
     JSON_parse text = Some (VObj fields) ->
     JS.lookup "chatgpt_account_id" fields = VStr id ->
     extract (VStr (header ++ String "." (base64url_encode text ++ tail))) =
       Ok (trimmed_string (VStr id)) /\
     (id = "acct_123" ->
      extract (VStr (header ++ String "." (base64url_encode text ++ tail))) =
        Ok (Some "acct_123"))) /\
  (forall token,
     no_dot token = true ->
     decode token = VNull /\ extract (VStr token) = Ok None) /\
  (forall header payload tail,
     no_dot header = true -> no_dot payload = true -> is_tail tail ->
     has_char foreign_char payload = true \/
     Base64.atob (base64url_to_base64 payload) = None ->
     decode (header ++ String "." (payload ++ tail)) = VNull /\
     extract (VStr (header ++ String "." (payload ++ tail))) = Ok None) /\
  (forall header text tail,
     no_dot header = true -> is_tail tail ->
     JSON_parse text = None ->
     decode (header ++ String "." (base64url_encode text ++ tail)) = VNull /\
     extract (VStr (header ++ String "." (base64url_encode text ++ tail))) =
       Ok None).
Proof.
  assert (Hnull : forall token, decode token = VNull ->
                                extract (VStr token) = Ok None).
  { intros token E. rewrite extract_string, E.
    rewrite andb_false_r. reflexivity. }
  split; [|split; [|split; [|split]]].
  - intro token. rewrite extract_string. eexists. reflexivity.
  - intros header text tail fields id Hh Ht Hj Hl.
    assert (Hd : decode (header ++ String "." (base64url_encode text ++ tail))
                 = VObj fields).
    { rewrite (decode_segment _ _ _ Hh (encode_no_dot text) Ht).
      rewrite atob_encoded, Hj. reflexivity. }
    assert (E : extract (VStr (header ++ String "."
                                 (base64url_encode text ++ tail))) =
                Ok (trimmed_string (VStr id))).
    { rewrite extract_string, Hd. cbn [JS.get_opt]. rewrite Hl.
      destruct header; reflexivity. }
    split; [exact E|]. intros ->. exact E.
  - intros token Hn.
    assert (Hd : decode token = VNull).
    { unfold decodeJwtPayload, decodeJwtPayload_try.
      rewrite (split_no_dot _ Hn). reflexivity. }
    split; [exact Hd|apply Hnull, Hd].
  - intros header payload tail Hh Hp Ht Ha.
    assert (Hd : decode (header ++ String "." (payload ++ tail)) = VNull).
    { rewrite (decode_segment _ _ _ Hh Hp Ht).
      destruct Ha as [Ha | Ha]; [rewrite (atob_foreign _ Ha)|rewrite Ha];
        reflexivity. }
    split; [exact Hd|apply Hnull, Hd].
  - intros header text tail Hh Ht Hj.
    assert (Hd : decode (header ++ String "." (base64url_encode text ++ tail))
                 = VNull).
    { rewrite (decode_segment _ _ _ Hh (encode_no_dot text) Ht).
      rewrite atob_encoded, Hj. reflexivity. }
    split; [exact Hd|apply Hnull, Hd].
Qed.

End JwtFacts.

(** The token of the specification's example and a token whose payload
    has both characters of the URL-safe alphabet and needs padding, read
    with the JSON reader; a token without a dot. *)
Lemma jwt_account_id_extraction_witness :
  extractAccountIdFromIdToken Json.parse (VStr ExampleJwt.token) =
    Ok (Some "acct_123") /\
  extractAccountIdFromIdToken Json.parse (VStr ExampleJwt.wide_token) =
    Ok (Some "acct_123") /\
  extractAccountIdFromIdToken Json.parse (VStr "not-a-token") = Ok None.
Proof.
  split; [|split].
  - refine (proj2 (proj1 (proj2 (jwt_account_id_extraction Json.parse))
              "header" (Example.JSON_stringify ExampleJwt.claims) ".sig"
              [("chatgpt_account_id", VStr "acct_123")] "acct_123"
              eq_refl (or_intror (ex_intro _ "sig" eq_refl))
              _ _) eq_refl); vm_compute; reflexivity.
  - refine (proj2 (proj1 (proj2 (jwt_account_id_extraction Json.parse))
              "header" ExampleJwt.wide_text ".sig"
              [("sub", VStr ">>??"); ("chatgpt_account_id", VStr "acct_123")]
              "acct_123"
              eq_refl (or_intror (ex_intro _ "sig" eq_refl))
              _ _) eq_refl); vm_compute; reflexivity.
  - refine (proj2 (proj1 (proj2 (proj2 (jwt_account_id_extraction Json.parse)))
              "not-a-token" eq_refl)).
Defined.

(** The payloads of the two tokens: the second has a hyphen and an
    underscore, and two characters short of a multiple of four. *)
Example jwt_payload_characters :
  ExampleJwt.payload =
    base64url_encode (Example.JSON_stringify ExampleJwt.claims) /\
  ExampleJwt.wide_payload =
    "eyJzdWIiOiI-Pj8_IiwiY2hhdGdwdF9hY2NvdW50X2lkIjoiYWNjdF8xMjMifQ" /\
  (String.length ExampleJwt.wide_payload mod 4 = 2)%nat /\
  Base64.atob ExampleJwt.wide_payload = None /\
  Base64.atob (base64url_to_base64 ExampleJwt.wide_payload) =
    Some ExampleJwt.wide_text.
Proof. repeat split; vm_compute; reflexivity. Qed.

(** ** Errors of answers outside [200,300) *)

Lemma is_empty_spec (s : string) : Str.is_empty s = true <-> s = "".
Proof. destruct s; split; intro H; try reflexivity; discriminate. Qed.

Lemma normalizeText_spec (v : value) (t : string) :
  normalizeText v = Some t <->
  exists s, v = VStr s /\ t = Str.trim s /\ t <> "".
Proof.
  unfold normalizeText. split.
  - destruct v as [| | | |s| |]; try discriminate.
    destruct (Str.is_empty (Str.trim s)) eqn:E; [discriminate|].
    intro H. injection H as <-. exists s. repeat split.
    intro F. apply is_empty_spec in F. congruence.
  - intros (s & -> & -> & Hne).
    destruct (Str.is_empty (Str.trim s)) eqn:E; [|reflexivity].
    apply is_empty_spec in E. congruence.
Qed.

Section ErrorFacts.

Variable fraction_to_string : Q -> string.
Variable JSON_stringify : value -> string.

Local Abbreviation show := (number_to_string fraction_to_string).
Local Abbreviation raw_text :=
  (getOriginalErrorText fraction_to_string JSON_stringify).

Lemma positive_finite_number (v : value) (n : number) :
  positive_finite v = Some n -> positive_finite (VNum n) = Some n.
Proof.
  unfold positive_finite.
  destruct v as [| | |m| | |]; try discriminate.
  destruct (Num.isFinite m && Num.gt m (Num.of_Z 0)) eqn:E; [|discriminate].
  intro H. injection H as <-. rewrite E. reflexivity.
Qed.

(** resolveStatusCode throws exactly when the status code does not
    serve and the status of the body cannot be converted. *)
Lemma resolveStatusCode_cases (r : ApiCallResponse) :
  (positive_finite (statusCode r) = None /\
   convertible (JS.get_opt (body r) "status") = false /\
   resolveStatusCode r = Throw conversion_error) \/
  (exists sc, resolveStatusCode r = Ok sc /\
     (positive_finite (statusCode r) = None ->
      convertible (JS.get_opt (body r) "status") = true)).
Proof.
  unfold resolveStatusCode, rbind.
  destruct (positive_finite (statusCode r)) as [n|].
  - right. eexists. split; [reflexivity|discriminate].
  - destruct (convertible (JS.get_opt (body r) "status")) eqn:C.
    + right.
      destruct (JS.get_opt (body r) "status") eqn:S; unfold parseFloat;
        rewrite ?C; eexists; split; reflexivity || auto.
    + left. repeat split.
      destruct (JS.get_opt (body r) "status") eqn:S; try discriminate C;
        unfold parseFloat; rewrite C; reflexivity.
Qed.

(** C8 (amended).  When the status code resolves or is found missing,
    createNon2xxError returns an Error whose statusCode property is the
    resolved status code (no property when none resolves).  With
    "HTTP <code>" standing for the prefix ("HTTP error" when no code
    resolves), the message is: when body.error is an object and its code
    or its message is a string that is not blank,
    "HTTP <code> <errorCode>: <message>" built from the trimmed strings,
    the part that is not such a string left out; otherwise the raw body
    text, trimmed; otherwise the bare prefix.  The status code fails to
    resolve, and createNon2xxError throws a TypeError, exactly when the
    status code of the answer is not a positive finite number and the
    status of the body is an object that cannot be converted to a
    string. *)
Theorem createNon2xxError_message (r : ApiCallResponse) :
  let created := createNon2xxError fraction_to_string JSON_stringify r in
  (forall sc, resolveStatusCode r = Ok sc ->
     let pre :=
       match sc with
       | Some c => "HTTP " ++ show c
       | None => "HTTP error"
       end in
     exists e,
       created = Ok e /\
       statusCode_of e = sc /\
       message_of e =
         match error_parts (body r) with
         | (Some code, Some m) => pre ++ " " ++ code ++ ": " ++ m
         | (Some code, None) => pre ++ " " ++ code
         | (None, Some m) => pre ++ ": " ++ m
         | (None, None) =>
             match raw_text r with
             | Some t => t
             | None => pre
             end
         end) /\
  (forall e, resolveStatusCode r = Throw e ->
     created = Throw e /\ is_TypeError e) /\
  ((exists e, resolveStatusCode r = Throw e) <->
   positive_finite (statusCode r) = None /\
   convertible (JS.get_opt (body r) "status") = false) /\
  (forall n, positive_finite (statusCode r) = Some n ->
     resolveStatusCode r = Ok (Some n)) /\
  (forall c, resolveStatusCode r = Ok (Some c) ->
     positive_finite (VNum c) = Some c) /\
  (forall fields efields,
     body r = VObj fields -> JS.lookup "error" fields = VObj efields ->
     error_parts (body r) =
     (normalizeText (JS.lookup "code" efields),
      normalizeText (JS.lookup "message" efields))) /\
  (forall v t,
     normalizeText v = Some t <->
     exists s, v = VStr s /\ t = Str.trim s /\ t <> "") /\
  (forall t, normalizeText (bodyText r) = Some t -> raw_text r = Some t).
Proof.
  cbv zeta. split; [|split; [|split; [|split; [|split; [|split; [|split]]]]]].
  - intros sc H. unfold createNon2xxError, formatNon2xxError, rbind.
    rewrite H. eexists. split; [reflexivity|]. split; [reflexivity|].
    unfold message_of, error_parts, http_prefix.
    destruct (errorObj_of (body r)) as [eo|]; [|reflexivity].
    destruct (normalizeText (JS.get_opt eo "code")),
             (normalizeText (JS.get_opt eo "message")); reflexivity.
  - intros e H. split.
    + unfold createNon2xxError, rbind. rewrite H. reflexivity.
    + rewrite (resolveStatusCode_throws r e H). apply conversion_is_TypeError.
  - destruct (resolveStatusCode_cases r) as [(P & C & T) | (sc & S & C)].
    + split; [auto|]. intros _. eexists. exact T.
    + split.
      * intros (e & T). congruence.
      * intros [P F]. rewrite (C P) in F. discriminate.
  - intros n H. unfold resolveStatusCode. rewrite H. reflexivity.
  - intros c. unfold resolveStatusCode, rbind.
    destruct (positive_finite (statusCode r)) as [n|] eqn:E.
    + intro H. injection H as <-. exact (positive_finite_number _ _ E).
    + match goal with
      | |- match ?x with Ok _ => _ | Throw _ => _ end = _ -> _ =>
          destruct x as [parsed|]; [|discriminate]
      end.
      intro H.
      assert (H' : positive_finite (VNum parsed) = Some c) by congruence.
      exact (positive_finite_number _ _ H').
  - intros fields efields Hb He. unfold error_parts, errorObj_of.
    rewrite Hb. cbn. rewrite He. reflexivity.
  - apply normalizeText_spec.
  - intros t H. unfold getOriginalErrorText.
    destruct (bodyText r) as [| | | |s| |]; try discriminate H.
    unfold stringifyIfNeeded. rewrite H. reflexivity.
Qed.

End ErrorFacts.

(** A textual code and message, both with surrounding blanks trimmed. *)
Lemma createNon2xxError_message_witness :
  exists e,
    ExampleError.error_of 429 ExampleError.rate_limited = Ok e /\
    statusCode_of e = Some (Num.of_Z 429) /\
    message_of e = "HTTP 429 rate_limit_exceeded: Slow down".
Proof.
  exact (proj1 (createNon2xxError_message Example.fraction_to_string
                  Example.JSON_stringify
                  (ExampleFetch.normalised 429 ExampleError.rate_limited))
           (Some (Num.of_Z 429)) eq_refl).
Defined.

(** C8 as stated fails on the error objects of the Google services, whose
    code is a number: the code is present and is left out of the message.
    It fails too when the error object has neither part: the message is
    the raw body text and not the bare "HTTP 500".  And no Error is
    returned for an answer without a status code whose body has a status
    that cannot be converted. *)
Lemma numeric_code_counterexample :
  JS.get_opt (JS.get_opt ExampleError.quota_exceeded "error") "code" =
    Example.num 429 /\
  ExampleError.error_of 429 ExampleError.quota_exceeded =
    Ok (Err "HTTP 429: Quota exceeded" (Some (Num.of_Z 429))) /\
  "HTTP 429: Quota exceeded" <> "HTTP 429 429: Quota exceeded" /\
  ExampleError.error_of 500 ExampleError.bare_error =
    Ok (Err (Example.JSON_stringify ExampleError.bare_error)
          (Some (Num.of_Z 500))) /\
  Example.JSON_stringify ExampleError.bare_error <> "HTTP 500" /\
  ExampleError.error_of 0 ExampleError.opaque_status =
    Throw conversion_error.
Proof.
  repeat split; try (vm_compute; reflexivity); vm_compute; discriminate.
Qed.

(** ** What geminiCliQuota.parse does with a bucket *)

(** A trailing "_vertex" is removed, and nothing else is. *)
Lemma strip_vertex_suffix (s : string) : strip_vertex (s ++ "_vertex") = s.
Proof.
  unfold strip_vertex. rewrite endsWith_append.
  exact (drop_end_append s "_vertex").
Qed.

Lemma strip_vertex_other (s : string) :
  Str.endsWith s "_vertex" = false -> strip_vertex s = s.
Proof. unfold strip_vertex. intros ->. reflexivity. Qed.

(** The parts of C9 that the code follows: the model id of an emitted
    bucket is the input one without a trailing "_vertex"; a bucket without
    a model id or without a determined fraction is dropped; a fraction
    field that reads as a number is taken (a percentage string as its
    hundredth); otherwise an amount that is there decides alone, and a
    reset time counts only when there is no amount. *)
Lemma geminiCli_bucket_rules (bucket : value) :
  JS.nullish bucket = false ->
  let id := JS.or (JS.get_opt bucket "modelId") (JS.get_opt bucket "model_id") in
  let raw :=
    JS.or (JS.get_opt bucket "remainingFraction")
      (JS.get_opt bucket "remaining_fraction") in
  let amount :=
    JS.or (JS.get_opt bucket "remainingAmount")
      (JS.get_opt bucket "remaining_amount") in
  let reset :=
    JS.or (JS.get_opt bucket "resetTime") (JS.get_opt bucket "reset_time") in
  (JS.truthy id = false -> bucket_of bucket = Ok None) /\
  (forall s, id = VStr s -> bucket_fraction bucket = Ok None ->
             bucket_of bucket = Ok None) /\
  (forall s f, id = VStr s -> s <> "" -> bucket_fraction bucket = Ok (Some f) ->
     exists b, bucket_of bucket = Ok (Some b) /\
               GeminiCli.modelId b = strip_vertex s /\
               GeminiCli.percent b = percent_of_fraction (clamp01 f)) /\
  (forall f, parse_fraction raw = Ok f -> Num.isNaN f = false ->
   bucket_fraction bucket = Ok (Some f)) /\
  (forall f n, parse_fraction raw = Ok f -> Num.isNaN f = true ->
   JS.nullish amount = false -> to_number amount = Ok n ->
   bucket_fraction bucket =
   Ok (if Num.le n (Num.of_Z 0) then Some (Num.of_Z 0) else None)) /\
  (forall f, parse_fraction raw = Ok f -> Num.isNaN f = true ->
   JS.nullish amount = true ->
   bucket_fraction bucket =
   Ok (if JS.truthy reset then Some (Num.of_Z 0) else None)).
Proof.
  intros Hn id raw amount reset.
  assert (Hb : bucket_of bucket =
               if negb (JS.truthy id) then Ok None
               else match id with
                    | VStr s =>
                        (fraction <- bucket_fraction bucket ;;
                         match fraction with
                         | None => Ok None
                         | Some f =>
                             Ok (Some
                                   {| GeminiCli.modelId := strip_vertex s;
                                      GeminiCli.percent :=
                                        percent_of_fraction (clamp01 f);
                                      GeminiCli.remaining :=
                                        percent_of_fraction (clamp01 f);
                                      GeminiCli.used :=
                                        Num.sub (Num.of_Z 100)
                                          (percent_of_fraction (clamp01 f));
                                      GeminiCli.total := Num.of_Z 100;
                                      GeminiCli.resetTime := reset |})
                         end)%result
                    | _ => Throw (TypeErr "modelId.endsWith is not a function")
                    end).
  { unfold bucket_of, rbind. rewrite (get_not_nullish _ _ Hn). reflexivity. }
  repeat split.
  - intro H. rewrite Hb, H. reflexivity.
  - intros s Hs Hf. rewrite Hb, Hs, Hf.
    destruct (negb (JS.truthy (VStr s))); reflexivity.
  - intros s f Hs Hne Hf. rewrite Hb, Hs, Hf.
    destruct s; [congruence|]. eexists. repeat split.
  - intros f P H. unfold bucket_fraction, rbind. fold raw. rewrite P, H.
    reflexivity.
  - intros f n P H Ha Tn. unfold bucket_fraction, rbind. fold raw amount.
    rewrite P, H, Ha, Tn. reflexivity.
  - intros f P H Ha. unfold bucket_fraction, rbind. fold raw amount reset.
    rewrite P, H, Ha. reflexivity.
Qed.

(** ** Gemini CLI buckets with a zero *)

(** C9 (the code departs from it).  A bucket whose [remainingAmount] is
    the number 0 has an amount that is not positive, and a bucket whose
    [remainingFraction] is the number 0 carries a bare number; both are
    dropped, because [a || b] passes over a zero.  Under the other
    spelling of the same fields, [remaining_amount] and
    [remaining_fraction], the same zero gives a bucket at 0 percent, as
    does an amount written as the string "0" or a negative amount. *)
Theorem geminiCli_zero_is_dropped :
  ExampleBuckets.parsed "remainingAmount" (Example.num 0) = [] /\
  ExampleBuckets.parsed "remaining_amount" (Example.num 0) =
    [("gemini-pro", Num.of_Z 0)] /\
  ExampleBuckets.parsed "remainingAmount" (VStr "0") =
    [("gemini-pro", Num.of_Z 0)] /\
  ExampleBuckets.parsed "remainingAmount" (Example.num (-1)) =
    [("gemini-pro", Num.of_Z 0)] /\
  ExampleBuckets.parsed "remainingFraction" (Example.num 0) = [] /\
  ExampleBuckets.parsed "remaining_fraction" (Example.num 0) =
    [("gemini-pro", Num.of_Z 0)] /\
  ExampleBuckets.parsed "remainingFraction" (VStr "45%") =
    [("gemini-pro", Num.of_Z 45)].
Proof. repeat split; vm_compute; reflexivity. Qed.

(** ** Answers without models or buckets *)

(** C10.  On an input that is neither null nor undefined,
    antigravityQuota.parse returns no group, without throwing, when
    [models] is absent, is not an object or is an array, and
    geminiCliQuota.parse returns no bucket, without throwing, when
    [buckets] is absent, is not an array or is the empty array. *)
Theorem parse_without_items (data : value) :
  JS.nullish data = false ->
  ((forall fields, JS.get_opt data "models" <> VObj fields) ->
   antigravityQuota_parse data = Ok {| Antigravity.groups := [] |}) /\
  ((forall items, JS.get_opt data "buckets" = VArr items -> items = []) ->
   geminiCliQuota_parse data = Ok {| GeminiCli.buckets := [] |}).
Proof.
  intro Hn. split.
  - intro H. unfold antigravityQuota_parse, rbind.
    rewrite (get_not_nullish _ _ Hn).
    destruct (JS.get_opt data "models") as [| |b|n|s|items|fields] eqn:E;
      try reflexivity.
    + destruct b; reflexivity.
    + unfold JS.or. destruct (JS.truthy (VNum n)); reflexivity.
    + unfold JS.or. destruct (JS.truthy (VStr s)); reflexivity.
    + exfalso. exact (H fields eq_refl).
  - intro H. unfold geminiCliQuota_parse, rbind.
    rewrite (get_not_nullish _ _ Hn).
    destruct (JS.get_opt data "buckets") as [| |b|n|s|items|fields] eqn:E;
      try reflexivity.
    + destruct b; reflexivity.
    + unfold JS.or. destruct (JS.truthy (VNum n)); reflexivity.
    + unfold JS.or. destruct (JS.truthy (VStr s)); reflexivity.
    + rewrite (H items eq_refl). reflexivity.
Qed.

(** An answer whose [models] is an array and whose [buckets] is a
    string. *)
Lemma parse_without_items_witness :
  let data := VObj [ ("models", VArr [Example.num 1]);
                     ("buckets", VStr "none") ] in
  antigravityQuota_parse data = Ok {| Antigravity.groups := [] |} /\
  geminiCliQuota_parse data = Ok {| GeminiCli.buckets := [] |}.
Proof.
  intro data.
  destruct (parse_without_items data eq_refl) as [A B].
  split; [apply A | apply B]; intros x E; discriminate E.
Defined.

(** ** Worked answers of the specification *)

Example gemini_vertex_suffix :
  ExampleBuckets.parsed "remainingFraction" (VNum (Fin (1 # 2))) =
  [("gemini-pro", Num.of_Z 50)].
Proof. vm_compute. reflexivity. Qed.

Example codex_two_windows :
  match Example.parse_codex
          (Example.usage (Example.window 18000 75)
             (Example.window 604800 10)) with
  | Ok d =>
      map (fun l => (Codex.model l, Codex.used l, Codex.remaining l))
        (Codex.limits d)
  | Throw _ => []
  end =
  [ ("5h", Some (Num.of_Z 75), Some (Num.of_Z 25));
    ("Weekly", Some (Num.of_Z 10), Some (Num.of_Z 90)) ].
Proof. vm_compute. reflexivity. Qed.

Example codex_positional_fallback :
  labels_of
    (Example.parse_codex
       (Example.usage (Example.window 3600 5) (Example.window 86400 40))) =
  ["5h"; "Weekly"].
Proof. vm_compute. reflexivity. Qed.

Example antigravity_percentage_string :
  ExampleAntigravity.percents
    (antigravityQuota_parse
       (VObj [ ("models",
                VObj [ ("gemini-2.5-flash",
                        ExampleAntigravity.model (VStr "30%")) ]) ])) =
  [("Gemini 2.5 Flash", Num.of_Z 30)].
Proof. vm_compute. reflexivity. Qed.

(** * Further properties of the code *)

(** ** Trimming and lower-casing *)

Lemma trim_start_split (s : string) :
  exists w, s = w ++ Str.trim_start s /\ all_chars Str.is_space w = true.
Proof.
  induction s as [|c s (w & E & A)].
  - exists "". split; reflexivity.
  - cbn [Str.trim_start]. destruct (Str.is_space c) eqn:S.
    + exists (String c w). cbn. rewrite S, A, <- E. split; reflexivity.
    + exists "". split; reflexivity.
Qed.

Lemma trim_start_no_lead (s : string) : no_lead (Str.trim_start s).
Proof.
  induction s as [|c s IH]; [exact I|].
  cbn [Str.trim_start]. destruct (Str.is_space c) eqn:S; [exact IH|exact S].
Qed.

Lemma trim_start_fixed (s : string) : no_lead s -> Str.trim_start s = s.
Proof. destruct s as [|c s]; [reflexivity|]. cbn. intros ->. reflexivity. Qed.

Lemma trim_end_split (s : string) :
  exists w, s = Str.trim_end s ++ w.
Proof.
  unfold Str.trim_end.
  destruct (trim_start_split (Str.rev s)) as (w & E & _).
  exists (Str.rev w).
  rewrite <- rev_append, <- E. symmetry. apply rev_involutive.
Qed.

Lemma trim_end_no_lead (s : string) : no_lead s -> no_lead (Str.trim_end s).
Proof.
  intro H. destruct (trim_end_split s) as (w & E).
  destruct (Str.trim_end s) as [|c t]; [exact I|].
  rewrite E in H. exact H.
Qed.

Lemma trim_end_idempotent (s : string) :
  Str.trim_end (Str.trim_end s) = Str.trim_end s.
Proof.
  unfold Str.trim_end. rewrite rev_involutive.
  rewrite (trim_start_fixed _ (trim_start_no_lead _)). reflexivity.
Qed.

(** [s.trim()] has nothing left to trim. *)
Lemma trim_idempotent (s : string) : Str.trim (Str.trim s) = Str.trim s.
Proof.
  unfold Str.trim.
  rewrite (trim_start_fixed (Str.trim_end (Str.trim_start s))).
  - apply trim_end_idempotent.
  - apply trim_end_no_lead, trim_start_no_lead.
Qed.

Lemma lower_char_idempotent (c : ascii) :
  Str.lower_char (Str.lower_char c) = Str.lower_char c.
Proof. destruct c as [[] [] [] [] [] [] [] []]; reflexivity. Qed.

Lemma lower_char_space (c : ascii) :
  Str.is_space (Str.lower_char c) = Str.is_space c.
Proof. destruct c as [[] [] [] [] [] [] [] []]; reflexivity. Qed.

Lemma toLowerCase_idempotent (s : string) :
  Str.toLowerCase (Str.toLowerCase s) = Str.toLowerCase s.
Proof.
  induction s as [|c s IH]; [reflexivity|].
  cbn [Str.toLowerCase]. rewrite lower_char_idempotent, IH. reflexivity.
Qed.

Lemma toLowerCase_rev_acc (s acc : string) :
  Str.toLowerCase (Str.rev_acc s acc) =
  Str.rev_acc (Str.toLowerCase s) (Str.toLowerCase acc).
Proof.
  revert acc. induction s as [|c s IH]; intro acc; [reflexivity|].
  cbn [Str.rev_acc Str.toLowerCase]. rewrite IH. reflexivity.
Qed.

Lemma toLowerCase_rev (s : string) :
  Str.toLowerCase (Str.rev s) = Str.rev (Str.toLowerCase s).
Proof. apply toLowerCase_rev_acc. Qed.

Lemma toLowerCase_trim_start (s : string) :
  Str.trim_start (Str.toLowerCase s) = Str.toLowerCase (Str.trim_start s).
Proof.
  induction s as [|c s IH]; [reflexivity|].
  cbn [Str.toLowerCase Str.trim_start]. rewrite lower_char_space.
  destruct (Str.is_space c); [exact IH|reflexivity].
Qed.

(** Trimming and lower-casing commute. *)
Lemma toLowerCase_trim (s : string) :
  Str.trim (Str.toLowerCase s) = Str.toLowerCase (Str.trim s).
Proof.
  unfold Str.trim, Str.trim_end.
  rewrite toLowerCase_trim_start, <- toLowerCase_rev, toLowerCase_trim_start,
    <- toLowerCase_rev. reflexivity.
Qed.

Lemma toLowerCase_not_empty (s : string) :
  s <> "" -> Str.toLowerCase s <> "".
Proof. destruct s; [congruence|discriminate]. Qed.

(** What normalizeText keeps is trimmed and not empty. *)
Lemma normalizeText_trimmed (v : value) (t : string) :
  normalizeText v = Some t -> t <> "" /\ Str.trim t = t.
Proof.
  intro H. apply normalizeText_spec in H as (s & _ & -> & Hne).
  split; [exact Hne|apply trim_idempotent].
Qed.

Lemma first_text_trimmed (candidates : list value) (t : string) :
  first_text candidates = Some t -> t <> "" /\ Str.trim t = t.
Proof.
  induction candidates as [|v rest IH]; [discriminate|].
  cbn [first_text]. destruct (normalizeText v) as [t'|] eqn:E; [|exact IH].
  intro H. injection H as <-. exact (normalizeText_trimmed _ _ E).
Qed.

(** Only an object has the properties that the resolvers read. *)
Lemma get_opt_not_object (v : value) (k : string) :
  (forall fields, v <> VObj fields) -> JS.get_opt v k = VUndefined.
Proof. destruct v; intro H; try reflexivity. congruence. Qed.

Lemma project_id_of_not_object_like (v : value) :
  JS.truthy v && JS.is_object_type v = false ->
  normalizeText (project_id_of v) = None.
Proof. destruct v; try reflexivity; discriminate. Qed.

(** ** The project id of an Antigravity credential *)

Section ProjectIdFacts.

Variable JSON_parse : string -> option value.
Variable authFilesApi_download : list event -> value -> result string.

Local Abbreviation resolve :=
  (resolveAntigravityProjectId JSON_parse authFilesApi_download).

Lemma resolve_from_parsed (fileName : value) (log log' : list event)
  (parsed : value) :
  downloadAuthFileJson JSON_parse authFilesApi_download fileName log =
    (Ok parsed, log') ->
  resolve fileName log =
  (Ok (match first_text (project_id_candidates parsed) with
       | Some p => p
       | None => DEFAULT_ANTIGRAVITY_PROJECT_ID
       end), log').
Proof.
  intro H. unfold resolveAntigravityProjectId, bind. rewrite H.
  unfold project_id_candidates, trimmed_string. cbn [first_text].
  destruct (negb (JS.truthy parsed) || negb (JS.is_object_type parsed))
    eqn:G.
  - assert (N : forall k, JS.get_opt parsed k = VUndefined).
    { intro k. destruct parsed; try reflexivity; discriminate. }
    assert (P : project_id_of parsed = VUndefined).
    { unfold project_id_of. rewrite !N. reflexivity. }
    rewrite P, !N. reflexivity.
  - destruct (normalizeText (project_id_of parsed)); [reflexivity|].
    destruct (JS.truthy (JS.get_opt parsed "installed")
              && JS.is_object_type (JS.get_opt parsed "installed")) eqn:I.
    + destruct (normalizeText (project_id_of (JS.get_opt parsed "installed")));
        [reflexivity|].
      destruct (JS.truthy (JS.get_opt parsed "web")
                && JS.is_object_type (JS.get_opt parsed "web")) eqn:W.
      * destruct (normalizeText (project_id_of (JS.get_opt parsed "web")));
          reflexivity.
      * rewrite (project_id_of_not_object_like _ W). reflexivity.
    + rewrite (project_id_of_not_object_like _ I).
      destruct (JS.truthy (JS.get_opt parsed "web")
                && JS.is_object_type (JS.get_opt parsed "web")) eqn:W.
      * destruct (normalizeText (project_id_of (JS.get_opt parsed "web")));
          reflexivity.
      * rewrite (project_id_of_not_object_like _ W). reflexivity.
Qed.

Lemma resolveAntigravityProjectId_not_blank (fileName : value)
  (log : list event) :
  exists p,
    resolve fileName log = (Ok p, (log ++ [EvDownload fileName])%list) /\
    p <> "" /\ Str.trim p = p.
Proof.
  destruct (downloadAuthFileJson_total JSON_parse authFilesApi_download
              fileName log) as (parsed & H).
  rewrite (resolve_from_parsed _ _ _ _ H).
  eexists. split; [reflexivity|].
  destruct (first_text (project_id_candidates parsed)) as [p|] eqn:E.
  - exact (first_text_trimmed _ _ E).
  - split; [discriminate|reflexivity].
Qed.

(** X1.  resolveAntigravityProjectId never fails and never answers a
    blank project id: whatever the download does and whatever the file
    holds, it returns, after exactly one download, a string that is not
    empty and has no white space at either end. *)
Theorem antigravity_project_id_never_blank (fileName : value)
  (log : list event) :
  exists p,
    resolve fileName log = (Ok p, (log ++ [EvDownload fileName])%list) /\
    p <> "" /\ Str.trim p = p.
Proof. apply resolveAntigravityProjectId_not_blank. Qed.

(** X2.  The project id is the first non-blank string, trimmed, among
    [project_id ?? projectId] of the file itself, of its [installed]
    member and of its [web] member, in this order; a [project_id] that is
    present but blank hides [projectId].  The default project is the
    answer when there is no such string, and when the download fails, the
    text is blank or the text is not JSON. *)
Theorem antigravity_project_id_precedence (fileName : value)
  (log : list event) :
  (forall e,
     authFilesApi_download log fileName = Throw e ->
     fst (resolve fileName log) = Ok DEFAULT_ANTIGRAVITY_PROJECT_ID) /\
  (forall text,
     authFilesApi_download log fileName = Ok text ->
     Str.trim text = "" \/ JSON_parse (Str.trim text) = None ->
     fst (resolve fileName log) = Ok DEFAULT_ANTIGRAVITY_PROJECT_ID) /\
  (forall text parsed,
     authFilesApi_download log fileName = Ok text ->
     Str.trim text <> "" ->
     JSON_parse (Str.trim text) = Some parsed ->
     fst (resolve fileName log) =
     Ok (match first_text (project_id_candidates parsed) with
         | Some p => p
         | None => DEFAULT_ANTIGRAVITY_PROJECT_ID
         end)).
Proof.
  assert (D : forall parsed,
            downloadAuthFileJson JSON_parse authFilesApi_download
              fileName log = (Ok parsed, (log ++ [EvDownload fileName])%list) ->
            fst (resolve fileName log) =
            Ok (match first_text (project_id_candidates parsed) with
                | Some p => p
                | None => DEFAULT_ANTIGRAVITY_PROJECT_ID
                end)).
  { intros parsed H. rewrite (resolve_from_parsed _ _ _ _ H). reflexivity. }
  split; [|split].
  - intros e E. apply (D VNull).
    unfold downloadAuthFileJson, download. rewrite E. reflexivity.
  - intros text E B. apply (D VNull).
    unfold downloadAuthFileJson, download. rewrite E.
    destruct B as [B | B].
    + rewrite B. reflexivity.
    + rewrite B. destruct (Str.is_empty (Str.trim text)); reflexivity.
  - intros text parsed E Hne P. apply (D parsed).
    unfold downloadAuthFileJson, download. rewrite E, P.
    destruct (Str.is_empty (Str.trim text)) eqn:B; [|reflexivity].
    apply is_empty_spec in B. congruence.
Qed.

End ProjectIdFacts.

(** The blank top-level project_id hides projectId, and the id of the
    [installed] member is taken, trimmed. *)
Lemma antigravity_project_id_precedence_witness :
  fst ExampleProject.resolved = Ok "my-project".
Proof.
  destruct (antigravity_project_id_precedence Json.parse
              ExampleProject.stored_secret (VStr "antigravity.json") [])
    as (_ & _ & H).
  unfold ExampleProject.resolved, run.
  rewrite (H (Example.JSON_stringify ExampleProject.client_secret)
             ExampleProject.client_secret eq_refl);
    [reflexivity | vm_compute; discriminate | vm_compute; reflexivity].
Defined.

(** ** The plan type and the account id of a Codex credential *)

Lemma plan_string_text (v : value) :
  plan_string v = option_map Str.toLowerCase (normalizeText v).
Proof.
  unfold plan_string, trimmed_string. destruct (normalizeText v); reflexivity.
Qed.

Lemma plan_type_of_not_object_like (v : value) :
  object_like v = false -> normalizeText (plan_type_of v) = None.
Proof. destruct v; try reflexivity; discriminate. Qed.

Lemma id_token_of_not_object_like (v : value) :
  object_like v = false -> id_token_of v = VUndefined.
Proof. destruct v; try reflexivity; discriminate. Qed.

Lemma plan_guard (v : value) :
  (if object_like v then plan_string (plan_type_of v) else None) =
  plan_string (plan_type_of v).
Proof.
  destruct (object_like v) eqn:G; [reflexivity|].
  rewrite plan_string_text, (plan_type_of_not_object_like _ G). reflexivity.
Qed.

Lemma plan_guard_metadata (v : value) :
  (if object_like v
   then first_some (plan_string (plan_type_of v))
          (if object_like (id_token_of v)
           then plan_string (plan_type_of (id_token_of v)) else None)
   else None) =
  first_some (plan_string (plan_type_of v))
    (plan_string (plan_type_of (id_token_of v))).
Proof.
  rewrite plan_guard. destruct (object_like v) eqn:G; [reflexivity|].
  rewrite (id_token_of_not_object_like _ G), !plan_string_text,
    (plan_type_of_not_object_like _ G).
  reflexivity.
Qed.

Lemma resolveCodexPlanTypeFromFile_first (file : value) :
  JS.nullish file = false ->
  resolveCodexPlanTypeFromFile file =
  Ok (option_map Str.toLowerCase (first_text (plan_type_candidates file))).
Proof.
  intro H. unfold resolveCodexPlanTypeFromFile, rbind.
  rewrite (get_not_nullish _ _ H).
  rewrite plan_guard_metadata, !plan_guard.
  unfold plan_type_candidates, first_some. cbn [first_text].
  rewrite !plan_string_text. f_equal.
  repeat match goal with
         | |- context [normalizeText ?v] =>
             destruct (normalizeText v); cbn [option_map]; try reflexivity
         end.
Qed.

(** X3.  For a file that is not null, resolveCodexPlanTypeFromFile
    returns the first non-blank string among [plan_type ?? planType] of
    the file, of its id_token, of its metadata, of the id_token of its
    metadata and of its attributes, in this order, trimmed and in lower
    case; null when there is none.  What it returns is never empty and
    is left unchanged by trimming and by lower-casing. *)
Theorem codex_plan_type_from_file (file : value) :
  JS.nullish file = false ->
  resolveCodexPlanTypeFromFile file =
    Ok (option_map Str.toLowerCase (first_text (plan_type_candidates file))) /\
  forall p,
    resolveCodexPlanTypeFromFile file = Ok (Some p) ->
    p <> "" /\ Str.toLowerCase p = p /\ Str.trim p = p.
Proof.
  intro H. rewrite (resolveCodexPlanTypeFromFile_first file H).
  destruct (first_text (plan_type_candidates file)) as [t|] eqn:F;
    cbn [option_map]; (split; [reflexivity|]); [|discriminate].
  intros p E. injection E as <-.
  destruct (first_text_trimmed _ _ F) as [Hne Ht].
  split; [exact (toLowerCase_not_empty _ Hne)|].
  split; [apply toLowerCase_idempotent|].
  rewrite toLowerCase_trim, Ht. reflexivity.
Qed.

(** The plan type of the id_token inside the metadata, in lower case. *)
Lemma codex_plan_type_from_file_witness :
  resolveCodexPlanTypeFromFile ExampleCodexFile.listed = Ok (Some "plus").
Proof.
  destruct (codex_plan_type_from_file ExampleCodexFile.listed eq_refl)
    as [H _].
  rewrite H. reflexivity.
Defined.

Section AccountIdFacts.

Variable JSON_parse : string -> option value.
Variable authFilesApi_download : list event -> value -> result string.

Local Abbreviation extract := (extractAccountIdFromIdToken JSON_parse).
Local Abbreviation resolve :=
  (resolveCodexAccountId JSON_parse authFilesApi_download).

(** extractAccountIdFromIdToken does not throw, and an id it returns is
    trimmed and not blank. *)
Lemma extract_total (idToken : value) :
  exists r,
    extract idToken = Ok r /\
    forall id, r = Some id -> id <> "" /\ Str.trim id = id.
Proof.
  destruct idToken as [| |b|n|s|items|fields].
  - exists None. split; [reflexivity|discriminate].
  - exists None. split; [reflexivity|discriminate].
  - exists None. split; [destruct b; reflexivity|discriminate].
  - exists None. split; [|discriminate].
    unfold extractAccountIdFromIdToken.
    destruct (JS.truthy (VNum n)); reflexivity.
  - rewrite extract_string. eexists. split; [reflexivity|].
    destruct (JS.truthy (VStr s) && JS.truthy (decodeJwtPayload JSON_parse s));
      [|discriminate].
    intros id E. exact (normalizeText_trimmed _ _ E).
  - eexists. split; [reflexivity|].
    intros id E. exact (normalizeText_trimmed _ _ E).
  - eexists. split; [reflexivity|].
    intros id E. exact (normalizeText_trimmed _ _ E).
Qed.

Lemma first_account_id_total (candidates : list value) :
  exists r,
    first_account_id JSON_parse candidates = Ok r /\
    forall id, r = Some id -> id <> "" /\ Str.trim id = id.
Proof.
  induction candidates as [|c rest (r & E & P)].
  - exists None. split; [reflexivity|discriminate].
  - cbn [first_account_id]. destruct (extract_total c) as (x & Ex & Px).
    rewrite Ex. cbn [rbind]. destruct x as [id|].
    + exists (Some id). split; [reflexivity|exact Px].
    + exists r. split; [exact E|exact P].
Qed.

(** X4.  For a file that is not null, resolveCodexAccountId does not
    throw.  When an id_token of the listing (of the file, of its metadata
    or of its attributes, in this order; a decoded object or a JWT)
    carries an account id, that id is returned and nothing is
    downloaded; otherwise the credential file is downloaded, once.  An id
    that is returned is never blank and has no white space at either
    end. *)
Theorem codex_account_id_sources (file : value) (log : list event) :
  JS.nullish file = false ->
  exists listed,
    first_account_id JSON_parse (id_token_candidates file) = Ok listed /\
    match listed with
    | Some id => resolve file log = (Ok (Some id), log)
    | None =>
        exists r,
          resolve file log =
          (Ok r, (log ++ [EvDownload (JS.get_opt file "name")])%list)
    end /\
    forall id,
      fst (resolve file log) = Ok (Some id) -> id <> "" /\ Str.trim id = id.
Proof.
  intro H.
  destruct (first_account_id_total (id_token_candidates file))
    as (listed & E & P).
  exists listed. split; [exact E|].
  unfold resolveCodexAccountId, bind, lift.
  rewrite (get_not_nullish _ _ H).
  fold (id_token_candidates file). rewrite E.
  destruct listed as [id|].
  - split; [reflexivity|]. intros id' F. injection F as <-.
    apply P. reflexivity.
  - destruct (downloadAuthFileJson_total JSON_parse authFilesApi_download
                (JS.get_opt file "name") log) as (parsed & D).
    rewrite D.
    destruct (JS.truthy parsed && JS.is_object_type parsed).
    + destruct (extract_total (id_token_of parsed)) as (x & Ex & Px).
      rewrite Ex. split; [eexists; reflexivity|].
      intros id F. injection F as ->. apply Px. reflexivity.
    + split; [eexists; reflexivity|]. discriminate.
Qed.

End AccountIdFacts.

(** The decoded id_token of the metadata gives the id, trimmed, without
    a download. *)
Lemma codex_account_id_sources_witness :
  run (resolveCodexAccountId Json.parse ExampleFetch.no_download
         ExampleCodexFile.listed) = (Ok (Some "acct_123"), []).
Proof.
  destruct (codex_account_id_sources Json.parse ExampleFetch.no_download
              ExampleCodexFile.listed [] eq_refl) as (listed & E & H & _).
  vm_compute in E. injection E as <-. exact H.
Defined.

(** ** The wire-call adapter *)

Lemma filter_some_app {A} (l1 l2 : list (option A)) :
  filter_some (l1 ++ l2)%list = (filter_some l1 ++ filter_some l2)%list.
Proof.
  induction l1 as [|[a|] l1 IH]; cbn; [reflexivity| |exact IH].
  rewrite IH. reflexivity.
Qed.

Lemma posted_download (log : list event) (fileName : value) :
  posted (log ++ [EvDownload fileName])%list = posted log.
Proof.
  unfold posted. rewrite map_app, filter_some_app. cbn.
  apply app_nil_r.
Qed.

Lemma posted_request (log : list event) (req : ApiCallRequest) :
  posted (log ++ [EvRequest req])%list = (posted log ++ [req])%list.
Proof. unfold posted. rewrite map_app, filter_some_app. reflexivity. Qed.

Lemma authIndex_of_handle (file : value) :
  JS.nullish file = false -> authIndex_of file = Ok (handle_of file).
Proof.
  intro H. unfold authIndex_of, rbind. rewrite (get_not_nullish _ _ H).
  reflexivity.
Qed.

Section AdapterFacts.

Variable JSON_parse : string -> option value.
Variable request_post : list event -> ApiCallRequest -> result value.

Local Abbreviation call := (apiCallApi_request JSON_parse request_post).

(** What apiCallApi.request makes of an answer that is not null. *)
Lemma call_fields (req : ApiCallRequest) (log : list event)
  (response : value) :
  request_post log req = Ok response ->
  JS.nullish response = false ->
  call req log =
  (Ok {| statusCode := raw_status response;
         header :=
           JS.or (JS.get_opt response "header")
             (JS.or (JS.get_opt response "headers") (VObj []));
         bodyText := JS.or (JS.get_opt response "body") (VStr "");
         body := parseBody JSON_parse (JS.get_opt response "body") |},
   (log ++ [EvRequest req])%list).
Proof.
  intros E N. unfold apiCallApi_request, bind, post, lift, ret.
  rewrite E, (get_not_nullish _ _ N). reflexivity.
Qed.

Lemma or_truthy_or_default (a d : value) :
  JS.truthy (JS.or a d) = true \/ JS.or a d = d.
Proof. unfold JS.or. destruct (JS.truthy a) eqn:T; auto. Qed.

Lemma parseBody_blank (b : value) :
  blank_body b = true -> parseBody JSON_parse b = VNull.
Proof.
  destruct b; try discriminate; try reflexivity.
  cbn [blank_body parseBody]. intros ->. reflexivity.
Qed.

(** X5.  apiCallApi.request posts exactly once, whatever comes of it.
    An exception of the post is passed on unchanged and an answer that is
    null or undefined is a TypeError.  Of any other answer it returns a
    response whose statusCode is truthy or the number 0, whose header is
    truthy, whose bodyText is truthy or the empty string, and whose body
    is null when the answer's body is absent or blank and the answer's
    body itself when that is neither a string nor absent. *)
Theorem apiCallApi_request_normalises (req : ApiCallRequest)
  (log : list event) :
  snd (call req log) = (log ++ [EvRequest req])%list /\
  (forall e, request_post log req = Throw e ->
             fst (call req log) = Throw e) /\
  (forall response,
     request_post log req = Ok response -> JS.nullish response = true ->
     exists m, fst (call req log) = Throw (TypeErr m)) /\
  (forall response,
     request_post log req = Ok response -> JS.nullish response = false ->
     exists r,
       fst (call req log) = Ok r /\
       (JS.truthy (statusCode r) = true \/ statusCode r = VNum (Num.of_Z 0)) /\
       JS.truthy (header r) = true /\
       (JS.truthy (bodyText r) = true \/ bodyText r = VStr "") /\
       (blank_body (JS.get_opt response "body") = true -> body r = VNull) /\
       (JS.nullish (JS.get_opt response "body") = false ->
        JS.is_string (JS.get_opt response "body") = false ->
        body r = JS.get_opt response "body")).
Proof.
  split; [apply call_log|]. split; [|split].
  - intros e E. unfold apiCallApi_request, bind, post. rewrite E. reflexivity.
  - intros response E N. unfold apiCallApi_request, bind, post, lift.
    rewrite E. unfold JS.get. rewrite N. eexists. reflexivity.
  - intros response E N. rewrite (call_fields _ _ _ E N).
    eexists. split; [reflexivity|]. cbn [statusCode header bodyText body].
    split; [|split; [|split; [|split]]].
    + unfold raw_status.
      destruct (or_truthy_or_default (JS.get_opt response "status_code")
                  (JS.or (JS.get_opt response "statusCode")
                     (VNum (Num.of_Z 0)))) as [T | ->]; [left; exact T|].
      apply or_truthy_or_default.
    + destruct (or_truthy_or_default (JS.get_opt response "header")
                  (JS.or (JS.get_opt response "headers") (VObj [])))
        as [T | ->]; [exact T|].
      destruct (or_truthy_or_default (JS.get_opt response "headers")
                  (VObj [])) as [T | ->]; [exact T|reflexivity].
    + apply or_truthy_or_default.
    + apply parseBody_blank.
    + destruct (JS.get_opt response "body"); try discriminate; reflexivity.
Qed.

End AdapterFacts.

(** An upstream 204 without a body: status 204, the empty text, and a
    null body. *)
Lemma apiCallApi_request_normalises_witness :
  fst (ExampleFetch.call ExampleAnswers.no_content
         (ExampleFetch.request_to ExampleFetch.url1) []) =
  Ok {| statusCode := Example.num 204; header := VObj [];
        bodyText := VStr ""; body := VNull |}.
Proof.
  destruct (apiCallApi_request_normalises Json.parse ExampleAnswers.no_content
              (ExampleFetch.request_to ExampleFetch.url1) [])
    as (_ & _ & _ & H).
  destruct (H _ eq_refl eq_refl) as (r & E & _).
  unfold ExampleFetch.call. rewrite E. vm_compute in E.
  injection E as <-. reflexivity.
Defined.

(** ** What the Gemini CLI and Codex fetches make of an answer *)

Lemma geminiCliQuota_parse_null :
  exists m, geminiCliQuota_parse VNull = Throw (TypeErr m).
Proof. eexists. reflexivity. Qed.

Section FetchOutcomes.

Variable fraction_to_string : Q -> string.
Variable JSON_parse : string -> option value.
Variable JSON_stringify : value -> string.
Variable Date_now : nat -> number.
Variable authFilesApi_download : list event -> value -> result string.
Variable request_post : list event -> ApiCallRequest -> result value.

Local Abbreviation gemini :=
  (geminiCliQuota_fetch fraction_to_string JSON_parse JSON_stringify
     authFilesApi_download request_post).
Local Abbreviation codex :=
  (codexQuota_fetch fraction_to_string JSON_parse JSON_stringify Date_now
     authFilesApi_download request_post).
Local Abbreviation non2xx :=
  (createNon2xxError fraction_to_string JSON_stringify).
Local Abbreviation normalised response :=
  {| statusCode := raw_status response;
     header :=
       JS.or (JS.get_opt response "header")
         (JS.or (JS.get_opt response "headers") (VObj []));
     bodyText := JS.or (JS.get_opt response "body") (VStr "");
     body := parseBody JSON_parse (JS.get_opt response "body") |}.

Lemma non2xx_status (r : ApiCallResponse) (n : number) :
  statusCode r = VNum n ->
  Num.isFinite n && Num.gt n (Num.of_Z 0) = true ->
  exists m, non2xx r = Ok (Err m (Some n)).
Proof.
  intros E P.
  unfold createNon2xxError, formatNon2xxError, resolveStatusCode,
    positive_finite, rbind.
  rewrite E, P. eexists. reflexivity.
Qed.

(** What follows the call in both fetches: the test of the status, and
    the error that is thrown when it is outside [200,300). *)
Local Abbreviation after_call r parsed :=
  (match not_2xx (statusCode r) with
   | Ok true =>
       match non2xx r with
       | Ok e => Throw e
       | Throw e => Throw e
       end
   | Ok false => parsed
   | Throw e => Throw e
   end).

Lemma gemini_fetch_answer (file : value) (projectId : option string)
  (log log1 : list event) (response : value) :
  JS.nullish file = false ->
  resolveGeminiCliProjectId JSON_parse authFilesApi_download
    (JS.get_opt file "name") log = (Ok projectId, log1) ->
  request_post log1
    (geminiCli_request JSON_stringify (handle_of file) projectId)
  = Ok response ->
  JS.nullish response = false ->
  gemini file log =
  (after_call (normalised response)
     (geminiCliQuota_parse (parseBody JSON_parse (JS.get_opt response "body"))),
   (log1 ++ [EvRequest (geminiCli_request JSON_stringify (handle_of file)
                          projectId)])%list).
Proof.
  intros Hf Hr Hp Hn. unfold geminiCliQuota_fetch, bind, lift.
  rewrite (authIndex_of_handle _ Hf), Hr, (call_fields _ _ _ _ _ Hp Hn).
  cbn [statusCode body].
  destruct (not_2xx (raw_status response)) as [[|]|]; try reflexivity.
  destruct (createNon2xxError _ _ _); reflexivity.
Qed.

(** X6.  geminiCliQuota.fetch, once the project id is resolved, posts
    one request, and what it makes of an answer that is not null depends
    on the status alone.  A status that is a positive number outside
    [200,300) rejects with an Error that carries this number as
    statusCode.  Every status for which [status < 200 || status >= 300]
    is false lets the body go to the parse: the result of the fetch is
    the result of the parse, and when the body is absent or blank the
    parse is given null and the fetch rejects with a TypeError. *)
Theorem geminiCli_fetch_outcomes (file : value) (projectId : option string)
  (log log1 : list event) (response : value) :
  JS.nullish file = false ->
  resolveGeminiCliProjectId JSON_parse authFilesApi_download
    (JS.get_opt file "name") log = (Ok projectId, log1) ->
  let req := geminiCli_request JSON_stringify (handle_of file) projectId in
  request_post log1 req = Ok response ->
  JS.nullish response = false ->
  let fetched := gemini file log in
  let b := JS.get_opt response "body" in
  snd fetched = (log1 ++ [EvRequest req])%list /\
  (forall n,
     raw_status response = VNum n ->
     Num.isFinite n && Num.gt n (Num.of_Z 0) = true ->
     not_2xx (VNum n) = Ok true ->
     exists m, fst fetched = Throw (Err m (Some n))) /\
  (not_2xx (raw_status response) = Ok false ->
   fst fetched = geminiCliQuota_parse (parseBody JSON_parse b)) /\
  (not_2xx (raw_status response) = Ok false -> blank_body b = true ->
   exists m, fst fetched = Throw (TypeErr m)).
Proof.
  intros Hf Hr req Hp Hn. cbv zeta.
  rewrite (gemini_fetch_answer _ _ _ _ _ Hf Hr Hp Hn). cbn [fst snd].
  cbn [statusCode].
  split; [reflexivity|]. split; [|split].
  - intros n E P O.
    destruct (non2xx_status (normalised response) n E P) as (m & ->).
    rewrite E, O. exists m. reflexivity.
  - intros ->. reflexivity.
  - intros -> B. rewrite (parseBody_blank _ _ B).
    exact geminiCliQuota_parse_null.
Qed.

Lemma resolveCodexAccountId_posted (file : value) (log : list event) :
  posted (snd (resolveCodexAccountId JSON_parse authFilesApi_download
                 file log)) = posted log.
Proof.
  unfold resolveCodexAccountId, bind, lift.
  destruct (JS.get file "id_token"); [|reflexivity].
  destruct (first_account_id JSON_parse _) as [[id|]|e]; try reflexivity.
  destruct (downloadAuthFileJson_total JSON_parse authFilesApi_download
              (JS.get_opt file "name") log) as (parsed & ->).
  destruct (JS.truthy parsed && JS.is_object_type parsed);
    [destruct (extractAccountIdFromIdToken JSON_parse _)|];
    apply posted_download.
Qed.

(** X7.  codexQuota.fetch calls the management API only with an account
    id.  When resolveCodexAccountId finds none, the fetch rejects with
    "Missing chatgpt_account_id in id_token" and no request has been
    posted.  When it finds one, the fetch posts exactly one request: a
    GET of the usage URL without a body, whose Chatgpt-Account-Id header
    is the id. *)
Theorem codex_fetch_requires_account_id (file : value)
  (found : option string) (log log1 : list event) :
  JS.nullish file = false ->
  resolveCodexAccountId JSON_parse authFilesApi_download file log =
    (Ok found, log1) ->
  let fetched := codex file log in
  match found with
  | None =>
      fetched =
        (Throw (Err "Missing chatgpt_account_id in id_token" None), log1) /\
      posted (snd fetched) = posted log
  | Some accountId =>
      let req := codex_request (handle_of file) accountId in
      posted (snd fetched) = (posted log ++ [req])%list /\
      req_method req = "GET" /\ req_url req = codex_URL /\
      req_data req = None /\
      In ("Chatgpt-Account-Id", accountId) (req_header req)
  end.
Proof.
  intros Hf Hr. cbv zeta.
  pose proof (resolveCodexAccountId_posted file log) as P.
  rewrite Hr in P. cbn [snd] in P.
  unfold codexQuota_fetch, bind, lift.
  rewrite (authIndex_of_handle _ Hf), Hr.
  destruct found as [accountId|].
  - rewrite (resolveCodexPlanTypeFromFile_first _ Hf).
    match goal with
    | |- context [apiCallApi_request ?p ?o ?q ?l] =>
        pose proof (call_log p o q l) as L;
        destruct (apiCallApi_request p o q l) as [[r|e] l']
    end; cbn [snd] in L; subst l'.
    + split.
      * destruct (not_2xx (statusCode r)) as [[|]|]; cbn [snd throw];
          try destruct (createNon2xxError _ _ r); cbn [snd throw];
          rewrite posted_request, P; reflexivity.
      * cbn. auto 10.
    + split; [cbn [snd]; rewrite posted_request, P; reflexivity|].
      cbn. auto 10.
  - split; [reflexivity|exact P].
Qed.

Lemma codex_fetch_answer (file : value) (accountId : string)
  (log log1 : list event) (response : value) :
  JS.nullish file = false ->
  resolveCodexAccountId JSON_parse authFilesApi_download file log =
    (Ok (Some accountId), log1) ->
  request_post log1 (codex_request (handle_of file) accountId)
  = Ok response ->
  JS.nullish response = false ->
  codex file log =
  (after_call (normalised response)
     (codexQuota_parse fraction_to_string Date_now
        (parseBody JSON_parse (JS.get_opt response "body"))
        (option_map Str.toLowerCase
           (first_text (plan_type_candidates file)))),
   (log1 ++ [EvRequest (codex_request (handle_of file) accountId)])%list).
Proof.
  intros Hf Hr Hp Hn. unfold codexQuota_fetch, bind, lift.
  rewrite (authIndex_of_handle _ Hf), Hr,
    (resolveCodexPlanTypeFromFile_first _ Hf),
    (call_fields _ _ _ _ _ Hp Hn).
  cbn [statusCode body].
  destruct (not_2xx (raw_status response)) as [[|]|]; try reflexivity.
  destruct (createNon2xxError _ _ _); reflexivity.
Qed.

(** X8.  What codexQuota.fetch makes of an answer that is not null.  A
    status that is a positive number outside [200,300) rejects with an
    Error that carries this number as statusCode.  Every status for
    which [status < 200 || status >= 300] is false lets the body go to
    the parse, together with the plan type read from the file: the
    result of the fetch is the result of the parse, and when the body is
    absent or blank the parse is given null and the fetch rejects with a
    TypeError. *)
Theorem codex_fetch_outcomes (file : value) (accountId : string)
  (log log1 : list event) (response : value) :
  JS.nullish file = false ->
  resolveCodexAccountId JSON_parse authFilesApi_download file log =
    (Ok (Some accountId), log1) ->
  request_post log1 (codex_request (handle_of file) accountId)
  = Ok response ->
  JS.nullish response = false ->
  let fetched := codex file log in
  let b := JS.get_opt response "body" in
  (forall n,
     raw_status response = VNum n ->
     Num.isFinite n && Num.gt n (Num.of_Z 0) = true ->
     not_2xx (VNum n) = Ok true ->
     exists m, fst fetched = Throw (Err m (Some n))) /\
  (not_2xx (raw_status response) = Ok false ->
   fst fetched =
   codexQuota_parse fraction_to_string Date_now (parseBody JSON_parse b)
     (option_map Str.toLowerCase (first_text (plan_type_candidates file)))) /\
  (not_2xx (raw_status response) = Ok false -> blank_body b = true ->
   exists m, fst fetched = Throw (TypeErr m)).
Proof.
  intros Hf Hr Hp Hn. cbv zeta.
  rewrite (codex_fetch_answer _ _ _ _ _ Hf Hr Hp Hn). cbn [fst].
  cbn [statusCode].
  split; [|split].
  - intros n E P O.
    destruct (non2xx_status (normalised response) n E P) as (m & ->).
    rewrite E, O. exists m. reflexivity.
  - intros ->. reflexivity.
  - intros -> B. rewrite (parseBody_blank _ _ B).
    eexists. reflexivity.
Qed.

End FetchOutcomes.

(** A 429 rejects with the status attached, and a 204 without a body
    rejects with a TypeError. *)
Lemma geminiCli_fetch_outcomes_witness :
  fst (ExampleAnswers.fetch_gemini ExampleAnswers.too_many) =
    Throw (Err "HTTP 429: Quota exceeded" (Some (Num.of_Z 429))) /\
  exists m, fst (ExampleAnswers.fetch_gemini ExampleAnswers.no_content) =
            Throw (TypeErr m).
Proof.
  split.
  - destruct (geminiCli_fetch_outcomes Example.fraction_to_string Json.parse
                Example.JSON_stringify ExampleGemini.stored
                ExampleAnswers.too_many ExampleAnswers.gemini_file
                (Some "first-project") [] [EvDownload (VStr "gemini-dev.json")]
                (ExampleFetch.response 429 ExampleError.quota_exceeded)
                eq_refl eq_refl eq_refl eq_refl) as (_ & H & _).
    destruct (H (Num.of_Z 429) eq_refl eq_refl eq_refl) as (m & E).
    unfold ExampleAnswers.fetch_gemini, run. rewrite E.
    vm_compute in E. injection E as <-. reflexivity.
  - destruct (geminiCli_fetch_outcomes Example.fraction_to_string Json.parse
                Example.JSON_stringify ExampleGemini.stored
                ExampleAnswers.no_content ExampleAnswers.gemini_file
                (Some "first-project") [] [EvDownload (VStr "gemini-dev.json")]
                (VObj [ ("status_code", Example.num 204); ("body", VStr "") ])
                eq_refl eq_refl eq_refl eq_refl) as (_ & _ & _ & H).
    exact (H eq_refl eq_refl).
Defined.

(** Without an id_token in the listing and without a credential file,
    nothing is posted. *)
Lemma codex_fetch_requires_account_id_witness :
  ExampleAnswers.fetch_codex ExampleAnswers.too_many ExampleCodexFile.bare =
  (Throw (Err "Missing chatgpt_account_id in id_token" None),
   [EvDownload (VStr "codex-user.json")]).
Proof.
  exact (proj1 (codex_fetch_requires_account_id Example.fraction_to_string
                  Json.parse Example.JSON_stringify Example.Date_now
                  ExampleFetch.no_download ExampleAnswers.too_many
                  ExampleCodexFile.bare None []
                  [EvDownload (VStr "codex-user.json")] eq_refl eq_refl)).
Defined.

(** With the id of the listing, a 429 rejects with the status attached. *)
Lemma codex_fetch_outcomes_witness :
  fst (ExampleAnswers.fetch_codex ExampleAnswers.too_many
         ExampleCodexFile.listed) =
  Throw (Err "HTTP 429: Quota exceeded" (Some (Num.of_Z 429))).
Proof.
  destruct (codex_fetch_outcomes Example.fraction_to_string Json.parse
              Example.JSON_stringify Example.Date_now
              ExampleFetch.no_download ExampleAnswers.too_many
              ExampleCodexFile.listed "acct_123" [] []
              (ExampleFetch.response 429 ExampleError.quota_exceeded)
              eq_refl eq_refl eq_refl eq_refl) as (H & _).
  destruct (H (Num.of_Z 429) eq_refl eq_refl eq_refl) as (m & E).
  unfold ExampleAnswers.fetch_codex, run. rewrite E.
  vm_compute in E. injection E as <-. reflexivity.
Defined.

(** ** The groups of an Antigravity answer *)

Lemma is_subsequence_steps (b : list string) :
  (forall x a, is_subsequence (x :: a) b = true -> is_subsequence a b = true)
  /\ (forall a y, is_subsequence a b = true ->
                  is_subsequence a (y :: b) = true).
Proof.
  induction b as [|z b [IH1 IH2]].
  - split; [discriminate|].
    intros [|x a] y H; [reflexivity|discriminate].
  - assert (S1 : forall x a, is_subsequence (x :: a) (z :: b) = true ->
                             is_subsequence a (z :: b) = true).
    { intros x a. cbn [is_subsequence].
      destruct (String.eqb x z); intro H; [exact (IH2 _ _ H)|].
      exact (IH2 _ _ (IH1 _ _ H)). }
    split; [exact S1|].
    intros [|x a] y H; [reflexivity|].
    cbn [is_subsequence]. destruct (String.eqb x y); [|exact H].
    exact (S1 _ _ H).
Qed.

Lemma is_subsequence_skip (a b : list string) (y : string) :
  is_subsequence a b = true -> is_subsequence a (y :: b) = true.
Proof. apply is_subsequence_steps. Qed.

Lemma is_subsequence_take (a b : list string) (x : string) :
  is_subsequence a b = true -> is_subsequence (x :: a) (x :: b) = true.
Proof. intro H. cbn [is_subsequence]. rewrite String.eqb_refl. exact H. Qed.

Lemma is_subsequence_In (b a : list string) (x : string) :
  is_subsequence a b = true -> In x a -> In x b.
Proof.
  revert a. induction b as [|y b IH]; intros [|z a] H Hin;
    try destruct Hin; try discriminate.
  - cbn [is_subsequence] in H. destruct (String.eqb z y) eqn:E.
    + apply String.eqb_eq in E. subst. left. reflexivity.
    + subst. right. apply (IH (x :: a) H). left. reflexivity.
  - cbn [is_subsequence] in H. destruct (String.eqb z y) eqn:E.
    + right. exact (IH a H H0).
    + right. apply (IH (z :: a) H). right. exact H0.
Qed.

Lemma is_subsequence_NoDup (b a : list string) :
  is_subsequence a b = true -> NoDup b -> NoDup a.
Proof.
  revert a. induction b as [|y b IH]; intros [|x a] H Hb;
    try constructor; try discriminate.
  - cbn [is_subsequence] in H. inversion Hb as [|? ? Hy Hb']; subst.
    destruct (String.eqb x y) eqn:E.
    + apply String.eqb_eq in E. subst. intro Hin.
      apply Hy. exact (is_subsequence_In _ _ _ H Hin).
    + pose proof (IH _ H Hb') as N. inversion N. assumption.
  - cbn [is_subsequence] in H. inversion Hb as [|? ? Hy Hb']; subst.
    destruct (String.eqb x y) eqn:E.
    + exact (IH _ H Hb').
    + pose proof (IH _ H Hb') as N. inversion N. assumption.
Qed.

Lemma is_subsequence_length (b a : list string) :
  is_subsequence a b = true -> (List.length a <= List.length b)%nat.
Proof.
  revert a. induction b as [|y b IH]; intros [|x a] H; cbn [List.length];
    try lia; try discriminate.
  cbn [is_subsequence] in H. destruct (String.eqb x y).
  - specialize (IH _ H). lia.
  - specialize (IH _ H). cbn [List.length] in IH. lia.
Qed.

(** A group that is pushed has the label and the flag of its
    definition, and the reset time that [find] picks. *)
Lemma group_of_fields (models : value) (groupDef : modelGroup)
  (g : Antigravity.group) :
  group_of models groupDef = Ok (Some g) ->
  Antigravity.name g = mg_label groupDef /\
  Antigravity.hideInTable g = mg_hideInTable groupDef /\
  exists matches entries,
    group_matches models (mg_identifiers groupDef) = Ok matches /\
    quotaEntries_of matches = Ok entries /\
    Antigravity.resetTime g = first_resetTime entries.
Proof.
  unfold group_of, rbind.
  destruct (group_matches models (mg_identifiers groupDef)) as [matches|];
    [|discriminate].
  destruct matches as [|m ms]; [discriminate|].
  destruct (quotaEntries_of (m :: ms)) as [[|e es]|] eqn:E;
    [discriminate| |discriminate].
  intro H. injection H as <-. cbn. repeat split.
  exists (m :: ms), (e :: es). repeat split. exact E.
Qed.

Lemma groups_of_names (models : value) (defs : list modelGroup) :
  forall gs,
  groups_of models defs = Ok gs ->
  is_subsequence (map Antigravity.name gs) (map mg_label defs) = true /\
  forall g, In g gs ->
    exists groupDef,
      In groupDef defs /\ group_of models groupDef = Ok (Some g).
Proof.
  induction defs as [|d defs IH]; intros gs H.
  - injection H as <-. split; [reflexivity|]. intros g [].
  - cbn [groups_of] in H. unfold rbind in H.
    destruct (group_of models d) as [og|] eqn:Eg; [|discriminate].
    destruct (groups_of models defs) as [gs'|] eqn:Egs; [|discriminate].
    injection H as <-. destruct (IH gs' eq_refl) as [S P].
    destruct og as [g0|].
    + split.
      * cbn [map]. destruct (group_of_fields _ _ _ Eg) as (-> & _).
        apply is_subsequence_take. exact S.
      * intros g [<- | Hin].
        -- exists d. split; [left; reflexivity|exact Eg].
        -- destruct (P g Hin) as (gd & Hd & Hg).
           exists gd. split; [right; exact Hd|exact Hg].
    + split.
      * cbn [map]. apply is_subsequence_skip. exact S.
      * intros g Hin. destruct (P g Hin) as (gd & Hd & Hg).
        exists gd. split; [right; exact Hd|exact Hg].
Qed.

Lemma antigravity_parse_groups (data : value) (d : Antigravity.data) :
  antigravityQuota_parse data = Ok d ->
  Antigravity.groups d = [] \/
  groups_of (models_of data) modelGroups = Ok (Antigravity.groups d).
Proof.
  unfold antigravityQuota_parse, rbind, models_of.
  destruct (JS.get data "models") as [raw|] eqn:G; [|discriminate].
  apply get_ok in G as [_ ->].
  destruct (_ || _).
  - intro H. injection H as <-. left. reflexivity.
  - destruct (groups_of _ modelGroups) as [gs|]; [|discriminate].
    intro H. injection H as <-. right. reflexivity.
Qed.

(** X9.  The groups that antigravityQuota.parse returns follow the list
    of group definitions: their names are labels of the list, in the
    order of the list and each at most once, so there are never more
    than eight; and a group is hidden in the table exactly when it is
    "Gemini 2.5 Flash Lite". *)
Theorem antigravity_groups_follow_definitions (data : value)
  (d : Antigravity.data) :
  antigravityQuota_parse data = Ok d ->
  let names := map Antigravity.name (Antigravity.groups d) in
  is_subsequence names (map mg_label modelGroups) = true /\
  NoDup names /\
  (List.length (Antigravity.groups d) <= 8)%nat /\
  forall g,
    In g (Antigravity.groups d) ->
    Antigravity.hideInTable g =
    String.eqb (Antigravity.name g) "Gemini 2.5 Flash Lite".
Proof.
  intros H names.
  assert (S : is_subsequence names (map mg_label modelGroups) = true /\
              forall g, In g (Antigravity.groups d) ->
                exists groupDef, In groupDef modelGroups /\
                  Antigravity.name g = mg_label groupDef /\
                  Antigravity.hideInTable g = mg_hideInTable groupDef).
  { destruct (antigravity_parse_groups _ _ H) as [E | E].
    - unfold names. rewrite E. split; [reflexivity|]. intros g [].
    - destruct (groups_of_names _ _ _ E) as [S P]. split; [exact S|].
      intros g Hin. destruct (P g Hin) as (gd & Hd & Hg).
      exists gd. destruct (group_of_fields _ _ _ Hg) as (N & Hi & _). auto. }
  destruct S as [S P]. split; [exact S|]. split; [|split].
  - apply (is_subsequence_NoDup _ _ S).
    repeat (constructor; [cbn; intuition discriminate|]). constructor.
  - pose proof (is_subsequence_length _ _ S) as L.
    unfold names in L. rewrite length_map in L. exact L.
  - intros g Hin. destruct (P g Hin) as (gd & Hd & -> & ->).
    cbn in Hd. decompose [or] Hd; subst; try reflexivity. contradiction.
Qed.

(** Three models of two groups: the groups come in the order of the
    definitions and the second is hidden. *)
Lemma antigravity_groups_follow_definitions_witness :
  ExampleReset.summary (antigravityQuota_parse ExampleReset.reset_answer) =
    [ ("Gemini 3 Pro", Num.of_Z 20, VStr "2026-01-01T00:00:00Z", false);
      ("Gemini 2.5 Flash Lite", Num.of_Z 50, VUndefined, true) ] /\
  is_subsequence
    (map Antigravity.name (Antigravity.groups ExampleReset.parsed_answer))
    (map mg_label modelGroups) = true /\
  NoDup
    (map Antigravity.name (Antigravity.groups ExampleReset.parsed_answer)) /\
  (List.length (Antigravity.groups ExampleReset.parsed_answer) <= 8)%nat /\
  forall g,
    In g (Antigravity.groups ExampleReset.parsed_answer) ->
    Antigravity.hideInTable g =
    String.eqb (Antigravity.name g) "Gemini 2.5 Flash Lite".
Proof.
  split; [vm_compute; reflexivity|].
  apply (antigravity_groups_follow_definitions ExampleReset.reset_answer).
  vm_compute. reflexivity.
Defined.

Lemma quota_entry_reset (m : string * value) (r : option quotaEntry) :
  quota_entry_of m = Ok r ->
  match r with
  | Some e => qe_resetTime e = reset_of (snd m)
  | None => JS.truthy (reset_of (snd m)) = false
  end.
Proof.
  destruct m as [id entry].
  unfold quota_entry_of, reset_of, quotaInfo_of, rbind. cbn [snd].
  destruct (parse_fraction _) as [parsed|]; [|discriminate].
  destruct (Num.isNaN parsed).
  - destruct (JS.truthy (JS.or _ _)); intro H; injection H as <-;
      reflexivity.
  - intro H. injection H as <-. reflexivity.
Qed.

(** An entry that is dropped has no reset time, so [find] over the
    entries that are kept is [find] over all the matches. *)
Lemma first_resetTime_matches (matches : list (string * value))
  (entries : list quotaEntry) :
  quotaEntries_of matches = Ok entries ->
  first_resetTime entries =
  first_truthy (map (fun m => reset_of (snd m)) matches).
Proof.
  unfold quotaEntries_of, rbind.
  destruct (map_entries matches) as [mapped|] eqn:E; [|discriminate].
  intro H. injection H as <-. revert mapped E.
  induction matches as [|m ms IH]; intros mapped E.
  - injection E as <-. reflexivity.
  - cbn [map_entries] in E. unfold rbind in E.
    destruct (quota_entry_of m) as [r|] eqn:Q; [|discriminate].
    destruct (map_entries ms) as [rest|]; [|discriminate].
    injection E as <-. cbn [map first_truthy].
    pose proof (quota_entry_reset m r Q) as R.
    specialize (IH rest eq_refl). destruct r as [e|].
    + cbn [filter_some first_resetTime]. rewrite R, IH. reflexivity.
    + cbn [filter_some]. rewrite R. exact IH.
Qed.

Lemma first_truthy_cases (l : list value) :
  JS.truthy (first_truthy l) = true \/ first_truthy l = VUndefined.
Proof.
  induction l as [|v l IH]; [right; reflexivity|].
  cbn [first_truthy]. destruct (JS.truthy v) eqn:T; [left; exact T|exact IH].
Qed.

(** X10.  The reset time of a group that antigravityQuota.parse returns
    is the reset time ([resetTime || reset_time] of the quota info) of
    the first model matched for the group, in the order of the group's
    identifiers, that has one, whether or not this model is the one that
    gives the group its percent; it is undefined when no matched model
    has one. *)
Theorem antigravity_group_reset_time (data : value) (d : Antigravity.data)
  (g : Antigravity.group) :
  antigravityQuota_parse data = Ok d ->
  In g (Antigravity.groups d) ->
  exists groupDef matches,
    In groupDef modelGroups /\
    Antigravity.name g = mg_label groupDef /\
    group_matches (models_of data) (mg_identifiers groupDef) = Ok matches /\
    Antigravity.resetTime g =
      first_truthy (map (fun m => reset_of (snd m)) matches) /\
    (JS.truthy (Antigravity.resetTime g) = true \/
     Antigravity.resetTime g = VUndefined).
Proof.
  intros H Hin.
  destruct (antigravity_parse_groups _ _ H) as [E | E];
    [rewrite E in Hin; destruct Hin|].
  destruct (groups_of_names _ _ _ E) as [_ P].
  destruct (P g Hin) as (gd & Hd & Hg).
  destruct (group_of_fields _ _ _ Hg) as (N & _ & matches & entries & M & Q & R).
  exists gd, matches. rewrite R, (first_resetTime_matches _ _ Q).
  repeat split; try assumption. apply first_truthy_cases.
Qed.

(** The group "Gemini 3 Pro" has the percent of its second model and the
    reset time of its first. *)
Lemma antigravity_group_reset_time_witness :
  (Antigravity.name ExampleReset.first_group = "Gemini 3 Pro" /\
   Antigravity.percent ExampleReset.first_group = Num.of_Z 20 /\
   Antigravity.resetTime ExampleReset.first_group =
     VStr "2026-01-01T00:00:00Z") /\
  exists groupDef matches,
    In groupDef modelGroups /\
    Antigravity.name ExampleReset.first_group = mg_label groupDef /\
    group_matches (models_of ExampleReset.reset_answer)
      (mg_identifiers groupDef) = Ok matches /\
    Antigravity.resetTime ExampleReset.first_group =
      first_truthy (map (fun m => reset_of (snd m)) matches) /\
    (JS.truthy (Antigravity.resetTime ExampleReset.first_group) = true \/
     Antigravity.resetTime ExampleReset.first_group = VUndefined).
Proof.
  split; [repeat split|].
  apply (antigravity_group_reset_time ExampleReset.reset_answer
           ExampleReset.parsed_answer ExampleReset.first_group).
  - vm_compute. reflexivity.
  - left. reflexivity.
Defined.

(** ** When the parses return *)










Lemma round64_not_NaN (q : Q) : Num.isNaN (Num.round64 q) = false.
Proof.
  unfold Num.round64, Num.round_pos.
  destruct (Qcompare q 0); [reflexivity| |];
    destruct (Qle_bool _ _); reflexivity.
Qed.

Lemma nullish_convertible (v : value) :
  JS.nullish v = true -> convertible v = true.
Proof. destruct v; try discriminate; reflexivity. Qed.

(** The fraction is read exactly when it converts, and reads as NaN
    exactly when parseFloat finds no number in it. *)
Lemma parse_fraction_cases (raw : value) :
  if convertible raw
  then exists f, parse_fraction raw = Ok f /\
                 Num.isNaN f = Num.isNaN (float_of raw)
  else parse_fraction raw = Throw conversion_error.
Proof.
  destruct (convertible raw) eqn:C.
  - destruct raw as [| |b|n|s|items|fields];
      try (eexists; split; [unfold parse_fraction, parseFloat; rewrite C|];
           reflexivity).
    cbn [parse_fraction float_of]. destruct (Str.endsWith s "%");
      eexists; (split; [reflexivity|]); [|reflexivity].
    destruct (parseFloat_string s); try reflexivity.
    cbn [Num.div_pos]. apply round64_not_NaN.
  - destruct raw; try discriminate C;
      unfold parse_fraction, parseFloat; rewrite C; reflexivity.
Qed.

Lemma bucket_fraction_returns (bucket : value) :
  (exists r, bucket_fraction bucket = Ok r) <-> bucket_converts bucket = true.
Proof.
  unfold bucket_fraction, bucket_converts, rbind.
  fold (fraction_of_bucket bucket) (amount_of_bucket bucket).
  pose proof (parse_fraction_cases (fraction_of_bucket bucket)) as P.
  destruct (convertible (fraction_of_bucket bucket)); cbn [andb].
  - destruct P as (f & -> & ->).
    destruct (Num.isNaN (float_of (fraction_of_bucket bucket)));
      cbn [negb orb]; [|split; [reflexivity|eexists; reflexivity]].
    destruct (JS.nullish (amount_of_bucket bucket)) eqn:N; cbn [negb].
    + rewrite (nullish_convertible _ N).
      split; [reflexivity|eexists; reflexivity].
    + unfold to_number. destruct (convertible (amount_of_bucket bucket)).
      * split; [reflexivity|eexists; reflexivity].
      * split; [intros (r & H); discriminate|discriminate].
  - rewrite P. split; [intros (r & H); discriminate|discriminate].
Qed.

Lemma bucket_of_returns (bucket : value) :
  (exists r, bucket_of bucket = Ok r) <-> bucket_ok bucket = true.
Proof.
  unfold bucket_of, bucket_ok, JS.get, rbind.
  destruct (JS.nullish bucket); cbn [negb andb].
  - split; [intros (r & H); discriminate|discriminate].
  - destruct (JS.or (JS.get_opt bucket "modelId")
                (JS.get_opt bucket "model_id"))
      as [| |b|n|s|items|fields] eqn:E; cbn [JS.truthy negb].
    + split; [reflexivity|eexists; reflexivity].
    + split; [reflexivity|eexists; reflexivity].
    + destruct b; cbn [negb].
      * split; [intros (r & H); discriminate|discriminate].
      * split; [reflexivity|eexists; reflexivity].
    + destruct (Num.truthy n); cbn [negb].
      * split; [intros (r & H); discriminate|discriminate].
      * split; [reflexivity|eexists; reflexivity].
    + destruct (Str.is_empty s); cbn [negb orb].
      * split; [reflexivity|eexists; reflexivity].
      * rewrite <- bucket_fraction_returns. split.
        -- intros (r & H).
           destruct (bucket_fraction bucket) as [f|]; [|discriminate].
           eexists. reflexivity.
        -- intros (f & ->). destruct f; eexists; reflexivity.
    + split; [intros (r & H); discriminate|discriminate].
    + split; [intros (r & H); discriminate|discriminate].
Qed.

Lemma buckets_of_returns (rawBuckets : list value) :
  (exists bs, buckets_of rawBuckets = Ok bs) <->
  forallb bucket_ok rawBuckets = true.
Proof.
  induction rawBuckets as [|b rest IH].
  - split; [reflexivity|eexists; reflexivity].
  - cbn [buckets_of forallb]. rewrite andb_true_iff, <- IH,
      <- bucket_of_returns.
    split.
    + intros (bs & H). unfold rbind in H.
      destruct (bucket_of b) as [x|]; [|discriminate].
      destruct (buckets_of rest) as [xs|]; [|discriminate].
      split; eexists; reflexivity.
    + intros [(x & ->) (xs & ->)]. eexists. reflexivity.
Qed.

Lemma buckets_of_length (rawBuckets : list value) :
  forall bs, buckets_of rawBuckets = Ok bs ->
  (List.length bs <= List.length rawBuckets)%nat.
Proof.
  induction rawBuckets as [|b rest IH]; intros bs H.
  - injection H as <-. reflexivity.
  - cbn [buckets_of] in H. unfold rbind in H.
    destruct (bucket_of b) as [x|]; [|discriminate].
    destruct (buckets_of rest) as [xs|]; [|discriminate].
    injection H as <-. specialize (IH xs eq_refl).
    destruct x; cbn [List.length]; lia.
Qed.

Lemma geminiCli_parse_buckets (data : value) :
  JS.nullish data = false ->
  geminiCliQuota_parse data =
  rbind (buckets_of (rawBuckets_of data))
    (fun bs => Ok {| GeminiCli.buckets := bs |}).
Proof.
  intro N. unfold geminiCliQuota_parse, rawBuckets_of, rbind.
  rewrite (get_not_nullish _ _ N).
  destruct (JS.or (JS.get_opt data "buckets") (VArr [])); reflexivity.
Qed.

(** X12.  For an answer that is not null, geminiCliQuota.parse returns
    exactly when every raw bucket can be read: it is neither null nor
    undefined, and its [modelId || model_id] is falsy, or is a string and
    what the parse converts of the bucket converts (the fraction to a
    string, and the amount to a number when no number is read in the
    fraction).  One bucket that is null, whose model id is a number, or
    whose fraction is an object with a property [toString] of its own
    makes it throw and lose the other buckets too.  When it returns it
    has at most one bucket for each raw bucket. *)
Theorem geminiCli_parse_returns_iff (data : value) :
  JS.nullish data = false ->
  ((exists d, geminiCliQuota_parse data = Ok d) <->
   forallb bucket_ok (rawBuckets_of data) = true) /\
  forall d,
    geminiCliQuota_parse data = Ok d ->
    (List.length (GeminiCli.buckets d)
     <= List.length (rawBuckets_of data))%nat.
Proof.
  intro N. rewrite (geminiCli_parse_buckets _ N). split.
  - rewrite <- buckets_of_returns. unfold rbind. split.
    + intros (d & H). destruct (buckets_of _) as [bs|]; [|discriminate].
      eexists. reflexivity.
    + intros (bs & ->). eexists. reflexivity.
  - intros d H. unfold rbind in H.
    destruct (buckets_of (rawBuckets_of data)) as [bs|] eqn:E;
      [|discriminate].
    injection H as <-. exact (buckets_of_length _ _ E).
Qed.

(** A bucket without a model id is no obstacle: the parse returns.  A
    bucket whose fraction does not convert is one: the parse throws. *)
Lemma geminiCli_parse_returns_iff_witness :
  (exists d,
     geminiCliQuota_parse
       (VObj [ ("buckets",
                VArr [ ExampleBuckets.bucket "remainingFraction"
                         (Example.decimal "0.5");
                       VObj [ ("remainingFraction",
                               Example.decimal "0.25") ] ]) ])
     = Ok d) /\
  forallb bucket_ok
    (rawBuckets_of
       (VObj [ ("buckets",
                VArr [ ExampleBuckets.bucket "remainingFraction"
                         Example.opaque ]) ])) = false /\
  geminiCliQuota_parse
    (VObj [ ("buckets",
             VArr [ ExampleBuckets.bucket "remainingFraction"
                      Example.opaque ]) ]) = Throw conversion_error.
Proof.
  split; [|split; reflexivity].
  apply (geminiCli_parse_returns_iff
           (VObj [ ("buckets",
                    VArr [ ExampleBuckets.bucket "remainingFraction"
                             (Example.decimal "0.5");
                           VObj [ ("remainingFraction",
                                   Example.decimal "0.25") ] ]) ]) eq_refl).
  reflexivity.
Defined.

(** ** The windows of a Codex limit *)

Lemma usedPercent_reported (window limitInfo : value) :
  usedPercent_of window limitInfo =
  if convertible (used_of window)
  then Ok (if Num.isNaN (reported_usage window)
           then (if limit_exhausted limitInfo
                 then Some (Num.of_Z 100) else None)
           else Some (clamp100 (reported_usage window)))
  else Throw conversion_error.
Proof.
  unfold usedPercent_of, reported_usage, limit_exhausted, rbind.
  fold (used_of window).
  destruct (JS.nullish (used_of window)) eqn:N; cbn [negb Num.isNaN].
  - rewrite (nullish_convertible _ N). destruct (_ || _); reflexivity.
  - unfold parseFloat. destruct (convertible (used_of window)); [|reflexivity].
    destruct (Num.isNaN (float_of (used_of window))) eqn:E.
    + destruct (_ || _); reflexivity.
    + rewrite E. reflexivity.
Qed.

Lemma resetTime_read (window : value) (now : number) :
  resetTime_of window now =
  if JS.truthy (reset_at_of window) then
    if convertible (reset_at_of window)
    then Ok (Some (float_of (reset_at_of window)))
    else Throw conversion_error
  else if JS.truthy (reset_after_of window) then
    if convertible (reset_after_of window)
    then Ok (if negb (Num.isNaN (float_of (reset_after_of window)))
             then Some (Num.floor
                          (Num.add (Num.div_pos now 1000)
                             (float_of (reset_after_of window))))
             else None)
    else Throw conversion_error
  else Ok None.
Proof.
  unfold resetTime_of, rbind, parseFloat.
  fold (reset_at_of window) (reset_after_of window).
  destruct (JS.truthy (reset_at_of window)).
  - destruct (convertible (reset_at_of window)); reflexivity.
  - destruct (JS.truthy (reset_after_of window)); [|reflexivity].
    destruct (convertible (reset_after_of window)); reflexivity.
Qed.

Lemma falsy_convertible (v : value) :
  JS.truthy v = false -> convertible v = true.
Proof. destruct v; try discriminate; reflexivity. Qed.

(** addWindow throws exactly when one of the fields that it hands to
    parseFloat does not convert. *)
Lemma addWindow_throws (window : value) (label : string)
  (limitInfo : value) (now : number) :
  JS.truthy window = true -> window_converts window = false ->
  addWindow window label limitInfo now = Throw conversion_error.
Proof.
  intros T C. unfold addWindow, rbind. rewrite T. cbn [negb].
  rewrite usedPercent_reported, resetTime_read.
  unfold window_converts in C.
  destruct (convertible (used_of window)); [|reflexivity].
  destruct (JS.truthy (reset_at_of window)) eqn:A.
  - destruct (convertible (reset_at_of window)); [discriminate|reflexivity].
  - rewrite (falsy_convertible _ A) in C. cbn [andb orb] in C. rewrite C.
    destruct (JS.truthy (reset_after_of window)) eqn:B; [reflexivity|].
    rewrite (falsy_convertible _ B) in C. discriminate.
Qed.

Lemma addWindow_returns (window : value) (label : string)
  (limitInfo : value) (now : number) :
  JS.truthy window = true -> window_converts window = true ->
  exists l,
    addWindow window label limitInfo now = Ok (Some l) /\
    Codex.model l = label /\
    Codex.used l =
      (if Num.isNaN (reported_usage window)
       then (if limit_exhausted limitInfo then Some (Num.of_Z 100) else None)
       else Some (clamp100 (reported_usage window))) /\
    Codex.percent l =
      option_map (fun u => Num.max (Num.of_Z 0) (Num.sub (Num.of_Z 100) u))
        (Codex.used l) /\
    Codex.remaining l = Codex.percent l.
Proof.
  intros T C. unfold addWindow, rbind. rewrite T. cbn [negb].
  rewrite usedPercent_reported, resetTime_read.
  unfold window_converts in C.
  apply andb_true_iff in C as [C C3]. apply andb_true_iff in C as [C1 C2].
  rewrite C1, C2.
  assert (R : exists t,
            (if JS.truthy (reset_at_of window)
             then Ok (Some (float_of (reset_at_of window)))
             else
               if JS.truthy (reset_after_of window)
               then
                 if convertible (reset_after_of window)
                 then
                   Ok (if negb (Num.isNaN (float_of (reset_after_of window)))
                       then Some (Num.floor
                                    (Num.add (Num.div_pos now 1000)
                                       (float_of (reset_after_of window))))
                       else None)
                 else Throw conversion_error
               else Ok None) = Ok t).
  { destruct (JS.truthy (reset_at_of window)); [eexists; reflexivity|].
    cbn [orb] in C3. rewrite C3.
    destruct (JS.truthy (reset_after_of window)); eexists; reflexivity. }
  destruct R as (t & ->).
  eexists. split; [reflexivity|].
  cbn [Codex.model Codex.used Codex.percent Codex.remaining].
  repeat split.
Qed.

(** X15.  For a window that is truthy, addWindow pushes a limit exactly
    when the fields that it hands to parseFloat convert to a string (the
    used percentage, the reset_at, and the reset_after_seconds when there
    is no truthy reset_at); otherwise it throws a TypeError.  In a limit
    that is pushed, a used percentage that is reported is clamped to
    [0,100].  A window that reports none that can be read (the field is
    missing or does not start with a number) counts as exhausted, used
    100 and nothing remaining, exactly when the limit object says
    [limit_reached] or [allowed === false]; otherwise used, percent and
    remaining are all null. *)
Theorem codex_window_usage (window : value) (label : string)
  (limitInfo : value) (now : number) :
  JS.truthy window = true ->
  (window_converts window = false ->
   addWindow window label limitInfo now = Throw conversion_error) /\
  (window_converts window = true ->
   exists l,
     addWindow window label limitInfo now = Ok (Some l) /\
     Codex.model l = label /\
     (Num.isNaN (reported_usage window) = false ->
      Codex.used l = Some (clamp100 (reported_usage window))) /\
     (Num.isNaN (reported_usage window) = true ->
      limit_exhausted limitInfo = true ->
      Codex.used l = Some (Num.of_Z 100) /\
      Codex.percent l = Some (Num.of_Z 0) /\
      Codex.remaining l = Some (Num.of_Z 0)) /\
     (Num.isNaN (reported_usage window) = true ->
      limit_exhausted limitInfo = false ->
      Codex.used l = None /\ Codex.percent l = None /\
      Codex.remaining l = None)).
Proof.
  intro T. split; [apply addWindow_throws; exact T|].
  intro C.
  destruct (addWindow_returns window label limitInfo now T C)
    as (l & E & M & U & P & R).
  exists l. split; [exact E|]. split; [exact M|].
  rewrite R, P, U. split; [|split].
  - intros ->. reflexivity.
  - intros -> ->. repeat split.
  - intros -> ->. repeat split.
Qed.

(** A window without a used percentage under a limit that is reached
    counts as exhausted, and a window whose used percentage is
    [{"toString": 1}] is not read. *)
Lemma codex_window_usage_witness :
  (exists l,
     addWindow ExampleCodexAnswer.silent_window "5h" ExampleCodexAnswer.reached
       (Example.Date_now 0) = Ok (Some l) /\
     Codex.used l = Some (Num.of_Z 100) /\
     Codex.percent l = Some (Num.of_Z 0)) /\
  addWindow (Example.window_with (Example.num 18000) Example.opaque) "5h"
    ExampleCodexAnswer.reached (Example.Date_now 0) = Throw conversion_error.
Proof.
  split.
  - destruct (codex_window_usage ExampleCodexAnswer.silent_window "5h"
                ExampleCodexAnswer.reached (Example.Date_now 0) eq_refl)
      as (_ & H).
    destruct (H eq_refl) as (l & E & _ & _ & H' & _).
    exists l. split; [exact E|].
    destruct (H' eq_refl eq_refl) as (U & P & _). split; assumption.
  - destruct (codex_window_usage
                (Example.window_with (Example.num 18000) Example.opaque) "5h"
                ExampleCodexAnswer.reached (Example.Date_now 0) eq_refl)
      as (H & _).
    exact (H eq_refl).
Defined.

(** X16.  The reset time of a limit that addWindow pushes is never 0
    and never NaN.  A truthy [reset_at ?? resetAt] decides alone: the
    reset time is what parseFloat reads in it, or is missing when that
    is NaN or 0, and [reset_after_seconds] is not consulted.  Without
    it, a truthy [reset_after_seconds ?? resetAfterSeconds] in which
    parseFloat reads a number gives the floor of the clock in seconds
    plus that number; in every other case the reset time is missing. *)
Theorem codex_window_reset_time (window : value) (label : string)
  (limitInfo : value) (now : number) (l : Codex.limit) :
  addWindow window label limitInfo now = Ok (Some l) ->
  let present (t : number) := if Num.truthy t then Some t else None in
  (forall t, Codex.resetTime l = Some t -> Num.truthy t = true) /\
  (JS.truthy (reset_at_of window) = true ->
   Codex.resetTime l = present (float_of (reset_at_of window))) /\
  (JS.truthy (reset_at_of window) = false ->
   JS.truthy (reset_after_of window) = true ->
   Num.isNaN (float_of (reset_after_of window)) = false ->
   Codex.resetTime l =
   present (Num.floor (Num.add (Num.div_pos now 1000)
                         (float_of (reset_after_of window))))) /\
  (JS.truthy (reset_at_of window) = false ->
   JS.truthy (reset_after_of window) = false \/
   Num.isNaN (float_of (reset_after_of window)) = true ->
   Codex.resetTime l = None).
Proof.
  unfold addWindow, rbind. destruct (negb (JS.truthy window)); [discriminate|].
  destruct (usedPercent_of window limitInfo); [|discriminate].
  rewrite resetTime_read.
  destruct (JS.truthy (reset_at_of window)).
  - destruct (convertible (reset_at_of window)); [|discriminate].
    intro H. injection H as <-. cbv zeta. cbn [Codex.resetTime].
    repeat split; try discriminate.
    intros t. destruct (Num.truthy (float_of (reset_at_of window))) eqn:E;
      [|discriminate].
    intro H. injection H as <-. exact E.
  - destruct (JS.truthy (reset_after_of window)).
    + destruct (convertible (reset_after_of window)); [|discriminate].
      intro H. injection H as <-. cbv zeta. cbn [Codex.resetTime].
      split; [|split; [|split]]; try discriminate.
      * intros t. destruct (negb (Num.isNaN _)); [|discriminate].
        destruct (Num.truthy (Num.floor _)) eqn:E; [|discriminate].
        intro H. injection H as <-. exact E.
      * intros _ _ ->. reflexivity.
      * intros _ [H | ->]; [discriminate|reflexivity].
    + intro H. injection H as <-. cbv zeta. cbn [Codex.resetTime].
      repeat split; discriminate.
Qed.

(** The clock stands at 1700000000 seconds: a window that resets in 90.5
    seconds resets at 1700000090; a reset_at that cannot be read leaves
    no reset time, whatever reset_after_seconds says; a reset_at of
    1e-400 reads as 0 and leaves none either. *)
Lemma codex_window_reset_time_witness :
  exists l l' l'',
    addWindow ExampleCodexAnswer.resetting_window "5h" VNull
      (Example.Date_now 0) = Ok (Some l) /\
    Codex.resetTime l = Some (Num.of_Z 1700000090) /\
    addWindow ExampleCodexAnswer.silent_window "5h" VNull
      (Example.Date_now 0) = Ok (Some l') /\
    Codex.resetTime l' = None /\
    addWindow (VObj [ ("reset_at", VStr "1e-400") ]) "5h" VNull
      (Example.Date_now 0) = Ok (Some l'') /\
    Codex.resetTime l'' = None.
Proof.
  destruct (addWindow ExampleCodexAnswer.resetting_window "5h" VNull
              (Example.Date_now 0)) as [[l|]|] eqn:E;
    try (vm_compute in E; discriminate).
  destruct (addWindow ExampleCodexAnswer.silent_window "5h" VNull
              (Example.Date_now 0)) as [[l'|]|] eqn:E';
    try (vm_compute in E'; discriminate).
  destruct (addWindow (VObj [ ("reset_at", VStr "1e-400") ]) "5h" VNull
              (Example.Date_now 0)) as [[l''|]|] eqn:E'';
    try (vm_compute in E''; discriminate).
  exists l, l', l''.
  destruct (codex_window_reset_time _ _ _ _ _ E) as (_ & _ & H & _).
  destruct (codex_window_reset_time _ _ _ _ _ E') as (_ & H' & _).
  destruct (codex_window_reset_time _ _ _ _ _ E'') as (_ & H'' & _).
  repeat split.
  - rewrite (H eq_refl eq_refl eq_refl). vm_compute. reflexivity.
  - rewrite (H' eq_refl). reflexivity.
  - rewrite (H'' eq_refl). vm_compute. reflexivity.
Defined.

(** ** The limits of a Codex answer *)

Lemma getWindowSeconds_returns (w : value) :
  convertible (seconds_of w) = true -> exists r, getWindowSeconds w = Ok r.
Proof.
  intro C. unfold getWindowSeconds, rbind, parseFloat.
  fold (seconds_of w). rewrite C.
  destruct (negb (JS.truthy w)); eexists; reflexivity.
Qed.

Lemma getWindowSeconds_throws (w : value) (e : exn) :
  getWindowSeconds w = Throw e -> e = conversion_error.
Proof.
  unfold getWindowSeconds, rbind.
  destruct (negb (JS.truthy w)); [discriminate|].
  destruct (parseFloat _) eqn:P; [discriminate|].
  intro H. injection H as <-. exact (parseFloat_throws _ _ P).
Qed.

Lemma classify_loop_throws (rawWindows : list value) (e : exn) :
  forall f k u,
  classify_loop rawWindows f k u = Throw e -> e = conversion_error.
Proof.
  induction rawWindows as [|w rest IH]; intros f k u; [discriminate|].
  cbn [classify_loop]. destruct (negb (JS.truthy w)); [apply IH|].
  unfold rbind. destruct (getWindowSeconds w) as [seconds|] eqn:G.
  - destruct (_ && _); [apply IH|]. destruct (_ && _); apply IH.
  - intro H. injection H as <-. exact (getWindowSeconds_throws _ _ G).
Qed.

Lemma classifyWindows_throws (limitInfo : value) (e : exn) :
  classifyWindows limitInfo = Throw e -> e = conversion_error.
Proof.
  unfold classifyWindows, rbind.
  destruct (negb (JS.truthy limitInfo)); [discriminate|].
  destruct (classify_loop _ _ _ _) eqn:L; [discriminate|].
  intro H. injection H as <-. exact (classify_loop_throws _ _ _ _ _ L).
Qed.

Lemma classify_pair_returns (p s : value) :
  convertible (seconds_of p) = true -> convertible (seconds_of s) = true ->
  exists ws, classify_pair p s = Ok ws.
Proof.
  intros Cp Cs.
  destruct (getWindowSeconds_returns p Cp) as (sp & Ep).
  destruct (getWindowSeconds_returns s Cs) as (ss & Es).
  unfold classify_pair. cbn [classify_loop].
  destruct (JS.truthy p), (JS.truthy s); cbn [negb];
    rewrite ?Ep, ?Es; cbn [rbind];
    repeat match goal with
           | |- context [if ?c then _ else _] =>
               destruct c; rewrite ?Es; cbn [rbind]
           end;
    eexists; reflexivity.
Qed.

Lemma classify_pair_shape (p s : value) (ws : windows) :
  classify_pair p s = Ok ws ->
  Forall (fun w => JS.truthy w = true) (extra ws) /\
  (List.length (extra ws) <= 1)%nat /\
  (b2n (JS.truthy (fiveHour ws)) + b2n (JS.truthy (weekly ws))
   + List.length (extra ws) <= 2)%nat /\
  forall P : value -> Prop,
    P p -> P s -> P VNull ->
    P (fiveHour ws) /\ P (weekly ws) /\ Forall P (extra ws).
Proof.
  intro E. classify_cases p s; try discriminate E; injection E as <-.
  all: cbn [fiveHour weekly extra]; rewrite ?Tp, ?Ts;
    cbn [JS.truthy b2n List.length].
  all: (split; [repeat constructor; assumption|]).
  all: (split; [lia|]); (split; [lia|]).
  all: intros P Pp Ps Pn; repeat split; repeat constructor; assumption.
Qed.

(** Two raw windows end up in at most two of the slots, and at most one
    of them among the extra windows. *)
Lemma classifyWindows_shape (limitInfo : value) (ws : windows) :
  classifyWindows limitInfo = Ok ws ->
  Forall (fun w => JS.truthy w = true) (extra ws) /\
  (List.length (extra ws) <= 1)%nat /\
  (b2n (JS.truthy (fiveHour ws)) + b2n (JS.truthy (weekly ws))
   + List.length (extra ws) <= 2)%nat /\
  forall P : value -> Prop,
    P (primary_of limitInfo) -> P (secondary_of limitInfo) -> P VNull ->
    P (fiveHour ws) /\ P (weekly ws) /\ Forall P (extra ws).
Proof.
  destruct (JS.truthy limitInfo) eqn:T.
  - rewrite (classifyWindows_pair _ T). apply classify_pair_shape.
  - unfold classifyWindows. rewrite T. cbn [negb]. intro H. injection H as <-.
    cbn. repeat split; try constructor; try lia; assumption.
Qed.

Lemma classifyWindows_returns (limitInfo : value) :
  limit_converts limitInfo = true -> exists ws, classifyWindows limitInfo = Ok ws.
Proof.
  unfold limit_converts. cbn [forallb]. rewrite !andb_true_iff.
  intros ((Cp & _) & (Cs & _) & _).
  destruct (JS.truthy limitInfo) eqn:T.
  - rewrite (classifyWindows_pair _ T). exact (classify_pair_returns _ _ Cp Cs).
  - unfold classifyWindows. rewrite T. eexists. reflexivity.
Qed.

Section LimitShape.

Variable fraction_to_string : Q -> string.
Variable Date_now : nat -> number.

Local Abbreviation readable w :=
  (JS.truthy w = false \/ window_converts w = true).

Lemma push_window_returns (limits : list Codex.limit) (w : value)
  (label : string) (limitInfo : value) :
  readable w ->
  exists out, push_window Date_now limits w label limitInfo = Ok out.
Proof.
  intro R. unfold push_window, rbind.
  destruct (JS.truthy w) eqn:T.
  - destruct R as [R | R]; [discriminate|].
    destruct (addWindow_returns w label limitInfo
                (Date_now (List.length limits)) T R) as (l & -> & _).
    eexists. reflexivity.
  - unfold addWindow. rewrite T. eexists. reflexivity.
Qed.

Lemma push_window_throws (limits : list Codex.limit) (w : value)
  (label : string) (limitInfo : value) (e : exn) :
  push_window Date_now limits w label limitInfo = Throw e ->
  e = conversion_error.
Proof.
  unfold push_window, rbind.
  destruct (addWindow _ _ _ _) eqn:A; [discriminate|].
  intro H. injection H as <-.
  unfold addWindow in A. destruct (JS.truthy w) eqn:T; [|discriminate].
  destruct (window_converts w) eqn:C.
  - destruct (addWindow_returns w label limitInfo
                (Date_now (List.length limits)) T C) as (l & E & _).
    unfold addWindow in E. rewrite T in E. congruence.
  - pose proof (addWindow_throws w label limitInfo
                  (Date_now (List.length limits)) T C) as E.
    unfold addWindow in E. rewrite T in E. congruence.
Qed.

Lemma push_extra_returns (extra : list value) (prefix : string)
  (limitInfo : value) :
  Forall (fun w => readable w) extra ->
  forall limits i,
  exists out,
    push_extra fraction_to_string Date_now limits extra prefix i limitInfo
    = Ok out.
Proof.
  induction 1 as [|w rest R _ IH]; intros limits i; [eexists; reflexivity|].
  cbn [push_extra].
  destruct (push_window_returns limits w
              (prefix ++ " " ++
               number_to_string fraction_to_string
                 (Num.of_Z (Z.of_nat i + 1))) limitInfo R) as (l1 & ->).
  cbn [rbind]. apply IH.
Qed.

Lemma push_extra_throws (extra : list value) (prefix : string)
  (limitInfo : value) (e : exn) :
  forall limits i,
  push_extra fraction_to_string Date_now limits extra prefix i limitInfo
  = Throw e -> e = conversion_error.
Proof.
  induction extra as [|w rest IH]; intros limits i; [discriminate|].
  cbn [push_extra]. unfold rbind.
  destruct (push_window _ _ _ _ _) eqn:W; [apply IH|].
  intro H. injection H as <-. exact (push_window_throws _ _ _ _ _ W).
Qed.

Lemma push_limit_returns (limits : list Codex.limit) (limitInfo : value)
  (five week prefix : string) :
  limit_converts limitInfo = true ->
  exists out,
    push_limit fraction_to_string Date_now limits limitInfo five week prefix
    = Ok out.
Proof.
  intro C. destruct (classifyWindows_returns _ C) as (ws & E).
  destruct (classifyWindows_shape _ _ E) as (_ & _ & _ & S).
  destruct (S (fun w => readable w)) as (Rf & Rk & Rx).
  - right. unfold limit_converts in C. cbn [forallb] in C.
    rewrite !andb_true_iff in C. tauto.
  - right. unfold limit_converts in C. cbn [forallb] in C.
    rewrite !andb_true_iff in C. tauto.
  - left. reflexivity.
  - unfold push_limit. rewrite E. cbn [rbind].
    destruct (push_window_returns limits (fiveHour ws) five limitInfo Rf)
      as (l1 & ->).
    cbn [rbind].
    destruct (push_window_returns l1 (weekly ws) week limitInfo Rk)
      as (l2 & ->).
    cbn [rbind]. apply push_extra_returns. exact Rx.
Qed.

Lemma push_limit_throws (limits : list Codex.limit) (limitInfo : value)
  (five week prefix : string) (e : exn) :
  push_limit fraction_to_string Date_now limits limitInfo five week prefix
  = Throw e -> e = conversion_error.
Proof.
  unfold push_limit, rbind.
  destruct (classifyWindows limitInfo) as [ws|] eqn:E.
  - destruct (push_window _ limits _ _ _) as [l1|] eqn:W1.
    + destruct (push_window _ l1 _ _ _) as [l2|] eqn:W2.
      * apply push_extra_throws.
      * intro H. injection H as <-. exact (push_window_throws _ _ _ _ _ W2).
    + intro H. injection H as <-. exact (push_window_throws _ _ _ _ _ W1).
  - intro H. injection H as <-. exact (classifyWindows_throws _ _ E).
Qed.

Lemma push_limit_labels (limits : list Codex.limit) (limitInfo : value)
  (five week prefix : string) (out : list Codex.limit) :
  push_limit fraction_to_string Date_now limits limitInfo five week prefix
  = Ok out ->
  exists (tf tk tx : bool),
    labels out =
    (labels limits ++ (if tf then [five] else [])
       ++ (if tk then [week] else [])
       ++ (if tx then [(prefix ++ " 1")%string] else []))%list /\
    (b2n tf + b2n tk + b2n tx <= 2)%nat.
Proof.
  intro H.
  destruct (classifyWindows limitInfo) as [[f k ex]|] eqn:E;
    [|unfold push_limit in H; rewrite E in H; discriminate].
  destruct (classifyWindows_shape _ _ E) as (F & L & C & _).
  cbn [fiveHour weekly extra] in F, L, C.
  rewrite (labels_push_limit _ _ _ _ _ _ _ _ _ _ _ E L F H).
  exists (JS.truthy f), (JS.truthy k).
  destruct ex as [|w [|w' ex]].
  - exists false. split; [reflexivity|]. cbn in *. lia.
  - exists true. split; [reflexivity|]. cbn in *. lia.
  - cbn in L. lia.
Qed.

(** X13.  For an answer that is not null, codexQuota.parse returns
    whenever everything that it converts in the answer converts (the
    plan type, and for each window of both limit objects the seconds,
    the used percentage and the reset fields), and what it throws
    otherwise is a TypeError.  It returns at most four limits: at most
    two for the rate limit followed by at most two for the code review
    limit.  Their labels are among "5h", "Weekly", "Window 1",
    "Review 5h", "Review Weekly" and "Review 1", in this order and each
    at most once; a second extra window ("Window 2") never occurs. *)
Theorem codex_parse_limits_shape (data : value)
  (planTypeFromFile : option string) :
  JS.nullish data = false ->
  let parsed :=
    codexQuota_parse fraction_to_string Date_now data planTypeFromFile in
  (answer_converts data = true -> exists d, parsed = Ok d) /\
  (forall e, parsed = Throw e -> e = conversion_error) /\
  forall d,
    parsed = Ok d ->
    is_subsequence (labels (Codex.limits d)) codex_labels = true /\
    NoDup (labels (Codex.limits d)) /\
    (List.length (Codex.limits d) <= 4)%nat.
Proof.
  intros N parsed. split; [|split].
  - intro C. unfold answer_converts in C.
    apply andb_true_iff in C as [C C3]. apply andb_true_iff in C as [C1 C2].
    unfold parsed, codexQuota_parse, rbind.
    rewrite (get_not_nullish _ _ N).
    fold (planTypeFromApi_of data) (rateLimit_of data)
      (codeReviewLimit_of data).
    unfold to_string. rewrite C1.
    destruct (push_limit_returns [] (rateLimit_of data)
                "5h" "Weekly" "Window" C2) as (l1 & ->).
    destruct (push_limit_returns l1 (codeReviewLimit_of data)
                "Review 5h" "Review Weekly" "Review" C3) as (l2 & ->).
    destruct (JS.truthy (planTypeFromApi_of data)); eexists; reflexivity.
  - intro e. unfold parsed, codexQuota_parse, rbind.
    rewrite (get_not_nullish _ _ N).
    match goal with
    | |- match ?x with Ok _ => _ | Throw _ => _ end = _ -> _ =>
        destruct x as [planType|e0] eqn:P
    end.
    + destruct (push_limit _ _ [] _ _ _ _) as [l1|] eqn:E1.
      * destruct (push_limit _ _ l1 _ _ _ _) as [l2|] eqn:E2; [discriminate|].
        intro H. injection H as <-. exact (push_limit_throws _ _ _ _ _ _ E2).
      * intro H. injection H as <-. exact (push_limit_throws _ _ _ _ _ _ E1).
    + intro H. injection H as <-.
      destruct (JS.truthy _); [|discriminate].
      unfold rbind in P. destruct (to_string _ _) eqn:T; [discriminate|].
      injection P as <-. exact (to_string_throws _ _ _ T).
  - intros d H.
    destruct (codex_parse_limits _ _ _ _ _ H) as (l1 & H1 & H2).
    destruct (push_limit_labels _ _ _ _ _ _ H1) as (a1 & a2 & a3 & Ea & Ca).
    destruct (push_limit_labels _ _ _ _ _ _ H2) as (b1 & b2 & b3 & Eb & Cb).
    rewrite Ea in Eb. cbn [labels map app] in Eb.
    assert (L : forall l : list Codex.limit,
              List.length l = List.length (labels l))
      by (intro l; unfold labels; rewrite length_map; reflexivity).
    rewrite L, Eb.
    destruct a1, a2, a3, b1, b2, b3; cbn in Ca, Cb; try lia;
      (split; [reflexivity|]);
      (split; [repeat (constructor; [cbn; intuition discriminate|]);
               constructor
              | cbn; lia]).
Qed.

End LimitShape.

(** Two windows of five hours and a weekly review window: three limits,
    the second five-hour window as "Window 1". *)
Lemma codex_parse_limits_shape_witness :
  labels_of
    (Example.parse_codex
       (VObj [ ("rate_limit",
                Example.rate_limit_of (Example.window 18000 75)
                  (Example.window 18000 10));
               ("code_review_rate_limit",
                Example.rate_limit_of (Example.window 604800 5) VNull) ]))
  = ["5h"; "Window 1"; "Review Weekly"].
Proof.
  destruct (codex_parse_limits_shape Example.fraction_to_string
              Example.Date_now
              (VObj [ ("rate_limit",
                       Example.rate_limit_of (Example.window 18000 75)
                         (Example.window 18000 10));
                      ("code_review_rate_limit",
                       Example.rate_limit_of (Example.window 604800 5)
                         VNull) ])
              None eq_refl) as (R & _).
  destruct (R eq_refl) as (d & E).
  unfold Example.parse_codex. rewrite E.
  vm_compute in E. injection E as <-. reflexivity.
Defined.

(** ** The plan type of a Codex result *)

Lemma normalised_text (s : string) :
  let p := Str.toLowerCase (Str.trim s) in
  Str.toLowerCase p = p /\ Str.trim p = p.
Proof.
  cbv zeta. split; [apply toLowerCase_idempotent|].
  rewrite toLowerCase_trim, trim_idempotent. reflexivity.
Qed.

Section PlanTypeFacts.

Variable fraction_to_string : Q -> string.
Variable JSON_parse : string -> option value.
Variable JSON_stringify : value -> string.
Variable Date_now : nat -> number.
Variable authFilesApi_download : list event -> value -> result string.
Variable request_post : list event -> ApiCallRequest -> result value.

Local Abbreviation codex :=
  (codexQuota_fetch fraction_to_string JSON_parse JSON_stringify Date_now
     authFilesApi_download request_post).

Lemma codex_parse_planType (data : value) (planTypeFromFile : option string)
  (d : Codex.data) :
  codexQuota_parse fraction_to_string Date_now data planTypeFromFile = Ok d ->
  (exists s, Codex.planType d = Str.toLowerCase (Str.trim s)) \/
  planTypeFromFile = Some (Codex.planType d) \/
  Codex.planType d = "unknown".
Proof.
  unfold codexQuota_parse, rbind.
  destruct (JS.get data "plan_type"); [|discriminate].
  match goal with
  | |- match ?x with Ok _ => _ | Throw _ => _ end = _ -> _ =>
      destruct x as [planType|] eqn:P; [|discriminate]
  end.
  destruct (push_limit _ _ [] _ _ _ _) as [l1|]; [|discriminate].
  destruct (push_limit _ _ l1 _ _ _ _) as [l2|]; [|discriminate].
  intro H. injection H as <-. cbn [Codex.planType].
  destruct (JS.truthy _).
  - destruct (to_string _ _) as [text|]; [|discriminate].
    injection P as <-. left. eexists. reflexivity.
  - injection P as <-.
    destruct planTypeFromFile; [right; left|right; right]; reflexivity.
Qed.

(** X14.  The plan type of a result of codexQuota.fetch is always in
    lower case and without white space at either end, whether it comes
    from the answer (trimmed and lower-cased by the parse), from the
    file (by resolveCodexPlanTypeFromFile) or is the default
    "unknown". *)
Theorem codex_fetch_plan_type_normalised (file : value) (log log' : list event)
  (d : Codex.data) :
  codex file log = (Ok d, log') ->
  Str.toLowerCase (Codex.planType d) = Codex.planType d /\
  Str.trim (Codex.planType d) = Codex.planType d.
Proof.
  unfold codexQuota_fetch, bind, lift.
  destruct (authIndex_of file) as [authIndex|] eqn:A; [|discriminate].
  assert (N : JS.nullish file = false).
  { unfold authIndex_of, rbind in A.
    destruct (JS.get file "authIndex") eqn:G; [|discriminate].
    apply get_ok in G. tauto. }
  destruct (resolveCodexAccountId _ _ file log) as [[[accountId|]|] log1];
    try discriminate.
  rewrite (resolveCodexPlanTypeFromFile_first _ N).
  destruct (apiCallApi_request _ _ _ log1) as [[r|] log2]; [|discriminate].
  destruct (not_2xx (statusCode r)) as [[|]|]; try discriminate.
  - destruct (createNon2xxError _ _ r); discriminate.
  - destruct (codexQuota_parse _ _ (body r) _) as [d'|] eqn:P;
      [|discriminate].
    intro H. injection H as -> _.
    destruct (codex_parse_planType _ _ _ P) as [(s & ->) | [E | ->]].
    + apply normalised_text.
    + destruct (first_text (plan_type_candidates file)) as [t|] eqn:F;
        [|discriminate].
      cbn [option_map] in E. injection E as <-.
      destruct (first_text_trimmed _ _ F) as [_ Ht].
      rewrite <- Ht. apply normalised_text.
    + split; reflexivity.
Qed.

End PlanTypeFacts.

(** The plan type " Pro " of the answer comes out as "pro". *)
Lemma codex_fetch_plan_type_normalised_witness :
  match fst (ExampleAnswers.fetch_codex ExampleCodexAnswer.usage_ok
               ExampleCodexFile.listed) with
  | Ok d =>
      Codex.planType d = "pro" /\
      Str.toLowerCase (Codex.planType d) = Codex.planType d /\
      Str.trim (Codex.planType d) = Codex.planType d
  | Throw _ => False
  end.
Proof.
  destruct (ExampleAnswers.fetch_codex ExampleCodexAnswer.usage_ok
              ExampleCodexFile.listed) as [[d|e] l] eqn:E;
    [|vm_compute in E; discriminate].
  cbn [fst]. split.
  - vm_compute in E. injection E as <- _. reflexivity.
  - exact (codex_fetch_plan_type_normalised Example.fraction_to_string
             Json.parse Example.JSON_stringify Example.Date_now
             ExampleFetch.no_download ExampleCodexAnswer.usage_ok
             ExampleCodexFile.listed [] l d E).
Defined.

(** ** The dispatch facade on any value *)

Section DispatchAnyValue.

Variable fraction_to_string : Q -> string.
Variable JSON_parse : string -> option value.
Variable JSON_stringify : value -> string.
Variable Date_now : nat -> number.
Variable authFilesApi_download : list event -> value -> result string.
Variable request_post : list event -> ApiCallRequest -> result value.

Local Abbreviation dispatch :=
  (fetchQuotaByType fraction_to_string JSON_parse JSON_stringify Date_now
     authFilesApi_download request_post).

(** What fetchQuotaByType does before it routes. *)
Lemma dispatch_cases (file : value) (log : list event) :
  (exists e, dispatch file log = (Throw e, log) /\ supported file = false) \/
  (supported file = true /\
   exists s, JS.get_opt file "type" = VStr s /\
     (Str.toLowerCase s = "antigravity" /\
      dispatch file log =
      wrap "antigravity" AntigravityData
        (antigravityQuota_fetch fraction_to_string JSON_parse JSON_stringify
           authFilesApi_download request_post file log) \/
      Str.toLowerCase s = "gemini-cli" /\
      dispatch file log =
      wrap "gemini-cli" GeminiCliData
        (geminiCliQuota_fetch fraction_to_string JSON_parse JSON_stringify
           authFilesApi_download request_post file log) \/
      Str.toLowerCase s = "codex" /\
      dispatch file log =
      wrap "codex" CodexData
        (codexQuota_fetch fraction_to_string JSON_parse JSON_stringify
           Date_now authFilesApi_download request_post file log))).
Proof.
  unfold fetchQuotaByType, bind, lift, supported.
  destruct (JS.nullish file) eqn:N.
  { left. unfold type_of_file, JS.get. rewrite N. cbn [rbind].
    eexists. split; [reflexivity|]. destruct file; try discriminate;
      reflexivity. }
  unfold type_of_file, rbind. rewrite (get_not_nullish _ _ N).
  rewrite (authIndex_of_handle _ N).
  destruct (JS.get_opt file "type") as [| |b|n|s|items|fields] eqn:T;
    unfold JS.or; cbn [JS.truthy andb].
  - left. destruct (JS.truthy (handle_of file)); eexists;
      (split; [reflexivity|reflexivity]).
  - left. destruct (JS.truthy (handle_of file)); eexists;
      (split; [reflexivity|reflexivity]).
  - left. destruct b; [eexists; split; reflexivity|].
    destruct (JS.truthy (handle_of file)); eexists;
      (split; [reflexivity|reflexivity]).
  - left. destruct (Num.truthy n); [eexists; split; reflexivity|].
    destruct (JS.truthy (handle_of file)); eexists;
      (split; [reflexivity|reflexivity]).
  - assert (E : (if negb (Str.is_empty s) then VStr s else VStr "") = VStr s)
      by (destruct s; reflexivity).
    rewrite E.
    destruct (JS.truthy (handle_of file)); cbn [negb];
      [|left; eexists; split; [reflexivity|apply andb_false_r]].
    rewrite andb_true_r.
    destruct (String.eqb (Str.toLowerCase s) "antigravity") eqn:E1.
    { right. split; [reflexivity|]. exists s. split; [reflexivity|].
      left. split; [apply String.eqb_eq, E1|]. unfold wrap, ret.
      match goal with
      | |- context [antigravityQuota_fetch ?a ?b ?c ?d ?e ?f ?g] =>
          destruct (antigravityQuota_fetch a b c d e f g) as [[x|x] l]
      end; reflexivity. }
    destruct (String.eqb (Str.toLowerCase s) "gemini-cli") eqn:E2.
    { right. split; [reflexivity|]. exists s. split; [reflexivity|].
      right. left. split; [apply String.eqb_eq, E2|]. unfold wrap, ret.
      match goal with
      | |- context [geminiCliQuota_fetch ?a ?b ?c ?d ?e ?f ?g] =>
          destruct (geminiCliQuota_fetch a b c d e f g) as [[x|x] l]
      end; reflexivity. }
    destruct (String.eqb (Str.toLowerCase s) "codex") eqn:E3.
    { right. split; [reflexivity|]. exists s. split; [reflexivity|].
      right. right. split; [apply String.eqb_eq, E3|]. unfold wrap, ret.
      match goal with
      | |- context [codexQuota_fetch ?a ?b ?c ?d ?e ?f ?g ?h] =>
          destruct (codexQuota_fetch a b c d e f g h) as [[x|x] l]
      end; reflexivity. }
    left. eexists. split; reflexivity.
  - left. eexists. split; reflexivity.
  - left. eexists. split; reflexivity.
Qed.

(** X17.  fetchQuotaByType fails closed on every value, not only on
    file descriptors: unless the type is a string that reads, in lower
    case, "antigravity", "gemini-cli" or "codex", and
    [authIndex || auth_index] is truthy, it rejects without a download
    and without a request. *)
Theorem fetchQuotaByType_fails_closed (file : value) (log : list event) :
  supported file = false ->
  exists e, dispatch file log = (Throw e, log).
Proof.
  intro S. destruct (dispatch_cases file log) as [(e & H & _) | [S' _]].
  - exists e. exact H.
  - congruence.
Qed.

(** X18.  A result of fetchQuotaByType is consistent: its type is the
    type of the file in lower case, it is one of the three routed types,
    and its data is what the resolver of that name returned. *)
Theorem fetchQuotaByType_result_tag (file : value) (log log' : list event)
  (res : QuotaResult) :
  dispatch file log = (Ok res, log') ->
  supported file = true /\
  type res = descriptor_type file /\
  tag_matches res = true.
Proof.
  intro H.
  destruct (dispatch_cases file log) as [(e & E & _) | [S (s & T & C)]].
  - rewrite E in H. discriminate.
  - split; [exact S|]. unfold descriptor_type. rewrite T.
    destruct C as [[L E] | [[L E] | [L E]]]; rewrite E in H; unfold wrap in H;
      match type of H with
      | context [match ?x with _ => _ end] => destruct x as [[d|e] l]
      end; try discriminate; injection H as <- _; rewrite L;
      split; reflexivity.
Qed.

End DispatchAnyValue.

(** A file whose type is a number is rejected before any call. *)
Lemma fetchQuotaByType_fails_closed_witness :
  exists e,
    ExampleDispatch.dispatch
      (VObj [ ("type", Example.num 7); ("authIndex", VStr "x") ])
    = (Throw e, []).
Proof.
  apply (fetchQuotaByType_fails_closed Example.fraction_to_string Json.parse
           Example.JSON_stringify Example.Date_now ExampleFetch.no_download
           ExampleDispatch.no_request
           (VObj [ ("type", Example.num 7); ("authIndex", VStr "x") ]) []).
  reflexivity.
Defined.

(** The type "Antigravity" of a file comes out as "antigravity". *)
Lemma fetchQuotaByType_result_tag_witness :
  match run (fetchQuotaByType Example.fraction_to_string Json.parse
               Example.JSON_stringify Example.Date_now
               ExampleFetch.no_download ExampleFetch.third_succeeds
               (VObj [ ("name", VStr "antigravity-user.json");
                       ("type", VStr "Antigravity");
                       ("auth_index", VStr "a1b2") ])) with
  | (Ok res, _) => type res = "antigravity" /\ tag_matches res = true
  | (Throw _, _) => False
  end.
Proof.
  destruct (run _) as [[res|e] l] eqn:E; [|vm_compute in E; discriminate].
  destruct (fetchQuotaByType_result_tag _ _ _ _ _ _ _ _ _ _ E)
    as (_ & T & M).
  split; [exact T|exact M].
Defined.

(** ** Refreshing the quota of a provider *)

Section ProviderTableFacts.

Variable fraction_to_string : Q -> string.
Variable JSON_parse : string -> option value.
Variable JSON_stringify : value -> string.
Variable Date_now : nat -> number.
Variable authFilesApi_download : list event -> value -> result string.
Variable request_post : list event -> ApiCallRequest -> result value.
Variable quotaKey_provider : value -> value -> value.

Local Abbreviation dispatch :=
  (fetchQuotaByType fraction_to_string JSON_parse JSON_stringify Date_now
     authFilesApi_download request_post).
Local Abbreviation refresh :=
  (handleRefreshQuota fraction_to_string JSON_parse JSON_stringify Date_now
     authFilesApi_download request_post quotaKey_provider).

(** The file object of handleRefreshQuota has no handle, so the facade
    rejects it; the message is "Missing authIndex" unless the type of
    the provider is a truthy value that is not a string. *)
Lemma mockFile_rejected (provider : value) (log : list event) :
  exists m,
    (dispatch (mockFile provider) log = (Throw (Err m None), log) \/
     dispatch (mockFile provider) log = (Throw (TypeErr m), log)) /\
    (JS.is_string (JS.get_opt provider "type")
     || negb (JS.truthy (JS.get_opt provider "type")) = true ->
     dispatch (mockFile provider) log =
     (Throw (Err "Missing authIndex" None), log)).
Proof.
  unfold fetchQuotaByType, bind, lift, type_of_file, authIndex_of, mockFile,
    rbind.
  cbn [JS.get JS.nullish JS.get_opt JS.lookup String.eqb Ascii.eqb Bool.eqb].
  unfold JS.or.
  destruct (JS.get_opt provider "type") as [| |b|n|s|items|fields];
    cbn [JS.truthy JS.is_string orb negb].
  - eexists. split; [left; reflexivity|reflexivity].
  - eexists. split; [left; reflexivity|reflexivity].
  - destruct b; cbn [negb].
    + eexists. split; [right; reflexivity|discriminate].
    + eexists. split; [left; reflexivity|reflexivity].
  - destruct (Num.truthy n); cbn [negb].
    + eexists. split; [right; reflexivity|discriminate].
    + eexists. split; [left; reflexivity|reflexivity].
  - destruct (negb (Str.is_empty s)); eexists;
      (split; [left; reflexivity|reflexivity]).
  - eexists. split; [right; reflexivity|discriminate].
  - eexists. split; [right; reflexivity|discriminate].
Qed.

(** X19.  handleRefreshQuota of the provider table never gets a quota:
    the file object it passes to fetchQuotaByType has neither authIndex
    nor auth_index, so the facade rejects it before any call.  Nothing
    is downloaded or requested and setQuota is never called; for a
    provider that supports quota and whose type is a string, the store
    is told setLoading(key, true) and then
    setQuotaError(key, "Missing authIndex"). *)
Theorem handleRefreshQuota_never_stores (provider : value)
  (log : list event) :
  snd (refresh provider log) = log /\
  (forall key type data,
     ~ In (SetQuota key type data) (fst (fst (refresh provider log)))) /\
  (JS.truthy (JS.get_opt provider "supportsQuota") = true ->
   JS.is_string (JS.get_opt provider "type")
   || negb (JS.truthy (JS.get_opt provider "type")) = true ->
   fst (refresh provider log) =
   ([ SetLoading (getProviderQuotaKey quotaKey_provider provider) true;
      SetQuotaError (getProviderQuotaKey quotaKey_provider provider)
        (VStr "Missing authIndex") ], Ok tt)).
Proof.
  unfold handleRefreshQuota, JS.get.
  destruct (JS.nullish provider) eqn:N.
  { split; [reflexivity|]. split; [intros key type data []|].
    destruct provider; discriminate. }
  destruct (mockFile_rejected provider log) as (m & R & M).
  destruct (JS.truthy (JS.get_opt provider "supportsQuota")); cbn [negb].
  - split; [|split].
    + destruct R as [-> | ->]; reflexivity.
    + intros key type data.
      destruct R as [-> | ->]; cbn; intros [F | [F | []]]; discriminate.
    + intros _ T. rewrite (M T). reflexivity.
  - split; [reflexivity|]. split; [|discriminate].
    intros key type data [].
Qed.

End ProviderTableFacts.

(** The refresh of a Codex provider ends in an error although the
    management API would answer. *)
Lemma handleRefreshQuota_never_stores_witness :
  ExampleProvider.refresh ExampleProvider.codex_provider =
  ([ SetLoading
       (VArr [VStr "provider"; VStr "codex"; VStr "sk-test"]) true;
     SetQuotaError
       (VArr [VStr "provider"; VStr "codex"; VStr "sk-test"])
       (VStr "Missing authIndex") ], Ok tt, []).
Proof.
  destruct (handleRefreshQuota_never_stores Example.fraction_to_string
              Json.parse Example.JSON_stringify Example.Date_now
              ExampleFetch.no_download ExampleCodexAnswer.usage_ok
              ExampleProvider.key_of ExampleProvider.codex_provider [])
    as (L & _ & H).
  unfold ExampleProvider.refresh.
  destruct (handleRefreshQuota _ _ _ _ _ _ _ _ _) as [r l].
  cbn [fst snd] in L, H. rewrite L, (H eq_refl eq_refl). reflexivity.
Defined.

(** ** The segments of a token *)

Section TokenFacts.

Variable JSON_parse : string -> option value.

Local Abbreviation decode := (decodeJwtPayload JSON_parse).
Local Abbreviation extract := (extractAccountIdFromIdToken JSON_parse).

Lemma decode_payload (header payload tail : string) :
  no_dot header = true -> no_dot payload = true -> is_tail tail ->
  decode (header ++ String "." (payload ++ tail)) =
  match Base64.atob (base64url_to_base64 payload) with
  | Some decoded =>
      match JSON_parse decoded with
      | Some v => v
      | None => VNull
      end
  | None => VNull
  end.
Proof.
  intros Hh Hp Ht.
  destruct (split_token header payload tail Hh Hp Ht) as (rest & Hs).
  unfold decodeJwtPayload, decodeJwtPayload_try. rewrite Hs.
  destruct (Base64.atob _); [|reflexivity].
  destruct (JSON_parse _); reflexivity.
Qed.

Lemma truthy_token (header rest : string) :
  JS.truthy (VStr (header ++ String "." rest)) = true.
Proof. destruct header; reflexivity. Qed.

(** X20.  Only the second segment of a token is looked at.  Two tokens
    with the same payload segment decode to the same claims and give the
    same account id, whatever their headers and whatever follows the
    payload: the signature is not read, and it is not checked. *)
Theorem jwt_only_payload_matters
  (header header' payload tail tail' : string) :
  no_dot header = true -> no_dot header' = true ->
  no_dot payload = true -> is_tail tail -> is_tail tail' ->
  decode (header ++ String "." (payload ++ tail)) =
    decode (header' ++ String "." (payload ++ tail')) /\
  extract (VStr (header ++ String "." (payload ++ tail))) =
    extract (VStr (header' ++ String "." (payload ++ tail'))).
Proof.
  intros Hh Hh' Hp Ht Ht'.
  assert (E : decode (header ++ String "." (payload ++ tail)) =
              decode (header' ++ String "." (payload ++ tail'))).
  { rewrite !decode_payload by assumption. reflexivity. }
  split; [exact E|].
  rewrite !extract_string, !truthy_token, E. reflexivity.
Qed.

End TokenFacts.

(** The token of the worked example without its signature, and under
    another header. *)
Lemma jwt_only_payload_matters_witness :
  extractAccountIdFromIdToken Json.parse
    (VStr ("x." ++ ExampleJwt.payload)) =
  extractAccountIdFromIdToken Json.parse (VStr ExampleJwt.token).
Proof.
  exact (proj2 (jwt_only_payload_matters Json.parse "x" "header"
                  ExampleJwt.payload "" ".sig" eq_refl eq_refl eq_refl
                  (or_introl eq_refl)
                  (or_intror (ex_intro _ "sig" eq_refl)))).
Defined.

(** ** The message of an error is never empty *)

Lemma string_of_int_not_empty (d : Decimal.signed_int) :
  NilZero.string_of_int d <> "".
Proof.
  destruct d as [u|u]; [|discriminate].
  destruct u; discriminate.
Qed.

Lemma append_not_empty_l (a b : string) : a <> "" -> a ++ b <> "".
Proof. destruct a; [congruence|discriminate]. Qed.

Lemma append_not_empty_r (a b : string) : b <> "" -> a ++ b <> "".
Proof. destruct a; [trivial|discriminate]. Qed.

Section ErrorMessageFacts.

Variable fraction_to_string : Q -> string.
Variable JSON_stringify : value -> string.

(** Number::toString never prints the empty string. *)
Hypothesis fraction_printed : forall q, fraction_to_string q <> "".

Lemma number_to_string_not_empty (n : number) :
  number_to_string fraction_to_string n <> "".
Proof.
  destruct n as [| | |q]; try discriminate.
  unfold number_to_string. destruct (_ && _).
  - apply string_of_int_not_empty.
  - apply fraction_printed.
Qed.

Lemma stringifyIfNeeded_not_empty (v : value) (t : string) :
  stringifyIfNeeded fraction_to_string JSON_stringify v = Some t -> t <> "".
Proof.
  destruct v as [| |b|n|s|items|fields]; cbn [stringifyIfNeeded];
    try discriminate.
  - intro H. injection H as <-. destruct b; discriminate.
  - intro H. injection H as <-. apply number_to_string_not_empty.
  - intro H. exact (proj1 (normalizeText_trimmed _ _ H)).
  - intro H. exact (proj1 (normalizeText_trimmed _ _ H)).
  - intro H. exact (proj1 (normalizeText_trimmed _ _ H)).
Qed.

Lemma http_prefix_not_empty (sc : option number) :
  http_prefix fraction_to_string sc <> "".
Proof. destruct sc; discriminate. Qed.

(** X21.  The Error that createNon2xxError builds always has a message:
    the text is never the empty string, so a fetch that is rejected for
    its status always has something to show.  An Error is built whenever
    the status code is a positive finite number or the status of the body
    converts to a string. *)
Theorem createNon2xxError_message_not_empty (r : ApiCallResponse) :
  let created := createNon2xxError fraction_to_string JSON_stringify r in
  (forall e, created = Ok e -> message_of e <> "") /\
  (positive_finite (statusCode r) <> None \/
   convertible (JS.get_opt (body r) "status") = true ->
   exists e, created = Ok e).
Proof.
  cbv zeta. split.
  - intro e. unfold createNon2xxError, formatNon2xxError, rbind.
    destruct (resolveStatusCode r) as [sc|]; [|discriminate].
    intro H. injection H as <-. cbn [message_of].
    assert (F : match getOriginalErrorText fraction_to_string JSON_stringify r
                with
                | Some t => t
                | None => http_prefix fraction_to_string sc
                end <> "").
    { unfold getOriginalErrorText.
      destruct (stringifyIfNeeded _ _ (bodyText r)) as [t|] eqn:E1;
        [exact (stringifyIfNeeded_not_empty _ _ E1)|].
      destruct (stringifyIfNeeded _ _ (body r)) as [t|] eqn:E2;
        [exact (stringifyIfNeeded_not_empty _ _ E2)|].
      apply http_prefix_not_empty. }
    destruct (errorObj_of (body r)) as [eo|]; [|exact F].
    destruct (normalizeText (JS.get_opt eo "code")),
             (normalizeText (JS.get_opt eo "message"));
      try exact F; apply append_not_empty_l, http_prefix_not_empty.
  - intro H. unfold createNon2xxError, formatNon2xxError, rbind.
    destruct (resolveStatusCode_cases r) as [(P & C & _) | (sc & -> & _)];
      [|eexists; reflexivity].
    destruct H as [H | H]; congruence.
Qed.

End ErrorMessageFacts.

Lemma layout_not_empty (s k n : Z) : Example.layout s k n <> "".
Proof.
  unfold Example.layout.
  assert (D : Example.digits_of s <> "") by apply string_of_int_not_empty.
  destruct (_ && _); [apply append_not_empty_l; exact D|].
  destruct (_ && _); [apply append_not_empty_r; discriminate|].
  destruct (_ && _); [discriminate|].
  destruct (k =? 1)%Z; [apply append_not_empty_l; exact D|].
  apply append_not_empty_r. discriminate.
Qed.

Lemma example_fraction_printed (q : Q) : Example.fraction_to_string q <> "".
Proof.
  unfold Example.fraction_to_string.
  destruct (Qcompare q 0); [discriminate| |].
  - destruct (Example.shortest _ _ _ _) as [[s k] n]. discriminate.
  - destruct (Example.shortest _ _ _ _) as [[s k] n]. apply layout_not_empty.
Qed.

(** A 500 without a body: the message is the bare "HTTP 500". *)
Lemma createNon2xxError_message_not_empty_witness :
  exists e,
    createNon2xxError Example.fraction_to_string Example.JSON_stringify
      {| statusCode := Example.num 500; header := VObj [];
         bodyText := VStr ""; body := VNull |} = Ok e /\
    message_of e = "HTTP 500" /\ message_of e <> "".
Proof.
  destruct (createNon2xxError_message_not_empty Example.fraction_to_string
              Example.JSON_stringify example_fraction_printed
              {| statusCode := Example.num 500; header := VObj [];
                 bodyText := VStr ""; body := VNull |}) as (N & R).
  destruct (R (or_introl (fun H => eq_ind (Some (Num.of_Z 500))
                            (fun o => match o with
                                      | Some _ => True
                                      | None => False
                                      end) I None H)))
    as (e & E).
  exists e. split; [exact E|]. split; [|exact (N e E)].
  vm_compute in E. injection E as <-. reflexivity.
Defined.

(** ** The quota cells of the file table *)

Lemma filter_shown_groups (gs : list Antigravity.group) :
  filter_shown (map group_value gs) =
  Ok (map group_value
        (filter (fun g => negb (Antigravity.hideInTable g)) gs)).
Proof.
  induction gs as [|g gs IH]; [reflexivity|].
  cbn [map filter_shown filter]. rewrite IH.
  change (JS.get (group_value g) "hideInTable")
    with (Ok (VBool (Antigravity.hideInTable g))).
  cbn [rbind JS.truthy].
  destruct (Antigravity.hideInTable g); reflexivity.
Qed.

Lemma map_items_groups (gs : list Antigravity.group) :
  map_items "name" (map group_value gs) =
  Ok (map (fun g => table_item (VStr (Antigravity.name g))
                      (VNum (Antigravity.percent g)) (Antigravity.resetTime g))
        gs).
Proof.
  induction gs as [|g gs IH]; [reflexivity|].
  cbn [map map_items]. rewrite IH. reflexivity.
Qed.

Lemma map_items_buckets (bs : list GeminiCli.bucket) :
  map_items "modelId" (map bucket_value bs) =
  Ok (map (fun b => table_item (VStr (GeminiCli.modelId b))
                      (VNum (GeminiCli.percent b)) (GeminiCli.resetTime b))
        bs).
Proof.
  induction bs as [|b bs IH]; [reflexivity|].
  cbn [map map_items]. rewrite IH. reflexivity.
Qed.

Lemma map_items_limits (ls : list Codex.limit) :
  map_items "model" (map limit_value ls) =
  Ok (map (fun l => table_item (VStr (Codex.model l))
                      (nullable (Codex.percent l))
                      (match Codex.resetTime l with
                       | Some t => VNum t
                       | None => VUndefined
                       end))
        ls).
Proof.
  induction ls as [|l ls IH]; [reflexivity|].
  cbn [map map_items]. rewrite IH. reflexivity.
Qed.

(** X22.  For a successful entry of the quota store that holds a result
    of fetchQuotaByType, getQuotaItems of the file table lists the
    buckets or the limits of the result as they are, in their order, and
    of the groups of an Antigravity result those that are not hidden.
    With the groups that antigravityQuota.parse returns, no item of the
    table is named "Gemini 2.5 Flash Lite". *)
Theorem getQuotaItems_of_result (res : QuotaResult) :
  tag_matches res = true ->
  getQuotaItems (success_entry res) = Ok (shown_items (data res)) /\
  forall answer a,
    data res = AntigravityData a ->
    antigravityQuota_parse answer = Ok a ->
    forall item,
      In item (shown_items (data res)) ->
      item_name item <> VStr "Gemini 2.5 Flash Lite".
Proof.
  intro T. split.
  - unfold getQuotaItems, success_entry, tag_matches in *.
    cbn [JS.truthy negb JS.get_opt JS.lookup String.eqb Ascii.eqb Bool.eqb].
    destruct (data res) as [a|g|c]; apply String.eqb_eq in T; rewrite T;
      cbn [String.eqb Ascii.eqb Bool.eqb data_value JS.get_opt JS.lookup
           as_array JS.or JS.truthy rbind shown_items].
    + rewrite filter_shown_groups. cbn [rbind]. apply map_items_groups.
    + apply map_items_buckets.
    + apply map_items_limits.
  - intros answer a E P item Hin. rewrite E in Hin. cbn [shown_items] in Hin.
    apply in_map_iff in Hin as (g & <- & Hg).
    apply filter_In in Hg as [Hg Hh].
    destruct (antigravity_parse_groups _ _ P) as [G | G];
      [rewrite G in Hg; destruct Hg|].
    destruct (groups_of_names _ _ _ G) as [_ Q].
    destruct (Q g Hg) as (gd & Hd & Hgd).
    destruct (group_of_fields _ _ _ Hgd) as (N & Hi & _).
    unfold item_name, table_item. cbn [JS.get_opt JS.lookup String.eqb].
    rewrite N. rewrite Hi in Hh.
    cbn in Hd. decompose [or] Hd; subst; try discriminate. contradiction.
Qed.

(** The worked Antigravity answer has two groups, and the table shows
    the one that is not hidden. *)
Lemma getQuotaItems_of_result_witness :
  getQuotaItems
    (success_entry {| type := "antigravity";
                      data := AntigravityData ExampleReset.parsed_answer |}) =
  Ok [ table_item (VStr "Gemini 3 Pro") (VNum (Num.of_Z 20))
         (VStr "2026-01-01T00:00:00Z") ].
Proof.
  rewrite (proj1 (getQuotaItems_of_result
                    {| type := "antigravity";
                       data := AntigravityData ExampleReset.parsed_answer |}
                    eq_refl)).
  reflexivity.
Defined.

(** ** Spellings of the payload of a token *)

Lemma standard_char_idempotent (c : ascii) :
  let f (x : ascii) :=
    let y := if Ascii.eqb x "-" then "+"%char else x in
    if Ascii.eqb y "_" then "/"%char else y in
  f (f c) = f c.
Proof. destruct c as [[] [] [] [] [] [] [] []]; reflexivity. Qed.

Lemma standard_alphabet_idempotent (s : string) :
  standard_alphabet (standard_alphabet s) = standard_alphabet s.
Proof.
  unfold standard_alphabet.
  induction s as [|c s IH]; [reflexivity|].
  cbn [Str.replace_char]. rewrite IH. f_equal.
  exact (standard_char_idempotent c).
Qed.

Lemma standard_alphabet_append (a b : string) :
  standard_alphabet (a ++ b) = standard_alphabet a ++ standard_alphabet b.
Proof.
  unfold standard_alphabet.
  induction a as [|c a IH]; [reflexivity|].
  cbn [append Str.replace_char]. rewrite IH. reflexivity.
Qed.

Lemma standard_alphabet_no_dot (s : string) :
  no_dot s = true -> no_dot (standard_alphabet s) = true.
Proof.
  unfold standard_alphabet, no_dot.
  induction s as [|c s IH]; [reflexivity|].
  cbn [Str.replace_char all_chars]. intro H.
  apply andb_true_iff in H as [Hc Hs]. rewrite (IH Hs), andb_true_r.
  clear - Hc. destruct c as [[] [] [] [] [] [] [] []];
    try reflexivity; discriminate.
Qed.

Lemma no_dot_append (a b : string) :
  no_dot a = true -> no_dot b = true -> no_dot (a ++ b) = true.
Proof.
  unfold no_dot. induction a as [|c a IH]; intros Ha Hb; [exact Hb|].
  cbn [append all_chars] in *. apply andb_true_iff in Ha as [Hc Ha].
  rewrite Hc, (IH Ha Hb). reflexivity.
Qed.

Lemma base64url_padEnd (payload : string) :
  base64url_to_base64 payload =
  let s := standard_alphabet payload in
  if (length payload mod 4 =? 0)%nat then s
  else Str.padEnd s (length payload + (4 - length payload mod 4)) "=".
Proof.
  unfold base64url_to_base64. fold (standard_alphabet payload).
  cbv zeta. rewrite standard_alphabet_length. reflexivity.
Qed.

Lemma padEnd_more (s : string) (n : nat) (c : ascii) :
  Str.padEnd s (length s + n) c = s ++ Str.repeat_char c n.
Proof.
  unfold Str.padEnd. replace (length s + n - length s)%nat with n by lia.
  reflexivity.
Qed.

Lemma mod4_next (n r : nat) :
  (n mod 4 = r)%nat -> (r < 3)%nat -> ((n + 1) mod 4 = r + 1)%nat.
Proof.
  intros H L. pose proof (Nat.div_mod_eq n 4) as E.
  symmetry. apply (Nat.mod_unique (n + 1) 4 (n / 4)); lia.
Qed.

Lemma mod4_wrap (n : nat) :
  (n mod 4 = 3)%nat -> ((n + 1) mod 4 = 0)%nat.
Proof.
  intro H. pose proof (Nat.div_mod_eq n 4) as E.
  symmetry. apply (Nat.mod_unique (n + 1) 4 (n / 4 + 1)); lia.
Qed.

Lemma length_append_one (s : string) (c : ascii) :
  length (s ++ String c "") = (length s + 1)%nat.
Proof.
  induction s as [|x s IH]; cbn; [reflexivity|]. rewrite IH. reflexivity.
Qed.

(** Padding that is written out is the padding that would be added. *)
Lemma base64url_padding (payload : string) :
  (length payload mod 4 = 3)%nat ->
  base64url_to_base64 (payload ++ "=") = base64url_to_base64 payload.
Proof.
  intro H. rewrite !base64url_padEnd. cbv zeta.
  rewrite length_append_one, (mod4_wrap _ H), H. cbn [Nat.eqb Nat.sub].
  rewrite standard_alphabet_append.
  rewrite <- (standard_alphabet_length payload).
  rewrite padEnd_more. reflexivity.
Qed.

Lemma base64url_padding_two (payload : string) :
  (length payload mod 4 = 2)%nat ->
  base64url_to_base64 (payload ++ "==") = base64url_to_base64 payload.
Proof.
  intro H.
  assert (E : payload ++ "==" = (payload ++ "=") ++ "=")
    by (rewrite append_assoc; reflexivity).
  rewrite E, base64url_padding.
  - rewrite !base64url_padEnd. cbv zeta.
    rewrite length_append_one, (mod4_next _ _ H), H by lia.
    cbn [Nat.eqb Nat.sub Nat.add].
    rewrite standard_alphabet_append.
    change (standard_alphabet "=") with "=".
    rewrite <- (standard_alphabet_length payload).
    rewrite padEnd_more.
    rewrite <- (length_append_one (standard_alphabet payload) "=").
    rewrite padEnd_more, append_assoc. reflexivity.
  - rewrite length_append_one. apply (mod4_next _ 2 H). lia.
Qed.

Section SpellingFacts.

Variable JSON_parse : string -> option value.

Local Abbreviation decode := (decodeJwtPayload JSON_parse).

(** X23.  The payload segment of a token may be spelled in either
    Base64 alphabet and with or without its padding: replacing "-" and
    "_" by "+" and "/" does not change what the token decodes to, and
    neither does writing out the one or two "=" that complete the
    segment to a multiple of four characters. *)
Theorem jwt_payload_spellings (header payload tail : string) :
  no_dot header = true -> no_dot payload = true -> is_tail tail ->
  let decoded := decode (header ++ String "." (payload ++ tail)) in
  decode (header ++ String "." (standard_alphabet payload ++ tail)) = decoded /\
  ((length payload mod 4 = 3)%nat ->
   decode (header ++ String "." ((payload ++ "=") ++ tail)) = decoded) /\
  ((length payload mod 4 = 2)%nat ->
   decode (header ++ String "." ((payload ++ "==") ++ tail)) = decoded).
Proof.
  intros Hh Hp Ht. cbv zeta.
  rewrite (decode_payload JSON_parse header payload tail Hh Hp Ht).
  split; [|split].
  - rewrite (decode_payload JSON_parse header _ tail Hh
               (standard_alphabet_no_dot _ Hp) Ht).
    rewrite (base64url_padEnd (standard_alphabet payload)),
      (base64url_padEnd payload). cbv zeta.
    rewrite standard_alphabet_idempotent, standard_alphabet_length.
    reflexivity.
  - intro H.
    rewrite (decode_payload JSON_parse header _ tail Hh
               (no_dot_append payload "=" Hp eq_refl) Ht).
    rewrite (base64url_padding _ H). reflexivity.
  - intro H.
    rewrite (decode_payload JSON_parse header _ tail Hh
               (no_dot_append payload "==" Hp eq_refl) Ht).
    rewrite (base64url_padding_two _ H). reflexivity.
Qed.

End SpellingFacts.

(** The object with the one member a = 1 has a payload of ten
    characters: with its two "=" written out the token decodes to the
    same claims. *)
Lemma jwt_payload_spellings_witness :
  decodeJwtPayload Json.parse "h.eyJhIjoxfQ==" =
    decodeJwtPayload Json.parse "h.eyJhIjoxfQ" /\
  decodeJwtPayload Json.parse "h.eyJhIjoxfQ" = VObj [("a", Example.num 1)].
Proof.
  split; [|vm_compute; reflexivity].
  exact (proj2 (proj2 (jwt_payload_spellings Json.parse "h" "eyJhIjoxfQ" ""
                         eq_refl eq_refl (or_introl eq_refl)))
           eq_refl).
Defined.

(** ** The requests of the Antigravity fetch *)

Section AntigravityRequests.

Variable fraction_to_string : Q -> string.
Variable JSON_parse : string -> option value.
Variable JSON_stringify : value -> string.
Variable authFilesApi_download : list event -> value -> result string.
Variable request_post : list event -> ApiCallRequest -> result value.

Local Abbreviation loop :=
  (antigravity_loop fraction_to_string JSON_parse JSON_stringify
     request_post).
Local Abbreviation fetch :=
  (antigravityQuota_fetch fraction_to_string JSON_parse JSON_stringify
     authFilesApi_download request_post).

Lemma loop_requests (mk : string -> ApiCallRequest) (urls : list string) :
  forall lastError log,
  exists k,
    (k <= List.length urls)%nat /\
    (urls <> [] -> 1 <= k)%nat /\
    snd (loop mk urls lastError log) =
    (log ++ requests_for mk (firstn k urls))%list.
Proof.
  induction urls as [|url rest IH]; intros lastError log.
  - exists 0%nat. split; [reflexivity|]. split; [congruence|].
    cbn. rewrite app_nil_r. reflexivity.
  - cbn [antigravity_loop].
    destruct (antigravity_attempt _ _ _ _ (mk url) log)
      as [[d|e|e] log1] eqn:A;
      pose proof (attempt_log _ _ _ _ _ _ _ _ A) as L; subst log1.
    + exists 1%nat. split; [cbn; lia|]. split; [lia|reflexivity].
    + destruct (IH (Some e) (log ++ [EvRequest (mk url)])%list)
        as (k & Hk & _ & E).
      exists (S k). split; [cbn; lia|]. split; [lia|].
      rewrite E, <- app_assoc. reflexivity.
    + exists 1%nat. split; [cbn; lia|]. split; [lia|reflexivity].
Qed.

(** X24.  For a file that is not null, antigravityQuota.fetch downloads
    the credential file once and then posts at least one and at most
    three requests, whatever the answers are: to the first URL of its
    list, or to the first two, or to all three, in the order of the
    list.  Each of them is the same POST, with the handle of the file
    and the body [{ project }] for the resolved project id, which is
    never blank. *)
Theorem antigravity_fetch_requests (file : value) (log : list event) :
  JS.nullish file = false ->
  exists projectId k,
    (1 <= k <= 3)%nat /\ projectId <> "" /\
    snd (fetch file log) =
    (log ++ EvDownload (JS.get_opt file "name")
         :: requests_for
              (antigravity_request (handle_of file)
                 (JSON_stringify (VObj [("project", VStr projectId)])))
              (firstn k antigravity_URLS))%list.
Proof.
  intro N.
  destruct (resolveAntigravityProjectId_not_blank JSON_parse
              authFilesApi_download (JS.get_opt file "name") log)
    as (p & R & Hne & _).
  unfold antigravityQuota_fetch, bind, lift.
  rewrite (authIndex_of_handle _ N), R.
  destruct (loop_requests
              (antigravity_request (handle_of file)
                 (JSON_stringify (VObj [("project", VStr p)])))
              antigravity_URLS None
              (log ++ [EvDownload (JS.get_opt file "name")])%list)
    as (k & Hk & H1 & E).
  exists p, k. split; [split; [apply H1; discriminate|exact Hk]|].
  split; [exact Hne|]. rewrite E, <- app_assoc. reflexivity.
Qed.

End AntigravityRequests.

(** Two answers 500 and then a 200: the three URLs, in order, after the
    download. *)
Lemma antigravity_fetch_requests_witness :
  exists projectId k,
    (1 <= k <= 3)%nat /\ projectId <> "" /\
    snd (ExampleFetch.fetch ExampleFetch.third_succeeds) =
    (EvDownload (VStr "antigravity-user.json")
       :: requests_for
            (antigravity_request (VStr "a1b2")
               (Example.JSON_stringify (VObj [("project", VStr projectId)])))
            (firstn k antigravity_URLS))%list.
Proof.
  exact (antigravity_fetch_requests Example.fraction_to_string Json.parse
           Example.JSON_stringify ExampleFetch.no_download
           ExampleFetch.third_succeeds ExampleFetch.file [] eq_refl).
Defined.
